(** * great_expectations: expectation-to-metric resolution and validation

    A shallow embedding of the map-expectation family
    ([great_expectations/expectations/expectation.py]) and of the Spark
    execution engine's domain resolution and metric bundling
    ([great_expectations/execution_engine/sparkdf_execution_engine.py]),
    with the properties the specification states about them; and, further,
    of the configuration methods of the expectation classes, of
    [ExpectColumnValuesToNotMatchLikePatternList], of the batch helpers of
    the Spark engine and of the data connector that infers its assets
    from a SQL database, with properties read off the code.

    Python exceptions are an explicit result type, dictionaries used as
    ordered payloads are association lists, dictionaries used as maps are
    [gmap]s, and Python floats are IEEE-754 binary64 values
    ([SpecFloat], precision 53, maximal exponent 1024). *)

From Stdlib Require Import ZArith String Ascii List SpecFloat Lia Permutation.
From stdpp Require Import gmap strings list sorting.

Open Scope string_scope.
Open Scope Z_scope.

(** ** Exceptions and the result of a call *)

Inductive exn : Type :=
| TypeError
| ValueError
| ZeroDivisionError
| OverflowError
| AssertionError
| ValidationError
| GreatExpectationsError
| MetricProviderError.

Inductive res (A : Type) : Type :=
| Ret (a : A)
| Raise (e : exn).

Arguments Ret {A} a.
Arguments Raise {A} e.

Definition bind {A B : Type} (m : res A) (k : A -> res B) : res B :=
  match m with
  | Ret a => k a
  | Raise e => Raise e
  end.

Notation "'let!' x ':=' m 'in' k" := (bind m (fun x => k))
  (at level 10, x pattern, m at level 100, k at level 200).

Definition returns {A : Type} (m : res A) : Prop := exists a, m = Ret a.
Definition raises {A : Type} (m : res A) : Prop := exists e, m = Raise e.

Definition is_ret {A : Type} (m : res A) : bool :=
  match m with
  | Ret _ => true
  | Raise _ => false
  end.

(** [assert c] of Python: [AssertionError] when [c] is false. *)
Definition py_assert (c : bool) : res unit :=
  if c then Ret tt else Raise AssertionError.

(** ** Python values *)

(** The values a column can hold in the model: [None], integers, strings
    and lists.  Lists are the unhashable ones. *)
#[warnings="-register-all"]
Inductive uval : Type :=
| UNone
| UInt (z : Z)
| UStr (s : string)
| UList (l : list uval).

Fixpoint uval_eq_dec (x y : uval) {struct x} : {x = y} + {x <> y}.
Proof.
  decide equality.
  - apply Z.eq_dec.
  - apply string_dec.
  - apply (List.list_eq_dec uval_eq_dec).
Defined.

#[global] Instance uval_eq_decision : EqDecision uval := uval_eq_dec.

(** [hash(x)] succeeds. *)
Definition hashable (x : uval) : bool :=
  match x with
  | UList _ => false
  | _ => true
  end.

(** [x < y]: defined between two integers, two strings (by code point) and
    two lists (at the first index where the elements differ); every other
    pair is a [TypeError]. *)
Fixpoint uval_lt (x y : uval) {struct x} : res bool :=
  match x, y with
  | UInt a, UInt b => Ret (a <? b)
  | UStr a, UStr b => Ret (String.ltb a b)
  | UList l1, UList l2 =>
      (fix go (l1 l2 : list uval) {struct l1} : res bool :=
         match l1, l2 with
         | _, [] => Ret false
         | [], _ :: _ => Ret true
         | a :: l1', b :: l2' =>
             if bool_decide (a = b) then go l1' l2' else uval_lt a b
         end) l1 l2
  | _, _ => Raise TypeError
  end.

(** JSON-like values of a result payload. *)
#[warnings="-register-all"]
Inductive pyval : Type :=
| PNone
| PBool (b : bool)
| PInt (z : Z)
| PFloat (f : spec_float)
| PStr (s : string)
| PList (l : list pyval)
| PDict (d : list (string * pyval)).

Fixpoint pyval_of_uval (x : uval) : pyval :=
  match x with
  | UNone => PNone
  | UInt z => PInt z
  | UStr s => PStr s
  | UList l => PList (List.map pyval_of_uval l)
  end.

Definition pyval_of_int (o : option Z) : pyval :=
  match o with Some z => PInt z | None => PNone end.

Definition pyval_of_float (o : option spec_float) : pyval :=
  match o with Some f => PFloat f | None => PNone end.

Definition pyval_of_bool (o : option bool) : pyval :=
  match o with Some b => PBool b | None => PNone end.

Definition pyval_of_list (o : option (list uval)) : pyval :=
  match o with Some l => PList (List.map pyval_of_uval l) | None => PNone end.

(** ** Dictionaries in insertion order *)

Definition dict : Type := list (string * pyval).

Fixpoint dict_get (k : string) (d : dict) : option pyval :=
  match d with
  | [] => None
  | (k', v) :: d' => if String.eqb k k' then Some v else dict_get k d'
  end.

(** [d[k] = v] *)
Fixpoint dict_set (k : string) (v : pyval) (d : dict) : dict :=
  match d with
  | [] => [(k, v)]
  | (k', v') :: d' =>
      if String.eqb k k' then (k', v) :: d' else (k', v') :: dict_set k v d'
  end.

(** [d.update(new)] *)
Definition dict_update (d new : dict) : dict :=
  fold_left (fun acc kv => dict_set (fst kv) (snd kv) acc) new d.

(** [l[:n]], with Python's reading of a negative bound. *)
Definition slice_to {A : Type} (n : Z) (l : list A) : list A :=
  if 0 <=? n then firstn (Z.to_nat n) l
  else firstn (Z.to_nat (Z.of_nat (length l) + n)) l.

(** ** Numbers *)

Definition prec : Z := 53.
Definition emax : Z := 1024.

(** An integer as the operand of a float operation, before any rounding. *)
Definition float_operand (z : Z) : spec_float :=
  match z with
  | Z0 => S754_zero false
  | Zpos p => S754_finite false p 0
  | Zneg p => S754_finite true p 0
  end.

(** [float(z)], for [z] in the range of binary64. *)
Definition float_of_int (z : Z) : spec_float :=
  binary_normalize prec emax z 0 false.

(** [a / b] on two integers: the correctly rounded quotient. *)
Definition int_truediv (a b : Z) : res spec_float :=
  if b =? 0 then Raise ZeroDivisionError
  else
    match SFdiv prec emax (float_operand a) (float_operand b) with
    | S754_infinity _ => Raise OverflowError
    | q => Ret q
    end.

(** [x * 100] on a float [x]. *)
Definition float_mul_100 (x : spec_float) : spec_float :=
  SFmul prec emax x (float_of_int 100).

(** [a / b * 100] *)
Definition percent (a b : Z) : res spec_float :=
  let! q := int_truediv a b in Ret (float_mul_100 q).

(** A Python number: [int] or [float]. *)
Inductive pynum : Type :=
| NInt (z : Z)
| NFloat (f : spec_float).

(** The exact value of a finite float, as mantissa and binary exponent. *)
Definition float_value (f : spec_float) : option (Z * Z) :=
  match f with
  | S754_zero _ => Some (0, 0)
  | S754_finite s m e => Some (if s then Zneg m else Zpos m, e)
  | _ => None
  end.

Definition compare_values (x y : Z * Z) : comparison :=
  let e := Z.min (snd x) (snd y) in
  Z.compare (fst x * 2 ^ (snd x - e)) (fst y * 2 ^ (snd y - e)).

(** Exact comparison of a float with a number; [None] when unordered. *)
Definition float_compare (x : spec_float) (y : pynum) : option comparison :=
  let y' := match y with NInt z => float_operand z | NFloat f => f end in
  match x, y' with
  | S754_nan, _ | _, S754_nan => None
  | S754_infinity s1, S754_infinity s2 =>
      Some (match s1, s2 with
            | true, false => Lt
            | false, true => Gt
            | _, _ => Eq
            end)
  | S754_infinity s, _ => Some (if s then Lt else Gt)
  | _, S754_infinity s => Some (if s then Gt else Lt)
  | _, _ =>
      match float_value x, float_value y' with
      | Some vx, Some vy => Some (compare_values vx vy)
      | _, _ => None
      end
  end.

(** [x >= y] *)
Definition float_ge (x : spec_float) (y : pynum) : bool :=
  match float_compare x y with
  | Some (Gt | Eq) => true
  | _ => false
  end.

(** ** [collections.Counter] and [sorted] *)

(** One more occurrence of [x]; a new key goes last (insertion order). *)
Fixpoint counter_add (x : uval) (c : list (uval * nat)) : list (uval * nat) :=
  match c with
  | [] => [(x, 1%nat)]
  | (y, k) :: c' =>
      if bool_decide (x = y) then (y, S k) :: c' else (y, k) :: counter_add x c'
  end.

Definition counter_items (l : list uval) : list (uval * nat) :=
  fold_left (fun c x => counter_add x c) l [].

(** [Counter(l).items()]: a [TypeError] on an unhashable element. *)
Definition Counter (l : list uval) : res (list (uval * nat)) :=
  if forallb hashable l then Ret (counter_items l) else Raise TypeError.

(** [sorted]: a stable sort that only asks whether one item is strictly
    before another; an exception of a comparison is the exception of the
    sort.  Which pairs get compared is the algorithm's affair (insertion
    here); the properties below rest on it only where every comparison is
    defined or where two items are sorted, and there every algorithm
    agrees. *)
Fixpoint insert_by {A : Type} (before : A -> A -> res bool) (x : A)
  (l : list A) : res (list A) :=
  match l with
  | [] => Ret [x]
  | y :: l' =>
      let! b := before y x in
      if b : bool then let! r := insert_by before x l' in Ret (y :: r)
      else Ret (x :: y :: l')
  end.

Fixpoint sorted_by {A : Type} (before : A -> A -> res bool) (l : list A)
  : res (list A) :=
  match l with
  | [] => Ret []
  | x :: l' => let! s := sorted_by before l' in insert_by before x s
  end.

(** [Counter.most_common(n)] for a positive [n]: the items by decreasing
    count, equal counts in the order the keys were first seen, cut to [n]. *)
Definition count_before (a b : uval * nat) : res bool :=
  Ret (snd b <? snd a)%nat.

Definition most_common (n : Z) (items : list (uval * nat))
  : res (list (uval * nat)) :=
  let! s := sorted_by count_before items in Ret (firstn (Z.to_nat n) s).

(** [(-x[1], x[0]) < (-y[1], y[0])] on two items of a counter. *)
Definition key_before (a b : uval * nat) : res bool :=
  if negb (snd a =? snd b)%nat then Ret (snd b <? snd a)%nat
  else if bool_decide (fst a = fst b) then Ret false
  else uval_lt (fst a) (fst b).

Definition count_entry (kv : uval * nat) : pyval :=
  PDict [("value", pyval_of_uval (fst kv)); ("count", PInt (Z.of_nat (snd kv)))].

Definition counts_placeholder : pyval :=
  PList [PStr "partial_exception_counts requires a hashable type"].

(** ** The result formatter *)

(** A parsed result format: the dictionary whose ["result_format"] and
    ["partial_unexpected_count"] the formatter reads. *)
Record ResultFormat : Type := {
  result_format : string;
  partial_unexpected_count : Z
}.

Inductive tier : Type := BOOLEAN_ONLY | BASIC | SUMMARY | COMPLETE.

#[global] Instance tier_eq_decision : EqDecision tier.
Proof. solve_decision. Defined.

Definition tier_name (t : tier) : string :=
  match t with
  | BOOLEAN_ONLY => "BOOLEAN_ONLY"
  | BASIC => "BASIC"
  | SUMMARY => "SUMMARY"
  | COMPLETE => "COMPLETE"
  end.

Definition tier_rank (t : tier) : nat :=
  match t with
  | BOOLEAN_ONLY => 0
  | BASIC => 1
  | SUMMARY => 2
  | COMPLETE => 3
  end.

Definition at_tier (t : tier) (n : Z) : ResultFormat :=
  {| result_format := tier_name t; partial_unexpected_count := n |}.

(** An operand that has to be an integer: [None] there is a [TypeError]. *)
Definition int_operand (o : option Z) : res Z :=
  match o with Some z => Ret z | None => Raise TypeError end.

Definition list_operand {A : Type} (o : option (list A)) : res (list A) :=
  match o with Some l => Ret l | None => Raise TypeError end.

(** The three percentages of lines 1232-1245.  A variable the source
    leaves unassigned is [None] here; it is read only when assigned. *)
Definition percents (element_count : Z) (nonnull_count unexpected_count missing_count : option Z)
  : res (option spec_float * option spec_float * option spec_float) :=
  if 0 <? element_count then
    let! uc := int_operand unexpected_count in
    let! unexpected_percent := percent uc element_count in
    match nonnull_count, missing_count with
    | Some nn, Some mc =>
        let! missing_percent := percent mc element_count in
        if 0 <? nn then
          let! unexpected_percent_nonmissing := percent uc nn in
          Ret (Some unexpected_percent, Some missing_percent,
               Some unexpected_percent_nonmissing)
        else Ret (Some unexpected_percent, Some missing_percent, None)
    | _, _ => Ret (Some unexpected_percent, None, None)
    end
  else Ret (None, None, None).

(** The sorted most common items of lines 1271-1276. *)
Definition sorted_most_common (n : Z) (unexpected_list : list uval)
  : res (list (uval * nat)) :=
  let! items := Counter unexpected_list in
  let! top := most_common n items in
  sorted_by key_before top.

(** The [try]/[except TypeError] of lines 1268-1281. *)
Definition partial_unexpected_counts_of (n : Z) (unexpected_list : list uval)
  : res pyval :=
  match sorted_most_common n unexpected_list with
  | Ret s => Ret (PList (List.map count_entry s))
  | Raise TypeError => Ret counts_placeholder
  | Raise e => Raise e
  end.

Definition return_obj (success : option bool) (result : option dict) : dict :=
  match result with
  | None => [("success", pyval_of_bool success)]
  | Some r => [("success", pyval_of_bool success); ("result", PDict r)]
  end.

Definition _format_map_output (rf : ResultFormat) (success : option bool)
  (element_count nonnull_count unexpected_count : option Z)
  (unexpected_list unexpected_index_list : option (list uval)) : res dict :=
  let n := partial_unexpected_count rf in
  if String.eqb (result_format rf) "BOOLEAN_ONLY" then Ret (return_obj success None)
  else
    let! missing_count :=
      match nonnull_count with
      | None => Ret None
      | Some nn => let! ec := int_operand element_count in Ret (Some (ec - nn))
      end in
    let skip_missing := match nonnull_count with None => true | Some _ => false end in
    let! ec := int_operand element_count in
    let! ps := percents ec nonnull_count unexpected_count missing_count in
    let '(unexpected_percent, missing_percent, unexpected_percent_nonmissing) := ps in
    let! ul := list_operand unexpected_list in
    let result :=
      [("element_count", PInt ec);
       ("unexpected_count", pyval_of_int unexpected_count);
       ("unexpected_percent", pyval_of_float unexpected_percent);
       ("partial_unexpected_list", PList (List.map pyval_of_uval (slice_to n ul)))] in
    let result :=
      if skip_missing then result
      else
        dict_set "unexpected_percent_nonmissing" (pyval_of_float unexpected_percent_nonmissing)
          (dict_set "missing_percent" (pyval_of_float missing_percent)
             (dict_set "missing_count" (pyval_of_int missing_count) result)) in
    if String.eqb (result_format rf) "BASIC" then Ret (return_obj success (Some result))
    else
      let! result :=
        if 0 <? n then
          let! partial_unexpected_counts := partial_unexpected_counts_of n ul in
          Ret (dict_update result
                 [("partial_unexpected_index_list",
                   match unexpected_index_list with
                   | Some il => PList (List.map pyval_of_uval (slice_to n il))
                   | None => PNone
                   end);
                  ("partial_unexpected_counts", partial_unexpected_counts)])
        else Ret result in
      if String.eqb (result_format rf) "SUMMARY" then Ret (return_obj success (Some result))
      else
        let result :=
          dict_update result
            [("unexpected_list", pyval_of_list unexpected_list);
             ("unexpected_index_list", pyval_of_list unexpected_index_list)] in
        if String.eqb (result_format rf) "COMPLETE" then Ret (return_obj success (Some result))
        else Raise ValueError.

(** *** The formatter on arguments of any type

    [_format_map_output] above takes its counts as integers or [None] and
    its lists as lists or [None].  [_validate] hands it the resolved
    metrics as they are; what each line does with a value of any type is
    written out here. *)

(** [x is None] *)
Definition is_None (x : uval) : bool :=
  match x with
  | UNone => true
  | _ => false
  end.

(** [x - y]: the difference of two integers; between any other two values
    a [TypeError]. *)
Definition uval_sub (x y : uval) : res uval :=
  match x, y with
  | UInt a, UInt b => Ret (UInt (a - b))
  | _, _ => Raise TypeError
  end.

(** [x / y]: the quotient of two integers, a float; between any other two
    values a [TypeError]. *)
Definition uval_truediv (x y : uval) : res spec_float :=
  match x, y with
  | UInt a, UInt b => int_truediv a b
  | _, _ => Raise TypeError
  end.

(** A string is held as its UTF-8 bytes; Python slices it and iterates
    over it character by character.  A byte [10xxxxxx] continues the
    character before it. *)
Definition is_continuation (c : ascii) : bool :=
  let n := nat_of_ascii c in (128 <=? n)%nat && (n <? 192)%nat.

(** The characters of a string, each with its bytes. *)
Fixpoint code_points (s : string) : list string :=
  match s with
  | EmptyString => []
  | String c rest =>
      let tail := code_points rest in
      match rest, tail with
      | String c' _, p :: ps =>
          if is_continuation c' then String c p :: ps
          else String c EmptyString :: tail
      | _, _ => String c EmptyString :: tail
      end
  end.

(** [x[:n]]: of a list a list, of a string a string; [None] and integers
    cannot be sliced. *)
Definition uval_slice (n : Z) (x : uval) : res uval :=
  match x with
  | UList l => Ret (UList (slice_to n l))
  | UStr s => Ret (UStr (String.concat "" (slice_to n (code_points s))))
  | _ => Raise TypeError
  end.

(** [Counter(x).items()] for a value of any type: a list is counted by its
    elements and a string by its characters, [Counter(None)] is the empty
    counter, and an integer cannot be iterated over. *)
Definition Counter_untyped (x : uval) : res (list (uval * nat)) :=
  match x with
  | UList l => Counter l
  | UStr s => Counter (List.map UStr (code_points s))
  | UNone => Ret []
  | UInt _ => Raise TypeError
  end.

(** Lines 1232-1245. *)
Definition percents_untyped (element_count nonnull_count unexpected_count missing_count : uval)
  (skip_missing : bool)
  : res (option spec_float * option spec_float * option spec_float) :=
  let! positive := uval_lt (UInt 0) element_count in
  if positive : bool then
    let! q := uval_truediv unexpected_count element_count in
    let unexpected_percent := float_mul_100 q in
    if skip_missing then Ret (Some unexpected_percent, None, None)
    else
      let! q := uval_truediv missing_count element_count in
      let missing_percent := float_mul_100 q in
      let! nonnull_positive := uval_lt (UInt 0) nonnull_count in
      if nonnull_positive : bool then
        let! q := uval_truediv unexpected_count nonnull_count in
        Ret (Some unexpected_percent, Some missing_percent, Some (float_mul_100 q))
      else Ret (Some unexpected_percent, Some missing_percent, None)
  else Ret (None, None, None).

(** The [try]/[except TypeError] of lines 1268-1281. *)
Definition partial_unexpected_counts_untyped (n : Z) (unexpected_list : uval) : res pyval :=
  match (let! items := Counter_untyped unexpected_list in
         let! top := most_common n items in
         sorted_by key_before top) with
  | Ret s => Ret (PList (List.map count_entry s))
  | Raise TypeError => Ret counts_placeholder
  | Raise e => Raise e
  end.

Definition _format_map_output_untyped (rf : ResultFormat) (success : option bool)
  (element_count nonnull_count unexpected_count unexpected_list unexpected_index_list : uval)
  : res dict :=
  let n := partial_unexpected_count rf in
  if String.eqb (result_format rf) "BOOLEAN_ONLY" then Ret (return_obj success None)
  else
    let skip_missing := is_None nonnull_count in
    let! missing_count :=
      if skip_missing then Ret UNone else uval_sub element_count nonnull_count in
    let! ps :=
      percents_untyped element_count nonnull_count unexpected_count missing_count
        skip_missing in
    let '(unexpected_percent, missing_percent, unexpected_percent_nonmissing) := ps in
    let! partial_unexpected_list := uval_slice n unexpected_list in
    let result :=
      [("element_count", pyval_of_uval element_count);
       ("unexpected_count", pyval_of_uval unexpected_count);
       ("unexpected_percent", pyval_of_float unexpected_percent);
       ("partial_unexpected_list", pyval_of_uval partial_unexpected_list)] in
    let result :=
      if skip_missing then result
      else
        dict_set "unexpected_percent_nonmissing" (pyval_of_float unexpected_percent_nonmissing)
          (dict_set "missing_percent" (pyval_of_float missing_percent)
             (dict_set "missing_count" (pyval_of_uval missing_count) result)) in
    if String.eqb (result_format rf) "BASIC" then Ret (return_obj success (Some result))
    else
      let! result :=
        if 0 <? n then
          let! partial_unexpected_counts :=
            partial_unexpected_counts_untyped n unexpected_list in
          let! partial_unexpected_index_list :=
            if is_None unexpected_index_list then Ret UNone
            else uval_slice n unexpected_index_list in
          Ret (dict_update result
                 [("partial_unexpected_index_list",
                   pyval_of_uval partial_unexpected_index_list);
                  ("partial_unexpected_counts", partial_unexpected_counts)])
        else Ret result in
      if String.eqb (result_format rf) "SUMMARY" then Ret (return_obj success (Some result))
      else
        let result :=
          dict_update result
            [("unexpected_list", pyval_of_uval unexpected_list);
             ("unexpected_index_list", pyval_of_uval unexpected_index_list)] in
        if String.eqb (result_format rf) "COMPLETE" then Ret (return_obj success (Some result))
        else Raise ValueError.

(** ** Metric dependencies of the expectation classes *)

(** Metric domain and value kwargs: dictionaries used as maps. *)
Abbreviation kwargs := (gmap string uval).

(** [d.get(k)]: [None] for a missing key. *)
Definition kw_get (d : kwargs) (k : string) : uval := default UNone (d !! k).

(** [MetricConfiguration(metric_name, metric_domain_kwargs,
    metric_value_kwargs)], as the expectation classes build it. *)
Record MetricConfiguration : Type := {
  metric_name : string;
  metric_domain_kwargs : kwargs;
  metric_value_kwargs : kwargs
}.

(** The dictionary [{"result_format": ..., "metrics": ...}]. *)
Record Dependencies : Type := {
  dep_result_format : ResultFormat;
  dep_metrics : gmap string MetricConfiguration
}.

(** [isinstance(execution_engine, PandasExecutionEngine)] or not. *)
Inductive engine_kind : Type := PandasExecutionEngine | OtherExecutionEngine.

(** The registry's [get_metric_kwargs(metric_name, configuration,
    runtime_configuration)] belongs to another module of the package; it
    is taken as the function [gmk] of the metric name, for a fixed
    configuration, giving the domain and the value kwargs or raising. *)
Definition metric_kwargs_fn : Type := string -> res (kwargs * kwargs).

(** [metric_kwargs = get_metric_kwargs(name, ...);
     metric_dependencies[name] = MetricConfiguration(name, ...)] *)
Definition add_metric (gmk : metric_kwargs_fn) (name : string)
  (metric_dependencies : gmap string MetricConfiguration)
  : res (gmap string MetricConfiguration) :=
  let! metric_kwargs := gmk name in
  Ret (<[name := {| metric_name := name;
                    metric_domain_kwargs := fst metric_kwargs;
                    metric_value_kwargs := snd metric_kwargs |}]> metric_dependencies).

Definition with_metrics (d : Dependencies) (m : gmap string MetricConfiguration)
  : Dependencies :=
  {| dep_result_format := dep_result_format d; dep_metrics := m |}.

Module Expectation.

(** [rf] is the parsed result format the runtime kwargs resolve to
    ([parse_result_format] belongs to another module of the package). *)
Definition get_validation_dependencies (rf : ResultFormat) : Dependencies :=
  {| dep_result_format := rf; dep_metrics := ∅ |}.

End Expectation.

Module TableExpectation.

Fixpoint add_all (gmk : metric_kwargs_fn) (names : list string)
  (m : gmap string MetricConfiguration) : res (gmap string MetricConfiguration) :=
  match names with
  | [] => Ret m
  | metric_name :: rest => let! m' := add_metric gmk metric_name m in add_all gmk rest m'
  end.

Definition get_validation_dependencies (gmk : metric_kwargs_fn)
  (metric_dependencies : list string) (rf : ResultFormat) : res Dependencies :=
  let dependencies := Expectation.get_validation_dependencies rf in
  let! m := add_all gmk metric_dependencies (dep_metrics dependencies) in
  Ret (with_metrics dependencies m).

End TableExpectation.

Module ColumnMapExpectation.

Definition get_validation_dependencies (gmk : metric_kwargs_fn)
  (map_metric : option string) (metric_dependencies : list string)
  (rf : ResultFormat) (execution_engine : engine_kind) : res Dependencies :=
  let! dependencies :=
    TableExpectation.get_validation_dependencies gmk metric_dependencies rf in
  let! map_metric :=
    match map_metric with Some s => Ret s | None => Raise AssertionError end in
  let! _ := py_assert (bool_decide (metric_dependencies = [])) in
  let metric_dependencies := dep_metrics dependencies in
  let! metric_dependencies :=
    add_metric gmk "column_values.nonnull.unexpected_count" metric_dependencies in
  let! metric_dependencies :=
    add_metric gmk (map_metric ++ ".unexpected_count") metric_dependencies in
  let result_format_str := result_format (dep_result_format dependencies) in
  let! metric_dependencies := add_metric gmk "table.row_count" metric_dependencies in
  if String.eqb result_format_str "BOOLEAN_ONLY"
  then Ret (with_metrics dependencies metric_dependencies)
  else
    let! metric_dependencies :=
      add_metric gmk (map_metric ++ ".unexpected_values") metric_dependencies in
    if String.eqb result_format_str "BASIC" || String.eqb result_format_str "SUMMARY"
    then Ret (with_metrics dependencies metric_dependencies)
    else
      let! metric_dependencies :=
        add_metric gmk (map_metric ++ ".unexpected_rows") metric_dependencies in
      match execution_engine with
      | PandasExecutionEngine =>
          let! metric_dependencies :=
            add_metric gmk (map_metric ++ ".unexpected_index_list") metric_dependencies in
          Ret (with_metrics dependencies metric_dependencies)
      | OtherExecutionEngine => Ret (with_metrics dependencies metric_dependencies)
      end.

(** [rf] is the parsed result format and [mostly] the success kwarg the
    configured instance resolves. *)
Definition _validate (rf : ResultFormat) (mostly : pynum) (map_metric : string)
  (metrics : kwargs) : res dict :=
  let total_count := kw_get metrics "table.row_count" in
  let null_count := kw_get metrics "column_values.nonnull.unexpected_count" in
  let unexpected_count := kw_get metrics (map_metric ++ ".unexpected_count") in
  let! success :=
    if is_None total_count || is_None null_count then Ret (Some true)
    else
      let! difference := uval_sub total_count null_count in
      if negb (bool_decide (difference = UInt 0)) then
        let! numerator := uval_sub total_count unexpected_count in
        let! numerator := uval_sub numerator null_count in
        let! denominator := uval_sub total_count null_count in
        let! success_ratio := uval_truediv numerator denominator in
        Ret (Some (float_ge success_ratio mostly))
      else if bool_decide (total_count = UInt 0) then Ret (Some true)
      else
        let! difference := uval_sub total_count null_count in
        if bool_decide (difference = UInt 0) then Ret (Some true) else Ret None in
  let! nonnull_count :=
    match uval_sub (kw_get metrics "table.row_count")
            (kw_get metrics "column_values.nonnull.unexpected_count") with
    | Raise TypeError => Ret UNone
    | r => r
    end in
  _format_map_output_untyped rf success (kw_get metrics "table.row_count") nonnull_count
    (kw_get metrics (map_metric ++ ".unexpected_count"))
    (kw_get metrics (map_metric ++ ".unexpected_values"))
    (kw_get metrics (map_metric ++ ".unexpected_index_list")).

End ColumnMapExpectation.

Module ColumnPairMapExpectation.

Definition get_validation_dependencies (gmk : metric_kwargs_fn)
  (map_metric : option string) (metric_dependencies : list string)
  (rf : ResultFormat) (execution_engine : engine_kind) : res Dependencies :=
  let! dependencies :=
    TableExpectation.get_validation_dependencies gmk metric_dependencies rf in
  let! map_metric :=
    match map_metric with Some s => Ret s | None => Raise AssertionError end in
  let! _ := py_assert (bool_decide (metric_dependencies = [])) in
  let metric_dependencies := dep_metrics dependencies in
  let! metric_dependencies :=
    add_metric gmk "column_values.nonnull.unexpected_count" metric_dependencies in
  let! metric_dependencies :=
    add_metric gmk (map_metric ++ ".unexpected_count") metric_dependencies in
  let result_format_str := result_format (dep_result_format dependencies) in
  if String.eqb result_format_str "BOOLEAN_ONLY"
  then Ret (with_metrics dependencies metric_dependencies)
  else
    let! metric_dependencies := add_metric gmk "table.row_count" metric_dependencies in
    let! metric_dependencies :=
      add_metric gmk (map_metric ++ ".unexpected_values") metric_dependencies in
    if String.eqb result_format_str "BASIC" || String.eqb result_format_str "SUMMARY"
    then Ret (with_metrics dependencies metric_dependencies)
    else
      let! metric_dependencies :=
        add_metric gmk (map_metric ++ ".unexpected_rows") metric_dependencies in
      match execution_engine with
      | PandasExecutionEngine =>
          let! metric_dependencies :=
            add_metric gmk (map_metric ++ ".unexpected_index_list") metric_dependencies in
          Ret (with_metrics dependencies metric_dependencies)
      | OtherExecutionEngine => Ret (with_metrics dependencies metric_dependencies)
      end.

Definition _validate (rf : ResultFormat) (mostly : pynum) (map_metric : string)
  (metrics : kwargs) : res dict :=
  let total_count := kw_get metrics "table.row_count" in
  let null_count := kw_get metrics "column_values.nonnull.unexpected_count" in
  let unexpected_count := kw_get metrics (map_metric ++ ".unexpected_count") in
  let! success :=
    if is_None total_count || is_None null_count then Ret (Some true)
    else
      let! difference := uval_sub total_count null_count in
      if negb (bool_decide (difference = UInt 0)) then
        let! numerator := uval_sub total_count unexpected_count in
        let! numerator := uval_sub numerator null_count in
        let! denominator := uval_sub total_count null_count in
        let! success_ratio := uval_truediv numerator denominator in
        Ret (Some (float_ge success_ratio mostly))
      else if bool_decide (total_count = UInt 0) then Ret (Some true)
      else
        let! difference := uval_sub total_count null_count in
        if bool_decide (difference = UInt 0) then Ret (Some true) else Ret None in
  let! nonnull_count :=
    match uval_sub (kw_get metrics "table.row_count")
            (kw_get metrics "column_values.nonnull.unexpected_count") with
    | Raise TypeError => Ret UNone
    | r => r
    end in
  _format_map_output_untyped rf success (kw_get metrics "table.row_count") nonnull_count
    (kw_get metrics (map_metric ++ ".unexpected_count"))
    (kw_get metrics (map_metric ++ ".unexpected_values"))
    (kw_get metrics (map_metric ++ ".unexpected_index_list")).

End ColumnPairMapExpectation.

(** The two map-expectation classes. *)
Inductive map_class : Type := ColumnMap | ColumnPairMap.

Definition get_validation_dependencies (c : map_class) :=
  match c with
  | ColumnMap => ColumnMapExpectation.get_validation_dependencies
  | ColumnPairMap => ColumnPairMapExpectation.get_validation_dependencies
  end.

Definition _validate (c : map_class) :=
  match c with
  | ColumnMap => ColumnMapExpectation._validate
  | ColumnPairMap => ColumnPairMapExpectation._validate
  end.

(** The success rule in the words of the specification: vacuously true
    when the total or the null count is unknown or when no non-null row is
    left, and otherwise the ratio of the expected among the non-null rows
    against [mostly]. *)
Definition mostly_success (mostly : pynum) (total_count null_count unexpected_count : option Z)
  : res bool :=
  match total_count, null_count with
  | None, _ | _, None => Ret true
  | Some tc, Some nc =>
      if tc - nc =? 0 then Ret true
      else
        let! uc := int_operand unexpected_count in
        let! ratio := int_truediv (tc - uc - nc) (tc - nc) in
        Ret (float_ge ratio mostly)
  end.

(** ** The Spark execution engine *)

(** Truth value of a Python object. *)
Definition truthy (x : uval) : bool :=
  match x with
  | UNone => false
  | UInt z => negb (z =? 0)
  | UStr s => negb (String.eqb s "")
  | UList l => match l with [] => false | _ => true end
  end.

(** Modelled from the spec: [MetricConfiguration.id], the key a metric is
    resolved under, is defined with [MetricConfiguration] in another
    module of the package; the spec has it identify the triple of the
    metric name, the domain kwargs and the value kwargs, and it is that
    triple here, each kwargs by its id. *)
Abbreviation metric_id := (string * string * string)%type.

Section SparkDFExecutionEngine.

(** The backend: data frames, column expressions, cell values, and the
    calls the engine makes on them.  [IDDict.to_id] and
    [parse_condition_to_spark] belong to other modules of the package and
    are parameters as well. *)
Variables DataFrame Column Value : Type.
Variable df_filter : DataFrame -> uval -> res DataFrame.
Variable df_filter_column : DataFrame -> Column -> res DataFrame.
Variable parse_condition_to_spark : uval -> res Column.
Variable df_agg_collect : DataFrame -> list Column -> res (list (list Value)).
Variable to_id : kwargs -> string.

Record Engine : Type := {
  active_batch_data : option DataFrame;
  loaded_batch_data : gmap string DataFrame
}.

Definition get_compute_domain (self : Engine) (domain_kwargs : kwargs)
  : res (DataFrame * kwargs * kwargs) :=
  let batch_id := kw_get domain_kwargs "batch_id" in
  let! data :=
    match batch_id with
    | UNone =>
        match active_batch_data self with
        | Some d => Ret d
        | None => Raise ValidationError
        end
    | UStr b =>
        match loaded_batch_data self !! b with
        | Some d => Ret d
        | None => Raise ValidationError
        end
    | UInt _ => Raise ValidationError
    | UList _ => Raise TypeError
    end in
  let compute_domain_kwargs := domain_kwargs in
  let accessor_domain_kwargs : kwargs := ∅ in
  let table := kw_get domain_kwargs "table" in
  if truthy table then Raise ValueError
  else
    let row_condition := kw_get domain_kwargs "row_condition" in
    let! data :=
      if truthy row_condition then
        let condition_parser := kw_get domain_kwargs "condition_parser" in
        if bool_decide (condition_parser = UStr "spark") then
          df_filter data row_condition
        else if bool_decide (condition_parser = UStr "great_expectations__experimental__") then
          let! parsed_condition := parse_condition_to_spark row_condition in
          df_filter_column data parsed_condition
        else Raise GreatExpectationsError
      else Ret data in
    match compute_domain_kwargs !! "column" with
    | Some c =>
        Ret (data, delete "column" compute_domain_kwargs,
             <["column" := c]> accessor_domain_kwargs)
    | None => Ret (data, compute_domain_kwargs, accessor_domain_kwargs)
    end.

(** One element of a metric bundle: the id of the metric to resolve, the
    provider's [metric_fn_type], and what calling the provider on its
    kwargs gives. *)
Record BundleEntry : Type := {
  entry_id : metric_id;
  metric_fn_type : string;
  metric_provider : res (Column * kwargs)
}.

(** One value of the [aggregates] dictionary. *)
Record Aggregate : Type := {
  column_aggregates : list Column;
  ids : list metric_id;
  agg_domain_kwargs : kwargs
}.

(** [aggregates[domain_id]["column_aggregates"].append(c);
     aggregates[domain_id]["ids"].append(i)] *)
Fixpoint aggregates_append (domain_id : string) (c : Column) (i : metric_id)
  (aggregates : list (string * Aggregate)) : list (string * Aggregate) :=
  match aggregates with
  | [] => []
  | (d, a) :: rest =>
      if String.eqb domain_id d then
        (d, {| column_aggregates := (column_aggregates a ++ [c])%list;
               ids := (ids a ++ [i])%list;
               agg_domain_kwargs := agg_domain_kwargs a |}) :: rest
      else (d, a) :: aggregates_append domain_id c i rest
  end.

Definition aggregates_mem (domain_id : string) (aggregates : list (string * Aggregate))
  : bool :=
  existsb (fun da => String.eqb domain_id (fst da)) aggregates.

(** The first loop: the bundle grouped by domain id, in the order the
    ids are first met. *)
Fixpoint group_bundle (metric_fn_bundle : list BundleEntry)
  (aggregates : list (string * Aggregate)) : res (list (string * Aggregate)) :=
  match metric_fn_bundle with
  | [] => Ret aggregates
  | e :: rest =>
      let! _ := py_assert (String.eqb (metric_fn_type e) "aggregate_fn") in
      let! provided := metric_provider e in
      let column_aggregate := fst provided in
      let domain_kwargs := snd provided in
      let domain_id := to_id domain_kwargs in
      let aggregates :=
        if aggregates_mem domain_id aggregates then aggregates
        else (aggregates ++
                [(domain_id, {| column_aggregates := []; ids := [];
                                agg_domain_kwargs := domain_kwargs |})])%list in
      group_bundle rest (aggregates_append domain_id column_aggregate (entry_id e) aggregates)
  end.

(** [for idx, id in enumerate(ids): resolved_metrics[id] = row[idx]],
    for a row as long as [ids]. *)
Fixpoint assign_row (ids : list metric_id) (row : list Value)
  (resolved_metrics : gmap metric_id Value) : gmap metric_id Value :=
  match ids, row with
  | i :: ids', v :: row' => assign_row ids' row' (<[i := v]> resolved_metrics)
  | _, _ => resolved_metrics
  end.

(** The second loop.  The calls of [df.agg(...).collect()] made so far
    are the first component, whether or not the loop ends in an
    exception. *)
Fixpoint run_aggregates (self : Engine) (aggregates : list (string * Aggregate))
  (calls : list (DataFrame * list Column)) (resolved_metrics : gmap metric_id Value)
  : list (DataFrame * list Column) * res (gmap metric_id Value) :=
  match aggregates with
  | [] => (calls, Ret resolved_metrics)
  | (_, aggregate) :: rest =>
      match get_compute_domain self (agg_domain_kwargs aggregate) with
      | Raise e => (calls, Raise e)
      | Ret (df, compute_domain_kwargs, _) =>
          if negb (bool_decide (compute_domain_kwargs = agg_domain_kwargs aggregate))
          then (calls, Raise AssertionError)
          else if negb (length (column_aggregates aggregate) =? length (ids aggregate))%nat
          then (calls, Raise AssertionError)
          else
            let aggregate_cols := column_aggregates aggregate in
            let calls := (calls ++ [(df, aggregate_cols)])%list in
            match df_agg_collect df aggregate_cols with
            | Raise e => (calls, Raise e)
            | Ret rows =>
                match rows with
                | [row] =>
                    if negb (length (ids aggregate) =? length row)%nat
                    then (calls, Raise AssertionError)
                    else run_aggregates self rest calls
                           (assign_row (ids aggregate) row resolved_metrics)
                | _ => (calls, Raise AssertionError)
                end
            end
      end
  end.

Definition resolve_metric_bundle (self : Engine) (metric_fn_bundle : list BundleEntry)
  : list (DataFrame * list Column) * res (gmap metric_id Value) :=
  match group_bundle metric_fn_bundle [] with
  | Raise e => ([], Raise e)
  | Ret aggregates => run_aggregates self aggregates [] ∅
  end.

End SparkDFExecutionEngine.

Arguments active_batch_data {DataFrame} _.
Arguments loaded_batch_data {DataFrame} _.
Arguments Build_Engine {DataFrame} _ _.
Arguments get_compute_domain {DataFrame Column} _ _ _ _ _.
Arguments entry_id {Column} _.
Arguments metric_fn_type {Column} _.
Arguments metric_provider {Column} _.
Arguments Build_BundleEntry {Column} _ _ _.
Arguments column_aggregates {Column} _.
Arguments ids {Column} _.
Arguments agg_domain_kwargs {Column} _.
Arguments Build_Aggregate {Column} _ _ _.
Arguments aggregates_append {Column} _ _ _ _.
Arguments aggregates_mem {Column} _ _.
Arguments group_bundle {Column} _ _ _.
Arguments assign_row {Value} _ _ _.
Arguments run_aggregates {DataFrame Column Value} _ _ _ _ _ _ _ _.
Arguments resolve_metric_bundle {DataFrame Column Value} _ _ _ _ _ _ _.

Section BundleVocabulary.

Context {DataFrame Column Value : Type}.
Variable df_filter : DataFrame -> uval -> res DataFrame.
Variable df_filter_column : DataFrame -> Column -> res DataFrame.
Variable parse_condition_to_spark : uval -> res Column.
Variable df_agg_collect : DataFrame -> list Column -> res (list (list Value)).
Variable to_id : kwargs -> string.

(** What the provider of an entry reports: the column aggregate, the
    domain kwargs and their id. *)
Definition entry_column (e : BundleEntry Column) : option Column :=
  match metric_provider e with
  | Ret p => Some (fst p)
  | Raise _ => None
  end.

Definition entry_domain_kwargs (e : BundleEntry Column) : option kwargs :=
  match metric_provider e with
  | Ret p => Some (snd p)
  | Raise _ => None
  end.

Definition entry_domain_id (e : BundleEntry Column) : option string :=
  to_id <$> entry_domain_kwargs e.

(** The entries of a bundle declared for the domain id [d], in the order
    of the bundle. *)
Definition entries_of (d : string) (bundle : list (BundleEntry Column))
  : list (BundleEntry Column) :=
  filter (fun e => entry_domain_id e = Some d) bundle.

(** [aggregates[domain_id]] *)
Fixpoint aggregates_get (domain_id : string) (aggregates : list (string * Aggregate Column))
  : option (Aggregate Column) :=
  match aggregates with
  | [] => None
  | (d, a) :: rest =>
      if String.eqb domain_id d then Some a else aggregates_get domain_id rest
  end.

(** One aggregation pass for the group [a]: its domain kwargs resolve to
    the data frame [df] and to themselves as compute domain, and the
    backend answers with the single row [row], one value per metric. *)
Definition pass_ok (self : Engine DataFrame) (a : Aggregate Column)
  (df : DataFrame) (row : list Value) : Prop :=
  (exists accessor_domain_kwargs,
     get_compute_domain df_filter df_filter_column parse_condition_to_spark self
       (agg_domain_kwargs a)
     = Ret (df, agg_domain_kwargs a, accessor_domain_kwargs)) /\
  df_agg_collect df (column_aggregates a) = Ret [row] /\
  length row = length (ids a).

End BundleVocabulary.

(** ** Batch definitions and eval columns of the Spark engine *)

(** [process_batch_definition] (lines 357-370): [batch_spec] is updated
    in place and returned. *)
Definition process_batch_definition (batch_definition batch_spec : kwargs) : kwargs :=
  let limit := kw_get batch_definition "limit" in
  if negb (bool_decide (limit = UNone)) then
    if negb (truthy (kw_get batch_spec "limit")) then <["limit" := limit]> batch_spec
    else batch_spec
  else batch_spec.

(** [s.replace(old, new)] for a one-character [old].  (A string is its
    UTF-8 bytes here; no byte of a multi-byte character is an ASCII
    character, so that replacing an ASCII character byte by byte is
    replacing it character by character.) *)
Fixpoint str_replace (old : ascii) (new : string) (s : string) : string :=
  match s with
  | EmptyString => EmptyString
  | String c s' =>
      if Ascii.eqb c old then new ++ str_replace old new s'
      else String c (str_replace old new s')
  end.

Definition _get_eval_column_name (column : string) : string :=
  "__eval_col_" ++ str_replace "`" "_" (str_replace "." "__" column).

(** The characters of a string. *)
Definition chars (s : string) : list ascii := list_ascii_of_string s.

(** ** Configurations of expectations *)

(** The exceptions of the methods below; [Builtin] are the exceptions
    above. *)
Inductive exception : Type :=
| InvalidExpectationConfigurationError (message : string)
| InvalidExpectationKwargsError (missing_kwargs : gset string)
| KeyError (key : string)
| AttributeError
| UnboundLocalError (name : string)
| OperationalError
| Builtin (e : exn).

(** The outcome of a call: [inr] what it returns, [inl] what it raises. *)
Definition outcome (A : Type) : Type := exception + A.

Definition outcome_bind {A B : Type} (m : outcome A) (k : A -> outcome B) : outcome B :=
  match m with
  | inr a => k a
  | inl e => inl e
  end.

Notation "'let?' x ':=' m 'in' k" := (outcome_bind m (fun x => k))
  (at level 10, x pattern, m at level 100, k at level 200).

(** [try: assert c, message
     except AssertionError as e: raise InvalidExpectationConfigurationError(str(e))] *)
Definition assert_configuration (c : bool) (message : string) : outcome unit :=
  if c then inr tt else inl (InvalidExpectationConfigurationError message).

(** [ExpectationConfiguration]: its [expectation_type] and its [kwargs]. *)
Record ExpectationConfiguration : Type := {
  expectation_type : string;
  configuration_kwargs : gmap string pyval
}.

(** The attributes of an expectation class that the methods read. *)
Record ExpectationClass : Type := {
  class_expectation_type : string;
  domain_keys : list string;
  success_keys : list string;
  runtime_keys : list string;
  default_kwarg_values : gmap string pyval
}.

(** An expectation: its class and its [_configuration]. *)
Record ExpectationObject : Type := {
  class_of : ExpectationClass;
  _configuration : option ExpectationConfiguration
}.

(** [d.get(key)] and [d.get(key, default)] *)
Definition dict_get_default (d : gmap string pyval) (key : string) (dflt : pyval) : pyval :=
  default dflt (d !! key).

Definition dict_get_none (d : gmap string pyval) (key : string) : pyval :=
  dict_get_default d key PNone.

(** The [configuration] property (lines 650-656). *)
Definition configuration (self : ExpectationObject) : outcome ExpectationConfiguration :=
  match _configuration self with
  | None =>
      inl (InvalidExpectationConfigurationError
             "cannot access configuration: expectation has not yet been configured")
  | Some c => inr c
  end.

(** [if not configuration: configuration = self.configuration]; an
    [ExpectationConfiguration] is an object, and true as such. *)
Definition configuration_or_own (self : ExpectationObject)
  (given : option ExpectationConfiguration) : outcome ExpectationConfiguration :=
  match given with
  | Some c => inr c
  | None => configuration self
  end.

(** [configuration.kwargs.get(key, self.default_kwarg_values.get(key))] *)
Definition kwarg_or_default (self : ExpectationObject) (c : ExpectationConfiguration)
  (key : string) : pyval :=
  dict_get_default (configuration_kwargs c) key
    (dict_get_none (default_kwarg_values (class_of self)) key).

(** [{key: configuration.kwargs.get(key, self.default_kwarg_values.get(key))
      for key in keys}] *)
Definition kwargs_for (self : ExpectationObject) (c : ExpectationConfiguration)
  (keys : list string) : gmap string pyval :=
  foldl (fun acc key => <[key := kwarg_or_default self c key]> acc) ∅ keys.

Definition get_allowed_config_keys (cls : ExpectationClass) : list string :=
  (domain_keys cls ++ success_keys cls ++ runtime_keys cls)%list.

Definition get_domain_kwargs (self : ExpectationObject)
  (given : option ExpectationConfiguration) : outcome (gmap string pyval) :=
  let? c := configuration_or_own self given in
  let domain_kwargs := kwargs_for self c (domain_keys (class_of self)) in
  let missing_kwargs : gset string :=
    list_to_set (domain_keys (class_of self)) ∖ dom domain_kwargs in
  if negb (bool_decide (missing_kwargs = ∅))
  then inl (InvalidExpectationKwargsError missing_kwargs)
  else inr domain_kwargs.

Definition get_success_kwargs (self : ExpectationObject)
  (given : option ExpectationConfiguration) : outcome (gmap string pyval) :=
  let? c := configuration_or_own self given in
  let? domain_kwargs := get_domain_kwargs self (Some c) in
  let success_kwargs := kwargs_for self c (success_keys (class_of self)) in
  inr (domain_kwargs ∪ success_kwargs).

(** A dictionary argument that may be [None]: true when it is a
    dictionary with a key. *)
Definition dict_truthy (d : option (gmap string pyval)) : bool :=
  match d with
  | Some m => negb (bool_decide (m = ∅))
  | None => false
  end.

(** [configuration = deepcopy(configuration)
     if runtime_configuration:
         configuration.kwargs.update(runtime_configuration)] *)
Definition with_runtime_configuration (c : ExpectationConfiguration)
  (runtime_configuration : option (gmap string pyval)) : ExpectationConfiguration :=
  if dict_truthy runtime_configuration then
    {| expectation_type := expectation_type c;
       configuration_kwargs :=
         default ∅ runtime_configuration ∪ configuration_kwargs c |}
  else c.

Section RuntimeKwargs.

(** [parse_result_format] belongs to another module of the package. *)
Variable parse_result_format : pyval -> outcome pyval.

Definition get_runtime_kwargs (self : ExpectationObject)
  (given : option ExpectationConfiguration)
  (runtime_configuration : option (gmap string pyval)) : outcome (gmap string pyval) :=
  let? c := configuration_or_own self given in
  let c := with_runtime_configuration c runtime_configuration in
  let? success_kwargs := get_success_kwargs self (Some c) in
  let runtime_kwargs := kwargs_for self c (runtime_keys (class_of self)) in
  let runtime_kwargs := success_kwargs ∪ runtime_kwargs in
  match runtime_kwargs !! "result_format" with
  | None => inl (KeyError "result_format")
  | Some result_format =>
      let? parsed := parse_result_format result_format in
      inr (<["result_format" := parsed]> runtime_kwargs)
  end.

End RuntimeKwargs.

(** The result format [_validate] of the two map-expectation classes
    resolves (lines 952-962 and 1149-1159), before it is parsed. *)
Definition _validate_result_format (self : ExpectationObject)
  (c : ExpectationConfiguration) (runtime_configuration : option (gmap string pyval))
  : pyval :=
  let of_configuration := kwarg_or_default self c "result_format" in
  if dict_truthy runtime_configuration then
    dict_get_default (default ∅ runtime_configuration) "result_format" of_configuration
  else of_configuration.

(** [mostly] as [_validate] resolves it (lines 963-965 and 1160-1162),
    from the expectation's own configuration. *)
Definition _validate_mostly (self : ExpectationObject) : outcome pyval :=
  let? success_kwargs := get_success_kwargs self None in
  inr (dict_get_default success_kwargs "mostly"
         (dict_get_none (default_kwarg_values (class_of self)) "mostly")).

(** *** Numbers among the kwargs *)

(** [isinstance(v, (int, float))], with the number [v] is; a [bool] is an
    [int]. *)
Definition number_of (v : pyval) : option pynum :=
  match v with
  | PBool b => Some (NInt (if b then 1 else 0))
  | PInt z => Some (NInt z)
  | PFloat f => Some (NFloat f)
  | _ => None
  end.

(** Exact comparison of two numbers; [None] when a NaN is compared. *)
Definition num_compare (x y : pynum) : option comparison :=
  match x, y with
  | NInt a, NInt b => Some (a ?= b)
  | NFloat f, _ => float_compare f y
  | NInt a, NFloat g => option_map CompOpp (float_compare g (NInt a))
  end.

Definition num_lt (x y : pynum) : bool :=
  match num_compare x y with Some Lt => true | _ => false end.

Definition num_le (x y : pynum) : bool :=
  match num_compare x y with Some (Lt | Eq) => true | _ => false end.

Definition num_gt (x y : pynum) : bool := num_lt y x.
Definition num_ge (x y : pynum) : bool := num_le y x.

(** [0 <= m <= 1] *)
Definition in_unit_interval (m : pynum) : bool :=
  num_le (NInt 0) m && num_le m (NInt 1).

(** *** [validate_configuration] *)

Definition Expectation_validate_configuration (self : ExpectationObject)
  (given : option ExpectationConfiguration) : outcome bool :=
  let? c := match given with
            | None => configuration self
            | Some c => inr c
            end in
  let? _ := assert_configuration
              (String.eqb (expectation_type c) (class_expectation_type (class_of self)))
              "expectation configuration type does not match expectation type" in
  inr true.

(** [configuration.kwargs] when [configuration] may be [None]. *)
Definition kwargs_of (given : option ExpectationConfiguration) : outcome (gmap string pyval) :=
  match given with
  | Some c => inr (configuration_kwargs c)
  | None => inl AttributeError
  end.

(** [key in d] *)
Definition key_in (d : gmap string pyval) (key : string) : bool :=
  bool_decide (is_Some (d !! key)).

(** The two assertions on [mostly], when it is among the kwargs. *)
Definition assert_mostly (kw : gmap string pyval) : outcome unit :=
  match kw !! "mostly" with
  | Some mostly =>
      match number_of mostly with
      | None =>
          inl (InvalidExpectationConfigurationError
                 "'mostly' parameter must be an integer or float")
      | Some m =>
          assert_configuration (in_unit_interval m)
            "'mostly' parameter must be between 0 and 1"
      end
  | None => inr tt
  end.

Definition ColumnMapExpectation_validate_configuration (self : ExpectationObject)
  (given : option ExpectationConfiguration) : outcome bool :=
  let? ok := Expectation_validate_configuration self given in
  if negb ok then inr false
  else
    let? kw := kwargs_of given in
    let? _ := assert_configuration (key_in kw "column")
                "'column' parameter is required for column map expectations" in
    let? _ := assert_mostly kw in
    inr true.

Definition ColumnPairMapExpectation_validate_configuration (self : ExpectationObject)
  (given : option ExpectationConfiguration) : outcome bool :=
  let? ok := Expectation_validate_configuration self given in
  if negb ok then inr false
  else
    let? kw := kwargs_of given in
    let? _ := assert_configuration (key_in kw "column_A")
                "'column_A' parameter is required for column pair map expectations" in
    let? _ := assert_configuration (key_in kw "column_B")
                "'column_B' parameter is required for column pair map expectations" in
    let? _ := assert_mostly kw in
    inr true.

(** [ExpectColumnValuesToNotMatchLikePatternList.validate_configuration]
    (expect_column_values_to_not_match_like_pattern_list.py, lines 51-66). *)
Definition ExpectColumnValuesToNotMatchLikePatternList_validate_configuration
  (self : ExpectationObject) (given : option ExpectationConfiguration) : outcome bool :=
  let? _ := ColumnMapExpectation_validate_configuration self given in
  let? kw := kwargs_of given in
  let? _ := assert_configuration (key_in kw "like_pattern_list")
              "Must provide like_pattern_list" in
  match dict_get_none kw "like_pattern_list" with
  | PList l =>
      let? _ := assert_configuration (0 <? length l)%nat
                  "At least one like_pattern must be supplied in the like_pattern_list." in
      inr true
  | _ => inl (InvalidExpectationConfigurationError "like_pattern_list must be a list")
  end.

(** *** Expectation types *)

Definition is_upper (c : ascii) : bool :=
  let n := nat_of_ascii c in (65 <=? n)%nat && (n <=? 90)%nat.

Definition is_lower (c : ascii) : bool :=
  let n := nat_of_ascii c in (97 <=? n)%nat && (n <=? 122)%nat.

Definition is_digit (c : ascii) : bool :=
  let n := nat_of_ascii c in (48 <=? n)%nat && (n <=? 57)%nat.

Definition newline : ascii := ascii_of_nat 10.

(** [p1.sub(r"\1_\2", name)] for [p1 = (.)([A-Z][a-z]+)]: from left to
    right, a character other than a newline followed by a capital and at
    least one small letter gets an underscore after it; the search goes
    on after the small letters.  [in_match] is true while the small
    letters of a match are copied. *)
Fixpoint sub_p1 (in_match : bool) (name : string) : string :=
  match name with
  | EmptyString => EmptyString
  | String c rest =>
      if in_match && is_lower c then String c (sub_p1 true rest)
      else
        match rest with
        | String u (String l _ as tail) =>
            if negb (Ascii.eqb c newline) && is_upper u && is_lower l
            then String c (String "_" (String u (sub_p1 true tail)))
            else String c (sub_p1 false rest)
        | _ => String c (sub_p1 false rest)
        end
  end.

(** [p2.sub(r"\1_\2", name)] for [p2 = ([a-z0-9])([A-Z])]. *)
Fixpoint sub_p2 (name : string) : string :=
  match name with
  | EmptyString => EmptyString
  | String c rest =>
      match rest with
      | String u tail =>
          if (is_lower c || is_digit c) && is_upper u
          then String c (String "_" (String u (sub_p2 tail)))
          else String c (sub_p2 rest)
      | EmptyString => String c EmptyString
      end
  end.

(** [str.lower] is embedded for strings of ASCII characters, where it
    turns [A-Z] into [a-z] and leaves every other character as it is.
    Beyond ASCII the lower case of a character is given by the Unicode
    tables, which are not part of the model: there is no result then. *)
Definition is_ascii (c : ascii) : bool := (nat_of_ascii c <? 128)%nat.

Definition lower_char (c : ascii) : ascii :=
  if is_upper c then ascii_of_nat (nat_of_ascii c + 32) else c.

Fixpoint lower (s : string) : option string :=
  match s with
  | EmptyString => Some EmptyString
  | String c rest =>
      if is_ascii c then
        match lower rest with
        | Some rest' => Some (String (lower_char c) rest')
        | None => None
        end
      else None
  end.

Definition camel_to_snake (name : string) : option string :=
  let name := sub_p1 false name in
  lower (sub_p2 name).

(** The class attributes of [ExpectColumnValuesToNotMatchLikePatternList];
    the expectation type is the one the metaclass gives the class
    ([camel_to_snake] of the class name), the runtime keys are those of
    [Expectation], the domain keys those of [ColumnMapExpectation]. *)
Definition ExpectColumnValuesToNotMatchLikePatternList : ExpectationClass :=
  {| class_expectation_type := "expect_column_values_to_not_match_like_pattern_list";
     domain_keys := ["batch_id"; "table"; "column"; "row_condition"; "condition_parser"];
     success_keys := ["mostly"; "like_pattern_list"];
     runtime_keys := ["include_config"; "catch_exceptions"; "result_format"];
     default_kwarg_values :=
       <["like_pattern_list" := PNone]>
         (<["row_condition" := PNone]>
            (<["condition_parser" := PNone]>
               (<["mostly" := PInt 1]>
                  (<["result_format" := PStr "BASIC"]>
                     (<["include_config" := PBool true]>
                        (<["catch_exceptions" := PBool true]> ∅)))))) |}.

(** [Expectation.__init__] (lines 126-129), for a class whose
    [validate_configuration] is [validate]. *)
Definition __init__ (cls : ExpectationClass)
  (validate : ExpectationObject -> option ExpectationConfiguration -> outcome bool)
  (given : option ExpectationConfiguration) : outcome ExpectationObject :=
  let self := {| class_of := cls; _configuration := None |} in
  let? _ := match given with
            | Some c => validate self (Some c)
            | None => inr true
            end in
  inr {| class_of := cls; _configuration := given |}.

(** *** A metric value between two thresholds *)

(** Truth value of a value of the kwargs. *)
Definition pyval_truthy (v : pyval) : bool :=
  match v with
  | PNone => false
  | PBool b => b
  | PInt z => negb (z =? 0)
  | PFloat f => match f with S754_zero _ => false | _ => true end
  | PStr s => negb (String.eqb s "")
  | PList l => match l with [] => false | _ => true end
  | PDict d => match d with [] => false | _ => true end
  end.

(** [v is None] *)
Definition is_none (v : pyval) : bool :=
  match v with
  | PNone => true
  | _ => false
  end.

(** A threshold that has to be [None] or a number. *)
Definition threshold (v : pyval) (message : string) : outcome (option pynum) :=
  match v with
  | PNone => inr None
  | _ =>
      match number_of v with
      | Some x => inr (Some x)
      | None => inl (InvalidExpectationConfigurationError message)
      end
  end.

(** [TableExpectation.validate_metric_value_between_configuration]
    (lines 729-759). *)
Definition validate_metric_value_between_configuration
  (given : option ExpectationConfiguration) : outcome bool :=
  let? kw := kwargs_of given in
  let min_val := dict_get_none kw "min_value" in
  let max_val := dict_get_none kw "max_value" in
  let? min_num := threshold min_val "Provided min threshold must be a number" in
  let? max_num := threshold max_val "Provided max threshold must be a number" in
  match min_num, max_num with
  | Some a, Some b =>
      if num_gt a b
      then inl (InvalidExpectationConfigurationError
                  "Minimum Threshold cannot be larger than Maximum Threshold")
      else inr true
  | _, _ => inr true
  end.

Definition pyval_of_num (x : pynum) : pyval :=
  match x with
  | NInt z => PInt z
  | NFloat f => PFloat f
  end.

(** [metric_value > bound] and the like, for a number [metric_value]:
    a bound that is no number cannot be compared with it. *)
Definition compare_with (op : pynum -> pynum -> bool) (metric_value : pynum)
  (bound : pyval) : outcome bool :=
  match number_of bound with
  | Some b => inr (op metric_value b)
  | None => inl (Builtin TypeError)
  end.

(** [TableExpectation._validate_metric_value_between] (lines 761-799),
    for metrics that are numbers; a metric that is missing reads as
    [None]. *)
Definition _validate_metric_value_between (self : ExpectationObject)
  (metric_name : string) (given : option ExpectationConfiguration)
  (metrics : gmap string pynum) : outcome dict :=
  let metric_value := metrics !! metric_name in
  let? success_kwargs := get_success_kwargs self given in
  let min_value := dict_get_none success_kwargs "min_value" in
  let strict_min := dict_get_none success_kwargs "strict_min" in
  let max_value := dict_get_none success_kwargs "max_value" in
  let strict_max := dict_get_none success_kwargs "strict_max" in
  match metric_value with
  | None => inr [("success", PBool false); ("result", PDict [("observed_value", PNone)])]
  | Some v =>
      let? above_min :=
        if negb (is_none min_value) then
          if pyval_truthy strict_min then compare_with num_gt v min_value
          else compare_with num_ge v min_value
        else inr true in
      let? below_max :=
        if negb (is_none max_value) then
          if pyval_truthy strict_max then compare_with num_lt v max_value
          else compare_with num_le v max_value
        else inr true in
      let success := above_min && below_max in
      inr [("success", PBool success);
           ("result", PDict [("observed_value", pyval_of_num v)])]
  end.

(** ** Splitters of the Spark engine *)

Section Splitters.

(** [df.filter(F.col(column_name) == value)] of the backend. *)
Variable DataFrame : Type.
Variable filter_equal : DataFrame -> string -> pyval -> outcome DataFrame.

Definition _split_on_whole_table (df : DataFrame) : DataFrame := df.

Definition _split_on_column_value (df : DataFrame) (column_name : string)
  (partition_definition : dict) : outcome DataFrame :=
  match dict_get column_name partition_definition with
  | Some value => filter_equal df column_name value
  | None => inl (KeyError column_name)
  end.

(** [for column_name, value in partition_definition.items():
         df = df.filter(F.col(column_name) == value)] *)
Fixpoint _split_on_multi_column_values (df : DataFrame) (partition_definition : dict)
  : outcome DataFrame :=
  match partition_definition with
  | [] => inr df
  | (column_name, value) :: rest =>
      let? df := filter_equal df column_name value in
      _split_on_multi_column_values df rest
  end.

(** One split on a column value after the other, for the columns
    [column_names]. *)
Fixpoint split_on_each (df : DataFrame) (column_names : list string)
  (partition_definition : dict) : outcome DataFrame :=
  match column_names with
  | [] => inr df
  | column_name :: rest =>
      let? df := _split_on_column_value df column_name partition_definition in
      split_on_each df rest partition_definition
  end.

End Splitters.

Arguments _split_on_whole_table {DataFrame} _.
Arguments _split_on_column_value {DataFrame} _ _ _ _.
Arguments _split_on_multi_column_values {DataFrame} _ _ _.
Arguments split_on_each {DataFrame} _ _ _ _.

(** ** Data assets inferred from a SQL database
    ([execution_environment/data_connector/inferred_asset_sql_data_connector.py]) *)

Inductive relation_type : Type := table | view.

(** One dictionary of the list [_introspect_db] returns. *)
Record TableMetadata : Type := {
  schema_name : string;
  table_name : string;
  type : relation_type
}.

(** What the SQLAlchemy inspector of the engine answers. *)
Record Inspector : Type := {
  get_schema_names : list string;
  get_table_names : string -> list string;
  get_view_names : string -> list string
}.

Section IntrospectDb.

Variable inspector : Inspector.
Variable selected_schema_name : option string.
Variable ignore_information_schemas_and_system_tables : bool.
Variable information_schemas system_tables : list string.
Variable include_views : bool.

(** The state of the loops: the list [tables] and the loop variable
    [table_name], [None] as long as it is unbound. *)
Definition introspect_state : Type := (list TableMetadata * option string)%type.

Fixpoint table_loop (schema : string) (names : list string) (st : introspect_state)
  : introspect_state :=
  match names with
  | [] => st
  | name :: rest =>
      if ignore_information_schemas_and_system_tables
         && bool_decide (name ∈ system_tables)
      then table_loop schema rest (fst st, Some name)
      else
        table_loop schema rest
          ((fst st ++ [{| schema_name := schema; table_name := name; type := table |}])%list,
           Some name)
  end.

(** The test of the view loop reads [table_name], not [view_name]. *)
Fixpoint view_loop (schema : string) (view_names : list string) (st : introspect_state)
  : outcome introspect_state :=
  match view_names with
  | [] => inr st
  | view_name :: rest =>
      let? skip :=
        if ignore_information_schemas_and_system_tables then
          match snd st with
          | Some name => inr (bool_decide (name ∈ system_tables))
          | None => inl (UnboundLocalError "table_name")
          end
        else inr false in
      if skip : bool then view_loop schema rest st
      else
        view_loop schema rest
          ((fst st ++ [{| schema_name := schema; table_name := view_name; type := view |}])%list,
           snd st)
  end.

Fixpoint schema_loop (schemas : list string) (st : introspect_state)
  : outcome introspect_state :=
  match schemas with
  | [] => inr st
  | schema :: rest =>
      if ignore_information_schemas_and_system_tables
         && bool_decide (schema ∈ information_schemas)
      then schema_loop rest st
      else if match selected_schema_name with
              | Some selected => negb (String.eqb schema selected)
              | None => false
              end
      then schema_loop rest st
      else
        let st := table_loop schema (get_table_names inspector schema) st in
        let? st :=
          if include_views then view_loop schema (get_view_names inspector schema) st
          else inr st in
        schema_loop rest st
  end.

Definition _introspect_db : outcome (list TableMetadata) :=
  let? st := schema_loop (get_schema_names inspector) ([], None) in
  inr (fst st).

(** A schema the loop does not pass over. *)
Definition schema_admitted (schema : string) : Prop :=
  ~ (ignore_information_schemas_and_system_tables = true /\ schema ∈ information_schemas) /\
  (forall selected, selected_schema_name = Some selected -> schema = selected).

End IntrospectDb.

Section RefreshIntrospectedDataAssetsCache.

Variable data_asset_name_prefix data_asset_name_suffix : string.
Variable include_schema_name : bool.
Variable splitter_method splitter_kwargs sampling_method sampling_kwargs : option pyval.
Variable excluded_tables included_tables : option (list string).
Variable skip_inapplicable_tables : bool.

(** [_get_partition_definition_list_from_data_asset_config] is a method of
    the parent class, of another module of the package: it returns, or
    raises [OperationalError] or another exception. *)
Variable _get_partition_definition_list_from_data_asset_config :
  string -> dict -> outcome unit.

(** [metadata["schema_name"] + "." + metadata["table_name"]] *)
Definition qualified_name (metadata : TableMetadata) : string :=
  schema_name metadata ++ "." ++ table_name metadata.

Definition data_asset_name_of (metadata : TableMetadata) : string :=
  if include_schema_name
  then data_asset_name_prefix ++ schema_name metadata ++ "." ++ table_name metadata
       ++ data_asset_name_suffix
  else data_asset_name_prefix ++ table_name metadata ++ data_asset_name_suffix.

(** [if not value is None: d[key] = value] *)
Definition dict_set_unless_none (key : string) (value : option pyval) (d : dict) : dict :=
  match value with
  | Some v => dict_set key v d
  | None => d
  end.

Definition data_asset_config_of (metadata : TableMetadata) : dict :=
  dict_set_unless_none "sampling_kwargs" sampling_kwargs
    (dict_set_unless_none "sampling_method" sampling_method
       (dict_set_unless_none "splitter_kwargs" splitter_kwargs
          (dict_set_unless_none "splitter_method" splitter_method
             [("table_name", PStr (qualified_name metadata))]))).

(** The two tests that pass a table over. *)
Definition passed_over (metadata : TableMetadata) : bool :=
  match excluded_tables with
  | Some excluded => bool_decide (qualified_name metadata ∈ excluded)
  | None => false
  end
  || match included_tables with
     | Some included => negb (bool_decide (qualified_name metadata ∈ included))
     | None => false
     end.

(** The loop over the introspected tables.  The cache is updated in
    place: it is returned as it stands when the loop ends, with the
    exception that ended it, if any. *)
Fixpoint refresh_loop (introspected_table_metadata : list TableMetadata)
  (cache : gmap string dict) : gmap string dict * option exception :=
  match introspected_table_metadata with
  | [] => (cache, None)
  | metadata :: rest =>
      if passed_over metadata then refresh_loop rest cache
      else
        let data_asset_name := data_asset_name_of metadata in
        let data_asset_config := data_asset_config_of metadata in
        match _get_partition_definition_list_from_data_asset_config
                data_asset_name data_asset_config with
        | inr _ => refresh_loop rest (<[data_asset_name := data_asset_config]> cache)
        | inl OperationalError =>
            if skip_inapplicable_tables then refresh_loop rest cache
            else (cache, Some (Builtin ValueError))
        | inl e => (cache, Some e)
        end
  end.

(** [_refresh_introspected_data_assets_cache], on the list
    [_introspect_db] returned. *)
Definition _refresh_introspected_data_assets_cache
  (introspected_table_metadata : outcome (list TableMetadata))
  (cache : gmap string dict) : gmap string dict * option exception :=
  match introspected_table_metadata with
  | inr l => refresh_loop l cache
  | inl e => (cache, Some e)
  end.

(** A table the loop stores: not passed over, and one whose partition
    definitions can be listed. *)
Definition stored (metadata : TableMetadata) : bool :=
  negb (passed_over metadata)
  && match _get_partition_definition_list_from_data_asset_config
             (data_asset_name_of metadata) (data_asset_config_of metadata) with
     | inr _ => true
     | inl _ => false
     end.

End RefreshIntrospectedDataAssetsCache.

(** ** Vocabulary of the properties *)

(** The [result] dictionary as it stands when each tier returns. *)
Definition basic_result (n ec : Z) (nn uc : option Z)
  (ps : option spec_float * option spec_float * option spec_float)
  (ul : list uval) : dict :=
  let r :=
    [("element_count", PInt ec);
     ("unexpected_count", pyval_of_int uc);
     ("unexpected_percent", pyval_of_float (fst (fst ps)));
     ("partial_unexpected_list", PList (List.map pyval_of_uval (slice_to n ul)))] in
  match nn with
  | None => r
  | Some nnv =>
      dict_set "unexpected_percent_nonmissing" (pyval_of_float (snd ps))
        (dict_set "missing_percent" (pyval_of_float (snd (fst ps)))
           (dict_set "missing_count" (PInt (ec - nnv)) r))
  end.

(** The counts field: the entries of the sorted most common items, or the
    placeholder when they cannot be had. *)
Definition counts_value (n : Z) (ul : list uval) : pyval :=
  match sorted_most_common n ul with
  | Ret s => PList (List.map count_entry s)
  | Raise _ => counts_placeholder
  end.

Definition summary_result (n : Z) (ul : list uval) (il : option (list uval))
  (r : dict) : dict :=
  if 0 <? n then
    dict_update r
      [("partial_unexpected_index_list",
        match il with
        | Some l => PList (List.map pyval_of_uval (slice_to n l))
        | None => PNone
        end);
       ("partial_unexpected_counts", counts_value n ul)]
  else r.

Definition complete_result (ul : list uval) (il : option (list uval)) (r : dict)
  : dict :=
  dict_update r
    [("unexpected_list", pyval_of_list (Some ul));
     ("unexpected_index_list", pyval_of_list il)].

Definition tier_result (t : tier) (n ec : Z) (nn uc : option Z)
  (ps : option spec_float * option spec_float * option spec_float)
  (ul : list uval) (il : option (list uval)) : option dict :=
  match t with
  | BOOLEAN_ONLY => None
  | BASIC => Some (basic_result n ec nn uc ps ul)
  | SUMMARY => Some (summary_result n ul il (basic_result n ec nn uc ps ul))
  | COMPLETE =>
      Some (complete_result ul il
              (summary_result n ul il (basic_result n ec nn uc ps ul)))
  end.

(** Every entry of [d] is an entry of [d']. *)
Definition dict_le (d d' : dict) : Prop :=
  forall k v, dict_get k d = Some v -> dict_get k d' = Some v.

(** Every key of the payload [p] is a key of [q] with the same value, the
    nested [result] dictionary being compared entry by entry. *)
Definition payload_le (p q : dict) : Prop :=
  forall k v, dict_get k p = Some v ->
    exists w, dict_get k q = Some w /\
      (v = w \/ exists r r', v = PDict r /\ w = PDict r' /\ dict_le r r').

(** The [result] dictionary of a payload. *)
Definition result_of (p : dict) : option dict :=
  match dict_get "result" p with
  | Some (PDict r) => Some r
  | _ => None
  end.

(** The floats Python reads [0.9] and [0.8] as. *)
Definition float_0_9 : spec_float := S754_finite false 8106479329266893 (-53).
Definition float_0_8 : spec_float := S754_finite false 7205759403792794 (-53).


(** How often [v] occurs in [l]. *)
Definition occurrences (l : list uval) (v : uval) : nat :=
  count_occ uval_eq_dec l v.

(** Where [v] first occurs in [l] ([length l] when it does not). *)
Fixpoint first_index (v : uval) (l : list uval) : nat :=
  match l with
  | [] => 0%nat
  | x :: l' => if bool_decide (x = v) then 0%nat else S (first_index v l')
  end.

(** The order [most_common] selects in: by decreasing number of
    occurrences, and among equally frequent values the one met first. *)
Definition ranks_before (l : list uval) (v w : uval) : Prop :=
  (occurrences l w < occurrences l v)%nat \/
  (occurrences l v = occurrences l w /\ (first_index v l < first_index w l)%nat).

(** [x < y] holds. *)
Definition value_lt (x y : uval) : Prop := uval_lt x y = Ret true.


Definition is_int (x : uval) : Prop := exists z, x = UInt z.
Definition is_str (x : uval) : Prop := exists s, x = UStr s.

(** Two values that [<] orders: two integers, or two strings. *)
Definition comparable (v w : uval) : Prop :=
  (is_int v /\ is_int w) \/ (is_str v /\ is_str w).

#[global] Instance ranks_before_dec (l : list uval) (v w : uval) :
  Decision (ranks_before l v w).
Proof. unfold ranks_before. apply _. Defined.

(** [v] is one of the [n] most common values of [l]: it occurs in [l]
    and fewer than [n] values of [l] rank before it. *)
Definition among_most_common (n : Z) (l : list uval) (v : uval) : Prop :=
  v ∈ l /\
  (length (filter (fun w => ranks_before l w v) (remove_dups l)) < Z.to_nat n)%nat.

(** Among the [n] most common values of [l], those that occur equally
    often are ordered by [<]. *)
Definition ties_comparable (n : Z) (l : list uval) : Prop :=
  forall v w, among_most_common n l v -> among_most_common n l w -> v <> w ->
    occurrences l v = occurrences l w -> comparable v w.

(** A count or a list of values as a value of any type. *)
Definition uval_of_count (o : option Z) : uval :=
  match o with
  | Some z => UInt z
  | None => UNone
  end.

Definition uval_of_values (o : option (list uval)) : uval :=
  match o with
  | Some l => UList l
  | None => UNone
  end.

(** The resolved metrics hold the count [o] under [k]: that integer, or
    nothing ([None], or no such key). *)
Definition count_is (metrics : kwargs) (k : string) (o : option Z) : Prop :=
  match o with
  | Some z => metrics !! k = Some (UInt z)
  | None => metrics !! k = None \/ metrics !! k = Some UNone
  end.

(** The resolved metrics hold the list of values [o] under [k], or
    nothing. *)
Definition values_are (metrics : kwargs) (k : string) (o : option (list uval)) : Prop :=
  match o with
  | Some l => metrics !! k = Some (UList l)
  | None => metrics !! k = None \/ metrics !! k = Some UNone
  end.

(** The count the formatter is given as [nonnull_count]. *)
Definition nonnull_of (total_count null_count : option Z) : option Z :=
  match total_count, null_count with
  | Some tc, Some nc => Some (tc - nc)
  | _, _ => None
  end.

(** *** Vocabulary of the further properties *)

(** The names of the metrics a map expectation asks for, in the order
    [get_validation_dependencies] adds them. *)
Definition map_metric_names (c : map_class) (map_metric result_format_str : string)
  (execution_engine : engine_kind) : list string :=
  let counts :=
    ["column_values.nonnull.unexpected_count"; map_metric ++ ".unexpected_count"] in
  let complete :=
    (map_metric ++ ".unexpected_rows") ::
    match execution_engine with
    | PandasExecutionEngine => [map_metric ++ ".unexpected_index_list"]
    | OtherExecutionEngine => []
    end in
  let above_boolean_only :=
    (map_metric ++ ".unexpected_values") ::
    (if String.eqb result_format_str "BASIC" || String.eqb result_format_str "SUMMARY"
     then [] else complete) in
  match c with
  | ColumnMap =>
      (counts ++ "table.row_count" ::
       (if String.eqb result_format_str "BOOLEAN_ONLY" then [] else above_boolean_only))%list
  | ColumnPairMap =>
      (counts ++
       (if String.eqb result_format_str "BOOLEAN_ONLY" then []
        else "table.row_count" :: above_boolean_only))%list
  end.

(** The resolved metrics [metrics] are of the expected kinds and hold
    what [d] asks for: under each of the three counts an integer or
    nothing, under the unexpected values and under their index list a list
    or nothing, and not nothing where [d] has the metric. *)
Definition metrics_provided (d : Dependencies) (map_metric : string) (metrics : kwargs)
  : Prop :=
  (forall k,
     k = "table.row_count" \/ k = "column_values.nonnull.unexpected_count" \/
     k = map_metric ++ ".unexpected_count" ->
     exists o, count_is metrics k o /\ (is_Some (dep_metrics d !! k) -> is_Some o)) /\
  (forall k,
     k = map_metric ++ ".unexpected_values" \/ k = map_metric ++ ".unexpected_index_list" ->
     exists o, values_are metrics k o /\ (is_Some (dep_metrics d !! k) -> is_Some o)).

(** ['mostly'], when it is among the kwargs, is a number between 0 and 1. *)
Definition mostly_ok (kw : gmap string pyval) : Prop :=
  forall v, kw !! "mostly" = Some v ->
    exists m, number_of v = Some m /\ in_unit_interval m = true.

(** [None] or a number. *)
Definition none_or_number (v : pyval) : Prop :=
  v = PNone \/ is_Some (number_of v).

(** * Properties *)

(** ** Results *)

Lemma is_ret_returns {A : Type} (m : res A) : is_ret m = true -> returns m.
Proof. destruct m as [a|e]; [eexists; reflexivity|discriminate]. Qed.

(** ** Dictionaries *)

Lemma dict_get_set (k k' : string) (v : pyval) (d : dict) :
  dict_get k (dict_set k' v d) = if String.eqb k k' then Some v else dict_get k d.
Proof.
  induction d as [|[k0 v0] d IH]; simpl.
  - reflexivity.
  - destruct (String.eqb k' k0) eqn:E0; simpl.
    + apply String.eqb_eq in E0. subst k0.
      destruct (String.eqb k k'); reflexivity.
    + rewrite IH. destruct (String.eqb k k0) eqn:E1; [|reflexivity].
      apply String.eqb_eq in E1. subst k0.
      rewrite String.eqb_sym in E0. rewrite E0. reflexivity.
Qed.

(** Setting a key that was absent leaves every entry as it was. *)
Lemma dict_set_fresh (k : string) (v : pyval) (d : dict) (k0 : string) (v0 : pyval) :
  dict_get k d = None -> dict_get k0 d = Some v0 ->
  dict_get k0 (dict_set k v d) = Some v0.
Proof.
  intros Hk H0. rewrite dict_get_set.
  destruct (String.eqb k0 k) eqn:E; [|exact H0].
  apply String.eqb_eq in E. subst k0. congruence.
Qed.

Lemma format_boolean_only (n : Z) success ec nn uc ul il :
  _format_map_output (at_tier BOOLEAN_ONLY n) success ec nn uc ul il
  = Ret [("success", pyval_of_bool success)].
Proof. reflexivity. Qed.

(** ** The only exception of the counts is the one caught *)

Lemma uval_nested_ind (P : uval -> Prop) :
  P UNone -> (forall z, P (UInt z)) -> (forall s, P (UStr s)) ->
  (forall l, Forall P l -> P (UList l)) ->
  forall x, P x.
Proof.
  intros HNone HInt HStr HList.
  fix ind 1. intros [| z | s | l].
  - exact HNone.
  - apply HInt.
  - apply HStr.
  - apply HList. induction l as [|a l IH]; constructor; [apply ind|exact IH].
Qed.

Lemma uval_lt_raises (x y : uval) (e : exn) : uval_lt x y = Raise e -> e = TypeError.
Proof.
  revert y. induction x as [| z | s | l IH] using uval_nested_ind; intros y;
    destruct y as [| z' | s' | l']; simpl;
    try discriminate; try (intros H; inversion H; reflexivity).
  revert l'. induction IH as [|a l Ha _ IHl]; intros l'.
  - destruct l'; discriminate.
  - destruct l' as [|b l']; [discriminate|].
    destruct (bool_decide (a = b)); [apply IHl|apply Ha].
Qed.

Lemma insert_by_raises {A : Type} (before : A -> A -> res bool) (x : A) (l : list A)
  (e : exn) :
  (forall a b e', before a b = Raise e' -> e' = TypeError) ->
  insert_by before x l = Raise e -> e = TypeError.
Proof.
  intros Hb. induction l as [|y l IH]; simpl; [discriminate|].
  destruct (before y x) as [b|e'] eqn:E; simpl.
  - destruct b; [|discriminate].
    destruct (insert_by before x l); simpl; [discriminate|].
    intros H. inversion H; subst. apply IH. reflexivity.
  - intros H. inversion H; subst. exact (Hb _ _ _ E).
Qed.

Lemma sorted_by_raises {A : Type} (before : A -> A -> res bool) (l : list A) (e : exn) :
  (forall a b e', before a b = Raise e' -> e' = TypeError) ->
  sorted_by before l = Raise e -> e = TypeError.
Proof.
  intros Hb. induction l as [|x l IH]; simpl; [discriminate|].
  destruct (sorted_by before l) as [s|e'] eqn:E; simpl.
  - apply insert_by_raises, Hb.
  - intros H. inversion H; subst. apply IH. reflexivity.
Qed.

Lemma sorted_most_common_raises (n : Z) (l : list uval) (e : exn) :
  sorted_most_common n l = Raise e -> e = TypeError.
Proof.
  unfold sorted_most_common, Counter, most_common.
  destruct (forallb hashable l); simpl; [|intros H; inversion H; reflexivity].
  destruct (sorted_by count_before (counter_items l)) as [s|e'] eqn:E; simpl.
  - apply sorted_by_raises. intros a b e' H. unfold key_before in H.
    destruct (negb _); [discriminate|].
    destruct (bool_decide _); [discriminate|]. exact (uval_lt_raises _ _ _ H).
  - intros H. inversion H; subst.
    apply (sorted_by_raises count_before _ _ ltac:(discriminate) E).
Qed.

(** The counts are always had: the [except] clause takes every exception
    of the [try] block. *)
Lemma partial_unexpected_counts_returns (n : Z) (l : list uval) :
  partial_unexpected_counts_of n l = Ret (counts_value n l).
Proof.
  unfold partial_unexpected_counts_of, counts_value.
  destruct (sorted_most_common n l) as [s|e] eqn:E; [reflexivity|].
  rewrite (sorted_most_common_raises _ _ _ E). reflexivity.
Qed.

(** ** The formatter, tier by tier *)

Lemma format_shape (t : tier) (n : Z) success ec nn uc ul il :
  _format_map_output (at_tier t n) success ec nn uc ul il =
  match t with
  | BOOLEAN_ONLY => Ret (return_obj success None)
  | _ =>
      let! e := int_operand ec in
      let! ps := percents e nn uc (option_map (fun x => e - x) nn) in
      let! l := list_operand ul in
      Ret (return_obj success (tier_result t n e nn uc ps l il))
  end.
Proof.
  destruct t; [reflexivity|..];
    unfold _format_map_output; simpl;
    destruct ec as [e|]; destruct nn as [nnv|]; simpl; try reflexivity;
    destruct (percents _ _ _ _) as [[[up mp] upn]|]; simpl; try reflexivity;
    destruct ul as [l|]; simpl; try reflexivity;
    unfold complete_result, summary_result;
    rewrite ?partial_unexpected_counts_returns; destruct (0 <? n); reflexivity.
Qed.

Lemma format_unknown (rf : ResultFormat) success ec nn uc ul il :
  (forall t, result_format rf <> tier_name t) ->
  _format_map_output rf success ec nn uc ul il =
  let! e := int_operand ec in
  let! ps := percents e nn uc (option_map (fun x => e - x) nn) in
  let! l := list_operand ul in
  Raise ValueError.
Proof.
  intros H. unfold _format_map_output.
  pose proof (H BOOLEAN_ONLY) as H0. pose proof (H BASIC) as H1.
  pose proof (H SUMMARY) as H2. pose proof (H COMPLETE) as H3.
  apply String.eqb_neq in H0, H1, H2, H3. simpl in H0, H1, H2, H3.
  rewrite H0.
  destruct ec as [e|]; destruct nn as [nnv|]; simpl; try reflexivity;
    destruct (percents _ _ _ _) as [[[up mp] upn]|]; simpl; try reflexivity;
    destruct ul as [l|]; simpl; try reflexivity;
    rewrite H1, ?partial_unexpected_counts_returns;
    destruct (0 <? partial_unexpected_count rf); simpl; rewrite H2, H3; reflexivity.
Qed.

Lemma dict_le_refl (d : dict) : dict_le d d.
Proof. intros k v H. exact H. Qed.

Lemma dict_le_trans (d1 d2 d3 : dict) : dict_le d1 d2 -> dict_le d2 d3 -> dict_le d1 d3.
Proof. intros H12 H23 k v H. apply H23, H12, H. Qed.

Lemma dict_le_set_fresh (k : string) (v : pyval) (d : dict) :
  dict_get k d = None -> dict_le d (dict_set k v d).
Proof. intros Hk k0 v0 H0. apply dict_set_fresh; assumption. Qed.

(** None of the keys the higher tiers add is a key of the BASIC result. *)
Lemma basic_result_fresh n ec nn uc ps ul (k : string) :
  In k ["partial_unexpected_index_list"; "partial_unexpected_counts";
        "unexpected_list"; "unexpected_index_list"] ->
  dict_get k (basic_result n ec nn uc ps ul) = None.
Proof.
  intros Hk. unfold basic_result.
  destruct nn; simpl in Hk;
    repeat (destruct Hk as [<-|Hk]; [reflexivity|]); destruct Hk.
Qed.

Lemma summary_result_fresh n ul il (r : dict) (k : string) :
  dict_get k r = None ->
  k <> "partial_unexpected_index_list" -> k <> "partial_unexpected_counts" ->
  dict_get k (summary_result n ul il r) = None.
Proof.
  intros Hr H1 H2. unfold summary_result, dict_update.
  destruct (0 <? n); [|exact Hr]. simpl.
  rewrite !dict_get_set.
  apply String.eqb_neq in H1, H2. rewrite H1, H2. exact Hr.
Qed.

Lemma basic_le_summary n ec nn uc ps ul il :
  dict_le (basic_result n ec nn uc ps ul)
          (summary_result n ul il (basic_result n ec nn uc ps ul)).
Proof.
  unfold summary_result, dict_update. destruct (0 <? n); [|apply dict_le_refl].
  simpl. eapply dict_le_trans; apply dict_le_set_fresh.
  - apply basic_result_fresh. simpl. auto.
  - rewrite dict_get_set. simpl. apply basic_result_fresh. simpl. auto.
Qed.

Lemma summary_le_complete n ec nn uc ps ul il :
  dict_le (summary_result n ul il (basic_result n ec nn uc ps ul))
          (complete_result ul il (summary_result n ul il (basic_result n ec nn uc ps ul))).
Proof.
  unfold complete_result, dict_update. simpl.
  eapply dict_le_trans; apply dict_le_set_fresh.
  - apply summary_result_fresh; [|discriminate..].
    apply basic_result_fresh. simpl. auto.
  - rewrite dict_get_set. simpl.
    apply summary_result_fresh; [|discriminate..].
    apply basic_result_fresh. simpl. auto.
Qed.

Lemma tier_result_le (t1 t2 : tier) n ec nn uc ps ul il :
  (tier_rank t1 <= tier_rank t2)%nat ->
  match tier_result t1 n ec nn uc ps ul il, tier_result t2 n ec nn uc ps ul il with
  | Some r, Some r' => dict_le r r'
  | None, _ => True
  | Some _, None => False
  end.
Proof.
  destruct t1, t2; simpl; intros H; try exact I; try lia;
    try apply dict_le_refl; try apply basic_le_summary; try apply summary_le_complete.
  eapply dict_le_trans; [apply basic_le_summary|apply summary_le_complete].
Qed.

Lemma return_obj_le success (o o' : option dict) :
  match o, o' with
  | Some r, Some r' => dict_le r r'
  | None, _ => True
  | Some _, None => False
  end ->
  payload_le (return_obj success o) (return_obj success o').
Proof.
  intros H k v Hk. unfold return_obj in *.
  destruct o as [r|], o' as [r'|]; try contradiction; simpl in *.
  - destruct (String.eqb k "success"); [eauto|].
    destruct (String.eqb k "result"); [|discriminate].
    inversion Hk; subst v. eexists; split; [reflexivity|]. right. eauto.
  - destruct (String.eqb k "success"); [eauto|discriminate].
  - destruct (String.eqb k "success"); [eauto|discriminate].
Qed.

(** What it takes for a tier above BOOLEAN_ONLY to return. *)
Lemma format_returns_inv (t : tier) (n : Z) success ec nn uc ul il (p : dict) :
  t <> BOOLEAN_ONLY ->
  _format_map_output (at_tier t n) success ec nn uc ul il = Ret p ->
  exists e ps l,
    ec = Some e /\ ul = Some l /\
    percents e nn uc (option_map (fun x => e - x) nn) = Ret ps /\
    p = return_obj success (tier_result t n e nn uc ps l il).
Proof.
  intros Ht H. rewrite format_shape in H.
  destruct t; [congruence|..];
    (destruct ec as [e|]; [|discriminate]);
    (destruct ul as [l|];
       [|simpl in H; destruct (percents _ _ _ _); discriminate]);
    simpl in H;
    (destruct (percents e nn uc (option_map (fun x => e - x) nn)) as [ps|] eqn:Ep;
       [|discriminate]);
    simpl in H; inversion H; exists e, ps, l; repeat split; assumption || reflexivity.
Qed.

Lemma format_returns_intro (t : tier) (n : Z) success e nn uc ps l il :
  percents e nn uc (option_map (fun x => e - x) nn) = Ret ps ->
  _format_map_output (at_tier t n) success (Some e) nn uc (Some l) il
  = Ret (return_obj success (tier_result t n e nn uc ps l il)).
Proof.
  intros Ep. rewrite format_shape. destruct t; simpl; try reflexivity;
    rewrite Ep; reflexivity.
Qed.

(** C4: for fixed raw inputs and a fixed limit, the payloads of the tiers
    BOOLEAN_ONLY, BASIC, SUMMARY and COMPLETE form an increasing chain.
    Whenever a tier returns a payload, every lower tier returns one too,
    and every key of the lower payload is a key of the higher one with the
    same value; from BASIC upwards a higher tier returns whenever a lower
    one does. *)
Theorem format_tiers_increasing (t1 t2 : tier) (n : Z) success ec nn uc ul il :
  (tier_rank t1 <= tier_rank t2)%nat ->
  (forall q, _format_map_output (at_tier t2 n) success ec nn uc ul il = Ret q ->
     exists p, _format_map_output (at_tier t1 n) success ec nn uc ul il = Ret p /\
               payload_le p q) /\
  (t1 <> BOOLEAN_ONLY ->
   returns (_format_map_output (at_tier t1 n) success ec nn uc ul il) ->
   returns (_format_map_output (at_tier t2 n) success ec nn uc ul il)).
Proof.
  intros Hrank. split.
  - intros q Hq.
    destruct (decide (t2 = BOOLEAN_ONLY)) as [->|H2].
    + assert (t1 = BOOLEAN_ONLY) as -> by (destruct t1; simpl in Hrank; [reflexivity|lia..]).
      exists q. split; [exact Hq|].
      intros k v Hk. exists v. auto.
    + destruct (format_returns_inv _ _ _ _ _ _ _ _ _ H2 Hq)
        as (e & ps & l & -> & -> & Ep & ->).
      exists (return_obj success (tier_result t1 n e nn uc ps l il)). split.
      * apply format_returns_intro, Ep.
      * apply return_obj_le, tier_result_le, Hrank.
  - intros H1 [p Hp].
    destruct (format_returns_inv _ _ _ _ _ _ _ _ _ H1 Hp)
      as (e & ps & l & -> & -> & Ep & ->).
    eexists. apply format_returns_intro, Ep.
Qed.

Lemma format_tiers_increasing_witness :
  (tier_rank BASIC <= tier_rank COMPLETE)%nat /\
  exists q,
    _format_map_output (at_tier COMPLETE 2) (Some false) (Some 10) (Some 8)
      (Some 3) (Some [UStr "a"; UStr "a"; UStr "b"]) None = Ret q /\
    exists p,
      _format_map_output (at_tier BASIC 2) (Some false) (Some 10) (Some 8)
        (Some 3) (Some [UStr "a"; UStr "a"; UStr "b"]) None = Ret p /\
      payload_le p q.
Proof.
  split; [simpl; lia|].
  eexists. split; [vm_compute; reflexivity|].
  apply (format_tiers_increasing BASIC COMPLETE); [simpl; lia|].
  vm_compute. reflexivity.
Defined.

(** C8: a result format that is none of BOOLEAN_ONLY, BASIC, SUMMARY and
    COMPLETE makes the formatter raise, whatever the other inputs are: no
    payload is returned and no tier is taken as a default.  Where the
    inputs are such that the BASIC tier returns, the exception is the
    [ValueError] of the last line. *)
Theorem format_unknown_result_format_raises (rf : ResultFormat) success ec nn uc ul il :
  (forall t, result_format rf <> tier_name t) ->
  raises (_format_map_output rf success ec nn uc ul il) /\
  (returns (_format_map_output (at_tier BASIC (partial_unexpected_count rf))
              success ec nn uc ul il) ->
   _format_map_output rf success ec nn uc ul il = Raise ValueError).
Proof.
  intros H. rewrite (format_unknown _ _ _ _ _ _ _ H). split.
  - destruct (int_operand ec) as [e|x]; simpl; [|eexists; reflexivity].
    destruct (percents _ _ _ _) as [ps|x]; simpl; [|eexists; reflexivity].
    destruct (list_operand ul) as [l|x]; simpl; eexists; reflexivity.
  - intros [p Hp].
    destruct (format_returns_inv BASIC _ _ _ _ _ _ _ _ ltac:(discriminate) Hp)
      as (e & ps & l & -> & -> & Ep & _).
    simpl. rewrite Ep. reflexivity.
Qed.

Lemma format_unknown_result_format_raises_witness :
  (forall t, "VERBOSE" <> tier_name t) /\
  raises (_format_map_output
            {| result_format := "VERBOSE"; partial_unexpected_count := 20 |}
            (Some true) (Some 4) (Some 4) (Some 0) (Some []) None).
Proof.
  split; [intros []; discriminate|].
  apply (format_unknown_result_format_raises
           {| result_format := "VERBOSE"; partial_unexpected_count := 20 |}).
  intros []; discriminate.
Defined.

Lemma percents_nonpositive e nn uc mc :
  e <= 0 -> percents e nn uc mc = Ret (None, None, None).
Proof.
  intros He. unfold percents.
  destruct (0 <? e) eqn:E; [apply Z.ltb_lt in E; lia|reflexivity].
Qed.

Lemma result_of_return_obj success (r : dict) :
  result_of (return_obj success (Some r)) = Some r.
Proof. reflexivity. Qed.

(** The entries of the BASIC result are entries of every tier above. *)
Lemma tier_result_basic (t : tier) n ec nn uc ps ul il :
  t <> BOOLEAN_ONLY ->
  exists r, tier_result t n ec nn uc ps ul il = Some r /\
            dict_le (basic_result n ec nn uc ps ul) r.
Proof.
  intros Ht.
  pose proof (tier_result_le BASIC t n ec nn uc ps ul il) as H.
  destruct t; [congruence|..]; simpl in *; eexists; (split; [reflexivity|]);
    apply H; lia.
Qed.

(** The two fields on missing values are in no tier's result when the
    null count is unknown. *)
Lemma tier_result_skip_missing (t : tier) n ec uc ps ul il r (k : string) :
  tier_result t n ec None uc ps ul il = Some r ->
  k = "missing_percent" \/ k = "unexpected_percent_nonmissing" ->
  dict_get k r = None.
Proof.
  intros Hr Hk.
  assert (dict_get k (basic_result n ec None uc ps ul) = None) as Hb
    by (destruct Hk as [-> | ->]; reflexivity).
  assert (dict_get k (summary_result n ul il (basic_result n ec None uc ps ul)) = None) as Hs
    by (apply summary_result_fresh; [exact Hb|destruct Hk as [-> | ->]; discriminate..]).
  destruct t; simpl in Hr; inversion Hr; subst r; try assumption.
  unfold complete_result, dict_update. simpl. rewrite !dict_get_set.
  destruct Hk as [-> | ->]; simpl; exact Hs.
Qed.

(** C9: at BASIC tier or higher with [element_count == 0] the three
    percentages are set to [None] and no division error is raised; the
    unexpected values being a list, the payload is returned with
    [unexpected_percent], [missing_percent] and
    [unexpected_percent_nonmissing] null (the last two are fields of the
    payload when the null count is known and are left out otherwise).
    For [element_count > 0] the payload's [unexpected_percent] is
    [unexpected_count / element_count * 100]: the binary64 product of the
    correctly rounded quotient and of 100.0, the float of mantissa
    [7036874417766400] and exponent [-46]; and the payload is returned
    whenever the quotients taken are in the range of a float. *)
Theorem format_percent_guard (t : tier) (n : Z) success nn uc ul il :
  t <> BOOLEAN_ONLY ->
  ((forall mc, percents 0 nn uc mc = Ret (None, None, None)) /\
   _format_map_output (at_tier t n) success (Some 0) nn uc ul il
     <> Raise ZeroDivisionError /\
   forall l, ul = Some l ->
     exists p r,
       _format_map_output (at_tier t n) success (Some 0) nn uc ul il = Ret p /\
       result_of p = Some r /\
       dict_get "unexpected_percent" r = Some PNone /\
       match nn with
       | Some _ =>
           dict_get "missing_percent" r = Some PNone /\
           dict_get "unexpected_percent_nonmissing" r = Some PNone
       | None =>
           dict_get "missing_percent" r = None /\
           dict_get "unexpected_percent_nonmissing" r = None
       end) /\
  (forall ec p, 0 < ec ->
     _format_map_output (at_tier t n) success (Some ec) nn uc ul il = Ret p ->
     exists u q r,
       uc = Some u /\ int_truediv u ec = Ret q /\ result_of p = Some r /\
       dict_get "unexpected_percent" r
       = Some (PFloat (SFmul 53 1024 q (S754_finite false 7036874417766400 (-46))))) /\
  (forall ec u l, 0 < ec -> uc = Some u -> ul = Some l ->
     returns (int_truediv u ec) ->
     match nn with
     | Some nnv =>
         returns (int_truediv (ec - nnv) ec) /\
         (0 < nnv -> returns (int_truediv u nnv))
     | None => True
     end ->
     returns (_format_map_output (at_tier t n) success (Some ec) nn uc ul il)).
Proof.
  intros Ht. split; [split; [|split]|split].
  - intros mc. apply percents_nonpositive. lia.
  - rewrite format_shape. destruct t; [congruence|..]; simpl;
      destruct ul; simpl; discriminate.
  - intros l ->.
    destruct (tier_result_basic t n 0 nn uc (None, None, None) l il Ht) as (r & Hr & Hle).
    exists (return_obj success (Some r)), r. split; [|split; [|split]].
    + rewrite <- Hr. apply format_returns_intro, percents_nonpositive. lia.
    + reflexivity.
    + apply Hle. unfold basic_result. destruct nn; reflexivity.
    + destruct nn as [nnv|].
      * split; apply Hle; reflexivity.
      * split; eapply tier_result_skip_missing; eauto.
  - intros ec p Hec Hp.
    destruct (format_returns_inv _ _ _ _ _ _ _ _ _ Ht Hp)
      as (e & ps & l & [= <-] & -> & Ep & ->).
    unfold percents in Ep.
    destruct (0 <? ec) eqn:E; [|apply Z.ltb_ge in E; lia].
    destruct uc as [u|]; [|discriminate]. simpl in Ep.
    unfold percent in Ep at 1.
    destruct (int_truediv u ec) as [q|] eqn:Eq; [|discriminate]. simpl in Ep.
    destruct (tier_result_basic t n ec nn (Some u) ps l il Ht) as (r & Hr & Hle).
    exists u, q, r. split; [reflexivity|]. split; [exact Eq|]. split.
    + rewrite Hr. reflexivity.
    + apply Hle.
      change (SFmul 53 1024 q (S754_finite false 7036874417766400 (-46)))
        with (float_mul_100 q).
      assert (fst (fst ps) = Some (float_mul_100 q)) as Hps.
      { destruct nn as [nnv|]; simpl in Ep.
        - destruct (percent (ec - nnv) ec); [|discriminate]. simpl in Ep.
          destruct (0 <? nnv).
          + destruct (percent u nnv); [|discriminate]. simpl in Ep.
            inversion Ep. reflexivity.
          + inversion Ep. reflexivity.
        - inversion Ep. reflexivity. }
      unfold basic_result. rewrite Hps. destruct nn; reflexivity.
  - intros ec u l Hec -> -> [q Hq] Hnn.
    assert (returns (percents ec nn (Some u) (option_map (fun x => ec - x) nn)))
      as [ps Hps].
    { unfold percents. apply Z.ltb_lt in Hec. rewrite Hec. simpl.
      unfold percent at 1. rewrite Hq. simpl.
      destruct nn as [nnv|]; simpl; [|eexists; reflexivity].
      destruct Hnn as [[q1 Hq1] Hq2]. unfold percent at 1. rewrite Hq1. simpl.
      destruct (0 <? nnv) eqn:E; [|eexists; reflexivity].
      apply Z.ltb_lt in E. destruct (Hq2 E) as [q2 Hq2'].
      unfold percent. rewrite Hq2'. simpl. eexists; reflexivity. }
    eexists. apply format_returns_intro, Hps.
Qed.

Lemma format_percent_guard_witness :
  SUMMARY <> BOOLEAN_ONLY /\ 0 < 10 /\
  exists p r,
    _format_map_output (at_tier SUMMARY 2) (Some false) (Some 10) (Some 8)
      (Some 3) (Some [UStr "a"; UStr "a"; UStr "b"]) None = Ret p /\
    result_of p = Some r /\
    dict_get "unexpected_percent" r
    = Some (PFloat (S754_finite false 8444249301319680 (-48))).
Proof.
  split; [discriminate|]. split; [lia|].
  assert (exists p,
            _format_map_output (at_tier SUMMARY 2) (Some false) (Some 10) (Some 8)
              (Some 3) (Some [UStr "a"; UStr "a"; UStr "b"]) None = Ret p) as [p Hp]
    by (eexists; vm_compute; reflexivity).
  destruct (proj1 (proj2 (format_percent_guard SUMMARY 2 (Some false) (Some 8) (Some 3)
                            (Some [UStr "a"; UStr "a"; UStr "b"]) None
                            ltac:(discriminate))) 10 p ltac:(lia) Hp)
    as (u & q & r & Hu & Hq & Hr & Hpercent).
  exists p, r. split; [exact Hp|]. split; [exact Hr|].
  injection Hu as <-. vm_compute in Hq. injection Hq as <-.
  rewrite Hpercent. vm_compute. reflexivity.
Defined.

(** 3 unexpected values among 10 elements are 30.0 percent. *)
Example unexpected_percent_3_of_10 :
  percent 3 10 = Ret (S754_finite false 8444249301319680 (-48)) /\
  float_of_int 30 = S754_finite false 8444249301319680 (-48).
Proof. split; vm_compute; reflexivity. Qed.

(** C10: with a limit of 0 the SUMMARY and COMPLETE payloads have neither
    [partial_unexpected_counts] nor [partial_unexpected_index_list] (the
    SUMMARY payload is then the BASIC one), whereas with a positive limit
    both payloads have both keys. *)
Theorem format_zero_limit_omits_partial_counts (t : tier) success ec nn uc ul il :
  t = SUMMARY \/ t = COMPLETE ->
  (forall p,
     _format_map_output (at_tier t 0) success ec nn uc ul il = Ret p ->
     exists r, result_of p = Some r /\
               dict_get "partial_unexpected_counts" r = None /\
               dict_get "partial_unexpected_index_list" r = None) /\
  _format_map_output (at_tier SUMMARY 0) success ec nn uc ul il
  = _format_map_output (at_tier BASIC 0) success ec nn uc ul il /\
  (forall n p, 0 < n ->
     _format_map_output (at_tier t n) success ec nn uc ul il = Ret p ->
     exists r, result_of p = Some r /\
               is_Some (dict_get "partial_unexpected_counts" r) /\
               is_Some (dict_get "partial_unexpected_index_list" r)).
Proof.
  intros Ht.
  assert (t <> BOOLEAN_ONLY) as Hne by (destruct Ht as [-> | ->]; discriminate).
  split; [|split].
  - intros p Hp.
    destruct (format_returns_inv _ _ _ _ _ _ _ _ _ Hne Hp)
      as (e & ps & l & -> & -> & Ep & ->).
    assert (forall k, k = "partial_unexpected_counts" \/ k = "partial_unexpected_index_list" ->
                      dict_get k (basic_result 0 e nn uc ps l) = None) as Hb.
    { intros k [-> | ->]; apply basic_result_fresh; simpl; auto. }
    destruct Ht as [-> | ->]; simpl; eexists; (split; [reflexivity|]).
    + split; apply Hb; auto.
    + unfold complete_result, dict_update, summary_result. simpl.
      rewrite !dict_get_set. simpl. split; apply Hb; auto.
  - rewrite !format_shape. reflexivity.
  - intros n p Hn Hp.
    destruct (format_returns_inv _ _ _ _ _ _ _ _ _ Hne Hp)
      as (e & ps & l & -> & -> & Ep & ->).
    apply Z.ltb_lt in Hn.
    destruct Ht as [-> | ->]; simpl; eexists; (split; [reflexivity|]);
      unfold complete_result, summary_result, dict_update; rewrite Hn; simpl;
      rewrite !dict_get_set; simpl; split; eexists; reflexivity.
Qed.

Lemma format_zero_limit_omits_partial_counts_witness :
  (SUMMARY = SUMMARY \/ SUMMARY = COMPLETE) /\
  exists p,
    _format_map_output (at_tier SUMMARY 0) (Some false) (Some 10) (Some 8)
      (Some 3) (Some [UStr "a"; UStr "a"; UStr "b"]) (Some [UInt 0; UInt 4; UInt 7]) = Ret p /\
    exists r, result_of p = Some r /\
              dict_get "partial_unexpected_counts" r = None /\
              dict_get "partial_unexpected_index_list" r = None.
Proof.
  split; [left; reflexivity|].
  eexists. split; [vm_compute; reflexivity|].
  apply (proj1 (format_zero_limit_omits_partial_counts SUMMARY (Some false) (Some 10)
                  (Some 8) (Some 3) (Some [UStr "a"; UStr "a"; UStr "b"])
                  (Some [UInt 0; UInt 4; UInt 7]) (or_introl eq_refl))).
  vm_compute. reflexivity.
Defined.

(** ** The formatter on arguments of any type *)

Lemma percents_untyped_typed (e : Z) (nn uc : option Z) :
  percents_untyped (UInt e) (uval_of_count nn) (uval_of_count uc)
    (uval_of_count (option_map (fun x => e - x) nn)) (is_None (uval_of_count nn))
  = percents e nn uc (option_map (fun x => e - x) nn).
Proof.
  unfold percents_untyped, percents. cbn [uval_lt bind].
  destruct (0 <? e); [|reflexivity].
  destruct uc as [u|]; [|reflexivity]. cbn [uval_of_count uval_truediv int_operand bind].
  unfold percent. destruct (int_truediv u e) as [q|x]; [|reflexivity]. cbn [bind].
  destruct nn as [nnv|]; [|reflexivity].
  cbn [uval_of_count option_map is_None uval_truediv uval_lt bind].
  destruct (int_truediv (e - nnv) e) as [q1|x]; [|reflexivity]. cbn [bind].
  destruct (0 <? nnv); [|reflexivity].
  destruct (int_truediv u nnv) as [q2|x]; reflexivity.
Qed.

(** On counts and lists the formatter on arguments of any type is
    [_format_map_output]. *)
Lemma format_map_output_untyped_typed (rf : ResultFormat) success ec nn uc ul il :
  _format_map_output_untyped rf success (uval_of_count ec) (uval_of_count nn)
    (uval_of_count uc) (uval_of_values ul) (uval_of_values il)
  = _format_map_output rf success ec nn uc ul il.
Proof.
  unfold _format_map_output_untyped, _format_map_output.
  destruct (String.eqb (result_format rf) "BOOLEAN_ONLY"); [reflexivity|].
  destruct ec as [e|]; [|destruct nn; reflexivity].
  assert ((if is_None (uval_of_count nn) then Ret UNone
           else uval_sub (uval_of_count (Some e)) (uval_of_count nn))
          = Ret (uval_of_count (option_map (fun x => e - x) nn))) as ->
    by (destruct nn; reflexivity).
  assert (match nn with
          | Some nnv => let! ec := int_operand (Some e) in Ret (Some (ec - nnv))
          | None => Ret None
          end = Ret (option_map (fun x => e - x) nn)) as ->
    by (destruct nn; reflexivity).
  cbn [bind int_operand uval_of_count]. fold (uval_of_count nn).
  rewrite percents_untyped_typed.
  destruct (percents e nn uc _) as [[[up mp] upn]|x]; [|reflexivity]. cbn [bind].
  destruct ul as [l|]; [|reflexivity]. cbn [uval_of_values uval_slice list_operand bind].
  assert (partial_unexpected_counts_untyped (partial_unexpected_count rf) (UList l)
          = partial_unexpected_counts_of (partial_unexpected_count rf) l) as ->
    by reflexivity.
  destruct nn as [nnv|], uc as [u|], il as [i|]; reflexivity.
Qed.

Lemma count_is_get (metrics : kwargs) (k : string) (o : option Z) :
  count_is metrics k o -> kw_get metrics k = uval_of_count o.
Proof.
  unfold kw_get. destruct o as [z|]; simpl; [intros ->; reflexivity|].
  intros [-> | ->]; reflexivity.
Qed.

Lemma values_are_get (metrics : kwargs) (k : string) (o : option (list uval)) :
  values_are metrics k o -> kw_get metrics k = uval_of_values o.
Proof.
  unfold kw_get. destruct o as [z|]; simpl; [intros ->; reflexivity|].
  intros [-> | ->]; reflexivity.
Qed.

(** ** The success rule of the map expectations *)

(** [0.9] and [0.8] are the floats nearest to 9/10 and 8/10. *)
Example float_0_9_nearest :
  int_truediv 9 10 = Ret float_0_9 /\ int_truediv 8 10 = Ret float_0_8.
Proof. split; vm_compute; reflexivity. Qed.

Lemma validate_unfold (c : map_class) (rf : ResultFormat) (mostly : pynum)
  (map_metric : string) (metrics : kwargs) (total_count null_count unexpected_count : option Z) :
  count_is metrics "table.row_count" total_count ->
  count_is metrics "column_values.nonnull.unexpected_count" null_count ->
  count_is metrics (map_metric ++ ".unexpected_count") unexpected_count ->
  _validate c rf mostly map_metric metrics
  = (let! success := mostly_success mostly total_count null_count unexpected_count in
     _format_map_output_untyped rf (Some success) (uval_of_count total_count)
       (uval_of_count (nonnull_of total_count null_count))
       (uval_of_count unexpected_count)
       (kw_get metrics (map_metric ++ ".unexpected_values"))
       (kw_get metrics (map_metric ++ ".unexpected_index_list"))).
Proof.
  intros Ht Hn Hu.
  apply count_is_get in Ht, Hn, Hu.
  destruct c; unfold _validate, ColumnMapExpectation._validate,
    ColumnPairMapExpectation._validate, mostly_success;
  rewrite Ht, Hn, Hu;
  destruct total_count as [tc|], null_count as [nc|]; try reflexivity;
  cbn [uval_of_count is_None orb uval_sub bind nonnull_of];
  (destruct (Z.eqb_spec (tc - nc) 0) as [E|E];
   [rewrite (bool_decide_eq_true_2 (UInt (tc - nc) = UInt 0)) by (f_equal; exact E);
    cbn [negb]; destruct (bool_decide (UInt tc = UInt 0)); reflexivity
   |rewrite (bool_decide_eq_false_2 (UInt (tc - nc) = UInt 0)) by congruence;
    cbn [negb]]);
  (destruct unexpected_count as [uc|]; [|reflexivity]);
  cbn [uval_of_count uval_sub uval_truediv int_operand bind];
  destruct (int_truediv (tc - uc - nc) (tc - nc)); reflexivity.
Qed.

(** C1: in both map-expectation classes, when the resolved metrics hold
    integers (or nothing) under [table.row_count],
    [column_values.nonnull.unexpected_count] and
    [<map_metric>.unexpected_count], [_validate] computes [success] from
    these three counts by the rule [mostly_success] (true when the total
    or the null count is [None]; else, when
    [total_count - null_count != 0], whether
    [(total_count - unexpected_count - null_count) / (total_count - null_count)]
    is at least [mostly]; else true) and hands it to the formatter, so that
    at BOOLEAN_ONLY the payload is that [success] alone.  Counts 10, 2 and
    1 give [False] for [mostly = 0.9] and [True] for [mostly = 0.8]. *)
Theorem validate_success_rule (c : map_class) (rf : ResultFormat) (mostly : pynum)
  (map_metric : string) (metrics : kwargs)
  (total_count null_count unexpected_count : option Z) :
  count_is metrics "table.row_count" total_count ->
  count_is metrics "column_values.nonnull.unexpected_count" null_count ->
  count_is metrics (map_metric ++ ".unexpected_count") unexpected_count ->
  _validate c rf mostly map_metric metrics
  = (let! success := mostly_success mostly total_count null_count unexpected_count in
     _format_map_output_untyped rf (Some success) (uval_of_count total_count)
       (uval_of_count (nonnull_of total_count null_count))
       (uval_of_count unexpected_count)
       (kw_get metrics (map_metric ++ ".unexpected_values"))
       (kw_get metrics (map_metric ++ ".unexpected_index_list"))) /\
  (forall n,
     _validate c (at_tier BOOLEAN_ONLY n) mostly map_metric metrics
     = let! success := mostly_success mostly total_count null_count unexpected_count in
       Ret [("success", PBool success)]) /\
  mostly_success (NFloat float_0_9) (Some 10) (Some 2) (Some 1) = Ret false /\
  mostly_success (NFloat float_0_8) (Some 10) (Some 2) (Some 1) = Ret true.
Proof.
  intros Ht Hn Hu. split; [apply validate_unfold; assumption|]. split; [|split].
  - intros n. rewrite (validate_unfold _ _ _ _ _ _ _ _ Ht Hn Hu).
    destruct (mostly_success _ _ _ _); reflexivity.
  - vm_compute. reflexivity.
  - vm_compute. reflexivity.
Qed.

Lemma validate_success_rule_witness :
  let metrics : kwargs :=
    <["table.row_count" := UInt 10]>
      (<["column_values.nonnull.unexpected_count" := UInt 2]>
         (<["m.unexpected_count" := UInt 1]> ∅)) in
  count_is metrics "table.row_count" (Some 10) /\
  count_is metrics "column_values.nonnull.unexpected_count" (Some 2) /\
  count_is metrics ("m" ++ ".unexpected_count") (Some 1) /\
  _validate ColumnMap (at_tier BOOLEAN_ONLY 20) (NFloat float_0_9) "m" metrics
  = Ret [("success", PBool false)] /\
  _validate ColumnPairMap (at_tier BOOLEAN_ONLY 20) (NFloat float_0_8) "m" metrics
  = Ret [("success", PBool true)].
Proof.
  intros metrics.
  assert (count_is metrics "table.row_count" (Some 10)) as Ht by reflexivity.
  assert (count_is metrics "column_values.nonnull.unexpected_count" (Some 2)) as Hn
    by reflexivity.
  assert (count_is metrics ("m" ++ ".unexpected_count") (Some 1)) as Hu by reflexivity.
  split; [exact Ht|]. split; [exact Hn|]. split; [exact Hu|]. split.
  - rewrite (proj1 (proj2 (validate_success_rule ColumnMap (at_tier BOOLEAN_ONLY 20)
                             (NFloat float_0_9) "m" metrics _ _ _ Ht Hn Hu)) 20).
    vm_compute. reflexivity.
  - rewrite (proj1 (proj2 (validate_success_rule ColumnPairMap (at_tier BOOLEAN_ONLY 20)
                             (NFloat float_0_8) "m" metrics _ _ _ Ht Hn Hu)) 20).
    vm_compute. reflexivity.
Defined.

(** The two examples end to end, through [_validate] at BASIC. *)
Example validate_10_2_1 (c : map_class) :
  let metrics : kwargs :=
    <["table.row_count" := UInt 10]>
      (<["column_values.nonnull.unexpected_count" := UInt 2]>
         (<["m.unexpected_count" := UInt 1]>
            (<["m.unexpected_values" := UList [UStr "x"]]> ∅))) in
  (exists p, _validate c (at_tier BASIC 20) (NFloat float_0_9) "m" metrics = Ret p /\
             dict_get "success" p = Some (PBool false)) /\
  (exists p, _validate c (at_tier BASIC 20) (NFloat float_0_8) "m" metrics = Ret p /\
             dict_get "success" p = Some (PBool true)).
Proof.
  cbv zeta. split; eexists; (split; [destruct c; vm_compute; reflexivity|reflexivity]).
Qed.

(** A count that is no integer is not read as unknown: with a string for
    the row count and an integer for the null count, the subtraction of
    line 974 is a [TypeError]; with the null count unknown the string is
    not looked at and the success is vacuous. *)
Example validate_row_count_of_another_type (c : map_class) (mostly : pynum) :
  _validate c (at_tier BOOLEAN_ONLY 20) mostly "m"
    (<["table.row_count" := UStr "10"]>
       (<["column_values.nonnull.unexpected_count" := UInt 2]> ∅))
  = Raise TypeError /\
  _validate c (at_tier BOOLEAN_ONLY 20) mostly "m"
    (<["table.row_count" := UStr "10"]> ∅)
  = Ret [("success", PBool true)].
Proof. split; destruct c; reflexivity. Qed.

(** ** The metrics a map expectation asks for *)

Lemma string_length_app (s t : string) :
  String.length (s ++ t) = (String.length s + String.length t)%nat.
Proof. induction s as [|a s IH]; simpl; [reflexivity|]. rewrite IH. reflexivity. Qed.

(** The names of the metrics differ from one another. *)
Lemma row_count_ne_unexpected_count (m : string) :
  "table.row_count" <> m ++ ".unexpected_count".
Proof.
  intros H. apply (f_equal String.length) in H.
  rewrite string_length_app in H. simpl in H. lia.
Qed.

Lemma unexpected_rows_ne_row_count (m : string) :
  m ++ ".unexpected_rows" <> "table.row_count".
Proof.
  intros H. apply (f_equal String.length) in H.
  rewrite string_length_app in H. simpl in H. lia.
Qed.

Lemma unexpected_rows_ne_nonnull (m : string) :
  m ++ ".unexpected_rows" <> "column_values.nonnull.unexpected_count".
Proof.
  intros H.
  assert (String.length m = 22%nat) as Hlen.
  { apply (f_equal String.length) in H.
    rewrite string_length_app in H. simpl in H. lia. }
  pose proof (String.append_correct2 m ".unexpected_rows" 15) as Hget.
  rewrite H, Hlen in Hget. simpl in Hget. discriminate.
Qed.

Lemma suffix_ne (m s t : string) : s <> t -> m ++ s <> m ++ t.
Proof. intros Hne H. apply Hne. exact (String.app_inj m _ _ H). Qed.

(** A key is among the inserted ones, or is none of them. *)
Ltac has_key :=
  rewrite !lookup_insert; repeat case_decide; first [congruence | by eexists].

Ltac lacks_key :=
  rewrite !lookup_insert_ne by congruence; rewrite lookup_empty;
  intros [? ?]; discriminate.

Lemma table_dependencies_nil (gmk : metric_kwargs_fn) (rf : ResultFormat) :
  TableExpectation.get_validation_dependencies gmk [] rf
  = Ret {| dep_result_format := rf; dep_metrics := ∅ |}.
Proof. reflexivity. Qed.

Lemma add_metric_inv (gmk : metric_kwargs_fn) (name : string)
  (m m' : gmap string MetricConfiguration) :
  add_metric gmk name m = Ret m' ->
  exists mc, metric_name mc = name /\ m' = <[name := mc]> m.
Proof.
  unfold add_metric. destruct (gmk name) as [kw|]; simpl; [|discriminate].
  intros H. inversion H. eexists. split; [|reflexivity]. reflexivity.
Qed.

(** The sibling class: [ColumnMapExpectation] asks for the row count, the
    null count and the unexpected count at every tier, and for the
    unexpected rows at COMPLETE only. *)
Lemma column_map_dependencies (gmk : metric_kwargs_fn) (map_metric : string)
  (t : tier) (n : Z) (engine : engine_kind) (d : Dependencies) :
  ColumnMapExpectation.get_validation_dependencies gmk (Some map_metric) []
    (at_tier t n) engine = Ret d ->
  is_Some (dep_metrics d !! "table.row_count") /\
  is_Some (dep_metrics d !! "column_values.nonnull.unexpected_count") /\
  is_Some (dep_metrics d !! (map_metric ++ ".unexpected_count")) /\
  (is_Some (dep_metrics d !! (map_metric ++ ".unexpected_rows")) <-> t = COMPLETE).
Proof.
  unfold ColumnMapExpectation.get_validation_dependencies.
  rewrite table_dependencies_nil. simpl.
  destruct (add_metric gmk "column_values.nonnull.unexpected_count" ∅)
    as [m1|] eqn:E1; simpl; [|discriminate].
  destruct (add_metric gmk (map_metric ++ ".unexpected_count") m1)
    as [m2|] eqn:E2; simpl; [|discriminate].
  destruct (add_metric gmk "table.row_count" m2) as [m3|] eqn:E3; simpl; [|discriminate].
  apply add_metric_inv in E1 as (c1 & _ & ->).
  apply add_metric_inv in E2 as (c2 & _ & ->).
  apply add_metric_inv in E3 as (c3 & _ & ->).
  pose proof (row_count_ne_unexpected_count map_metric) as N1.
  pose proof (unexpected_rows_ne_row_count map_metric) as N2.
  pose proof (unexpected_rows_ne_nonnull map_metric) as N3.
  assert (map_metric ++ ".unexpected_rows" <> map_metric ++ ".unexpected_count") as N4
    by (apply suffix_ne; discriminate).
  assert (map_metric ++ ".unexpected_rows" <> map_metric ++ ".unexpected_values") as N5
    by (apply suffix_ne; discriminate).
  assert (map_metric ++ ".unexpected_rows" <> map_metric ++ ".unexpected_index_list") as N6
    by (apply suffix_ne; discriminate).
  destruct t; simpl.
  - intros H. inversion H; subst d; simpl.
    split; [has_key|]. split; [has_key|]. split; [has_key|].
    split; [lacks_key|discriminate].
  - destruct (add_metric gmk (map_metric ++ ".unexpected_values") _)
      as [m4|] eqn:E4; simpl; [|discriminate].
    apply add_metric_inv in E4 as (c4 & _ & ->).
    intros H. inversion H; subst d; simpl.
    split; [has_key|]. split; [has_key|]. split; [has_key|].
    split; [lacks_key|discriminate].
  - destruct (add_metric gmk (map_metric ++ ".unexpected_values") _)
      as [m4|] eqn:E4; simpl; [|discriminate].
    apply add_metric_inv in E4 as (c4 & _ & ->).
    intros H. inversion H; subst d; simpl.
    split; [has_key|]. split; [has_key|]. split; [has_key|].
    split; [lacks_key|discriminate].
  - destruct (add_metric gmk (map_metric ++ ".unexpected_values") _)
      as [m4|] eqn:E4; simpl; [|discriminate].
    apply add_metric_inv in E4 as (c4 & _ & ->).
    destruct (add_metric gmk (map_metric ++ ".unexpected_rows") _)
      as [m5|] eqn:E5; simpl; [|discriminate].
    apply add_metric_inv in E5 as (c5 & _ & ->).
    destruct engine.
    + destruct (add_metric gmk (map_metric ++ ".unexpected_index_list") _)
        as [m6|] eqn:E6; simpl; [|discriminate].
      apply add_metric_inv in E6 as (c6 & _ & ->).
      intros H. inversion H; subst d; simpl.
      split; [has_key|]. split; [has_key|]. split; [has_key|].
      split; [reflexivity|intros _; has_key].
    + intros H. inversion H; subst d; simpl.
      split; [has_key|]. split; [has_key|]. split; [has_key|].
      split; [reflexivity|intros _; has_key].
Qed.

(** C3, at the input where the code departs from it: for a
    [ColumnPairMapExpectation] at BOOLEAN_ONLY the metrics returned by
    [get_validation_dependencies] hold the null count and the unexpected
    count but not ['table.row_count'] (the early return comes before it is
    added, unlike in [ColumnMapExpectation]); [_validate], given the
    metrics asked for only, then finds the total count unknown and reports
    success whatever the counts are. *)
Theorem column_pair_boolean_only_lacks_row_count (gmk : metric_kwargs_fn)
  (map_metric : string) (n : Z) (engine : engine_kind) (d : Dependencies) :
  ColumnPairMapExpectation.get_validation_dependencies gmk (Some map_metric) []
    (at_tier BOOLEAN_ONLY n) engine = Ret d ->
  dep_metrics d !! "table.row_count" = None /\
  is_Some (dep_metrics d !! "column_values.nonnull.unexpected_count") /\
  is_Some (dep_metrics d !! (map_metric ++ ".unexpected_count")) /\
  (forall (mostly : pynum) (metrics : kwargs),
     (forall k, is_Some (metrics !! k) -> is_Some (dep_metrics d !! k)) ->
     _validate ColumnPairMap (at_tier BOOLEAN_ONLY n) mostly map_metric metrics
     = Ret [("success", PBool true)]).
Proof.
  unfold ColumnPairMapExpectation.get_validation_dependencies.
  rewrite table_dependencies_nil. simpl.
  destruct (add_metric gmk "column_values.nonnull.unexpected_count" ∅)
    as [m1|] eqn:E1; simpl; [|discriminate].
  destruct (add_metric gmk (map_metric ++ ".unexpected_count") m1)
    as [m2|] eqn:E2; simpl; [|discriminate].
  apply add_metric_inv in E1 as (c1 & _ & ->).
  apply add_metric_inv in E2 as (c2 & _ & ->).
  pose proof (row_count_ne_unexpected_count map_metric) as N1.
  intros H. inversion H; subst d; simpl. clear H.
  assert ((<[map_metric ++ ".unexpected_count" := c2]>
             (<["column_values.nonnull.unexpected_count" := c1]> ∅)
           : gmap string MetricConfiguration) !! "table.row_count" = None) as Hnone.
  { rewrite !lookup_insert_ne by congruence. apply lookup_empty. }
  split; [exact Hnone|]. split; [has_key|]. split; [has_key|].
  intros mostly metrics Hsub.
  assert (kw_get metrics "table.row_count" = UNone) as Hget.
  { unfold kw_get. destruct (metrics !! "table.row_count") as [v|] eqn:Ev; [|reflexivity].
    destruct (Hsub "table.row_count") as [x Hx]; [eauto|].
    rewrite Hnone in Hx. discriminate. }
  unfold _validate, ColumnPairMapExpectation._validate. rewrite Hget. reflexivity.
Qed.

Lemma column_pair_boolean_only_lacks_row_count_witness :
  let gmk : metric_kwargs_fn := fun _ => Ret (∅, ∅) in
  exists d,
    ColumnPairMapExpectation.get_validation_dependencies gmk
      (Some "column_pair_values.equal") [] (at_tier BOOLEAN_ONLY 20)
      OtherExecutionEngine = Ret d /\
    dep_metrics d !! "table.row_count" = None.
Proof.
  intros gmk. eexists. split; [reflexivity|].
  apply (column_pair_boolean_only_lacks_row_count gmk "column_pair_values.equal" 20
           OtherExecutionEngine _ eq_refl).
Defined.

(** ** Compute domains of the Spark engine *)

Section ComputeDomain.

Context {DataFrame Column : Type}.
Variable df_filter : DataFrame -> uval -> res DataFrame.
Variable df_filter_column : DataFrame -> Column -> res DataFrame.
Variable parse_condition_to_spark : uval -> res Column.

Local Abbreviation compute_domain :=
  (get_compute_domain df_filter df_filter_column parse_condition_to_spark).

(** The data a domain resolves to, apart from the kwargs. *)
Local Abbreviation data_of r := (let! x := r in Ret (fst (fst x))).

Lemma compute_domain_kwargs_inv (self : Engine DataFrame) (dk : kwargs)
  (df : DataFrame) (cdk adk : kwargs) :
  compute_domain self dk = Ret (df, cdk, adk) ->
  cdk = delete "column" dk /\
  adk = match dk !! "column" with
        | Some c => {["column" := c]}
        | None => ∅
        end.
Proof.
  unfold get_compute_domain.
  destruct (match kw_get dk "batch_id" with UNone => _ | _ => _ end) as [d|];
    simpl; [|discriminate].
  destruct (truthy (kw_get dk "table")); [discriminate|].
  destruct (if truthy (kw_get dk "row_condition") then _ else _) as [d'|];
    simpl; [|discriminate].
  destruct (dk !! "column") as [c|] eqn:Ec; intros H; inversion H; subst.
  - split; [reflexivity|]. apply insert_empty.
  - split; [|reflexivity]. symmetry. apply delete_id. exact Ec.
Qed.

Lemma compute_domain_data_congr (self : Engine DataFrame) (dk1 dk2 : kwargs) :
  (forall k, k <> "column" -> dk1 !! k = dk2 !! k) ->
  data_of (compute_domain self dk1) = data_of (compute_domain self dk2).
Proof.
  intros H. unfold get_compute_domain, kw_get.
  rewrite (H "batch_id"), (H "table"), (H "row_condition"), (H "condition_parser")
    by discriminate.
  destruct (match default UNone (dk2 !! "batch_id") with UNone => _ | _ => _ end)
    as [d|]; simpl; [|reflexivity].
  destruct (truthy (default UNone (dk2 !! "table"))); [reflexivity|].
  destruct (if truthy (default UNone (dk2 !! "row_condition")) then _ else _)
    as [d'|]; simpl; [|reflexivity].
  destruct (dk1 !! "column"), (dk2 !! "column"); reflexivity.
Qed.

(** C6: the compute-domain kwargs [get_compute_domain] returns are the
    domain kwargs without the ['column'] key, which goes to the accessor
    kwargs; two accepted mappings that differ only in the value of
    ['column'] get equal compute-domain kwargs (and the same data). *)
Theorem compute_domain_without_column (self : Engine DataFrame) (dk1 dk2 : kwargs)
  (df1 df2 : DataFrame) (cdk1 adk1 cdk2 adk2 : kwargs) :
  compute_domain self dk1 = Ret (df1, cdk1, adk1) ->
  compute_domain self dk2 = Ret (df2, cdk2, adk2) ->
  cdk1 !! "column" = None /\
  adk1 !! "column" = dk1 !! "column" /\
  (forall k, k <> "column" -> cdk1 !! k = dk1 !! k /\ adk1 !! k = None) /\
  ((forall k, k <> "column" -> dk1 !! k = dk2 !! k) -> cdk1 = cdk2 /\ df1 = df2).
Proof.
  intros H1 H2.
  destruct (compute_domain_kwargs_inv _ _ _ _ _ H1) as [-> ->].
  destruct (compute_domain_kwargs_inv _ _ _ _ _ H2) as [-> ->].
  split; [apply lookup_delete_eq|]. split; [|split].
  - destruct (dk1 !! "column"); [apply lookup_singleton_eq|apply lookup_empty].
  - intros k Hk. split; [apply lookup_delete_ne; congruence|].
    destruct (dk1 !! "column");
      [apply lookup_singleton_ne; congruence|apply lookup_empty].
  - intros Hsame. split.
    + apply map_eq. intros k. destruct (decide (k = "column")) as [->|Hk].
      * rewrite !lookup_delete_eq. reflexivity.
      * rewrite !lookup_delete_ne by congruence. apply Hsame, Hk.
    + pose proof (compute_domain_data_congr self dk1 dk2 Hsame) as Hd.
      rewrite H1, H2 in Hd. simpl in Hd. inversion Hd. reflexivity.
Qed.

(** C7: a non-empty row condition whose parser is neither ['spark'] nor
    ['great_expectations__experimental__'] makes [get_compute_domain]
    raise: no data and no kwargs are returned.  Where the mapping would
    be accepted without its row condition, the exception is the
    [GreatExpectationsError] of the parser check. *)
Theorem unrecognized_condition_parser_raises (self : Engine DataFrame) (dk : kwargs) :
  truthy (kw_get dk "row_condition") = true ->
  kw_get dk "condition_parser" <> UStr "spark" ->
  kw_get dk "condition_parser" <> UStr "great_expectations__experimental__" ->
  raises (compute_domain self dk) /\
  (returns (compute_domain self (delete "row_condition" dk)) ->
   compute_domain self dk = Raise GreatExpectationsError).
Proof.
  intros Hrow Hspark Hge.
  assert (forall d : DataFrame,
            (if truthy (kw_get dk "row_condition")
             then
               if bool_decide (kw_get dk "condition_parser" = UStr "spark")
               then df_filter d (kw_get dk "row_condition")
               else
                 if bool_decide (kw_get dk "condition_parser"
                                 = UStr "great_expectations__experimental__")
                 then let! parsed_condition :=
                        parse_condition_to_spark (kw_get dk "row_condition") in
                      df_filter_column d parsed_condition
                 else Raise GreatExpectationsError
             else Ret d) = Raise GreatExpectationsError) as Hfilter.
  { intros d. rewrite Hrow.
    rewrite !bool_decide_eq_false_2 by assumption. reflexivity. }
  split.
  - unfold get_compute_domain.
    destruct (match kw_get dk "batch_id" with UNone => _ | _ => _ end) as [d|];
      simpl; [|eexists; reflexivity].
    destruct (truthy (kw_get dk "table")); [eexists; reflexivity|].
    rewrite Hfilter. eexists; reflexivity.
  - intros [x Hx]. revert Hx.
    unfold get_compute_domain, kw_get.
    rewrite lookup_delete_eq.
    rewrite !(lookup_delete_ne dk "row_condition") by discriminate.
    fold (kw_get dk "batch_id"). fold (kw_get dk "table").
    fold (kw_get dk "row_condition"). fold (kw_get dk "condition_parser").
    destruct (match kw_get dk "batch_id" with UNone => _ | _ => _ end) as [d|];
      simpl; [|discriminate].
    destruct (truthy (kw_get dk "table")); [discriminate|].
    intros _. rewrite Hfilter. reflexivity.
Qed.

End ComputeDomain.

(** A toy backend to run the engine on: a data frame is its list of
    rows (one integer per row), a column expression is a constant, a row
    filter keeps the frame as it is. *)
Lemma compute_domain_without_column_witness :
  let compute_domain :=
    get_compute_domain (DataFrame := list Z) (Column := Z)
      (fun d _ => Ret d) (fun d _ => Ret d) (fun _ => Ret 0) in
  let self := Build_Engine (Some [1; 2; 3]) ∅ in
  let dk1 : kwargs := <["column" := UStr "a"]> (<["row_condition" := UNone]> ∅) in
  let dk2 : kwargs := <["column" := UStr "b"]> (<["row_condition" := UNone]> ∅) in
  exists df1 cdk1 adk1 df2 cdk2 adk2,
    compute_domain self dk1 = Ret (df1, cdk1, adk1) /\
    compute_domain self dk2 = Ret (df2, cdk2, adk2) /\
    (forall k, k <> "column" -> dk1 !! k = dk2 !! k) /\
    cdk1 !! "column" = None /\ cdk1 = cdk2.
Proof.
  intros compute_domain self dk1 dk2.
  assert (forall k, k <> "column" -> dk1 !! k = dk2 !! k) as Hsame.
  { intros k Hk. unfold dk1, dk2. rewrite !(lookup_insert_ne _ "column") by congruence.
    reflexivity. }
  do 6 eexists. split; [reflexivity|]. split; [reflexivity|]. split; [exact Hsame|].
  pose proof (compute_domain_without_column (fun d _ => Ret d) (fun d _ => Ret d)
                (fun _ => Ret 0) self dk1 dk2 _ _ _ _ _ _ eq_refl eq_refl)
    as (H1 & _ & _ & H4).
  split; [exact H1|]. exact (proj1 (H4 Hsame)).
Defined.

Lemma unrecognized_condition_parser_raises_witness :
  let compute_domain :=
    get_compute_domain (DataFrame := list Z) (Column := Z)
      (fun d _ => Ret d) (fun d _ => Ret d) (fun _ => Ret 0) in
  let self := Build_Engine (Some [1; 2; 3]) ∅ in
  let dk : kwargs :=
    <["row_condition" := UStr "x > 1"]> (<["condition_parser" := UStr "pandas"]> ∅) in
  truthy (kw_get dk "row_condition") = true /\
  kw_get dk "condition_parser" <> UStr "spark" /\
  kw_get dk "condition_parser" <> UStr "great_expectations__experimental__" /\
  raises (compute_domain self dk) /\
  compute_domain self dk = Raise GreatExpectationsError.
Proof.
  intros compute_domain self dk.
  assert (truthy (kw_get dk "row_condition") = true) as H1 by reflexivity.
  assert (kw_get dk "condition_parser" <> UStr "spark") as H2 by discriminate.
  assert (kw_get dk "condition_parser" <> UStr "great_expectations__experimental__")
    as H3 by discriminate.
  split; [exact H1|]. split; [exact H2|]. split; [exact H3|].
  destruct (unrecognized_condition_parser_raises (fun d _ => Ret d) (fun d _ => Ret d)
              (fun _ => Ret 0) self dk H1 H2 H3) as [Hr He].
  split; [exact Hr|]. apply He. apply is_ret_returns. vm_compute. reflexivity.
Defined.

(** ** [sorted] as a stable sort *)

Section SortedBy.

Context {A : Type}.

(** [before] is the comparison the sort asks, defined on [dom]; [prec] is
    the order the input comes in and [R] the order of the output. *)
Variable before : A -> A -> res bool.
Variable dom : A -> Prop.
Variables prec R : A -> A -> Prop.

Hypothesis before_defined :
  forall x y, dom x -> dom y -> exists b, before x y = Ret b.
Hypothesis before_true :
  forall x y, dom x -> dom y -> before y x = Ret true -> R y x.
Hypothesis before_false :
  forall x y, dom x -> dom y -> before y x = Ret false -> prec x y -> R x y.
Hypothesis R_trans :
  forall x y z, dom x -> dom y -> dom z -> R x y -> R y z -> R x z.





End SortedBy.

(** ** [Counter]: keys in the order first seen, with their occurrences *)













(** ** The most common values, in order *)










Lemma value_lt_comparable (v w : uval) :
  hashable v = true -> value_lt v w -> comparable v w.
Proof.
  unfold value_lt. destruct v, w; simpl; try discriminate; intros _ _.
  - left. split; eexists; reflexivity.
  - right. split; eexists; reflexivity.
Qed.






(** Where the field comes from in the two upper tiers. *)
Lemma tier_result_counts (t : tier) (n ec : Z) nn uc ps (l : list uval) il (r : dict) :
  t = SUMMARY \/ t = COMPLETE -> 0 < n ->
  tier_result t n ec nn uc ps l il = Some r ->
  dict_get "partial_unexpected_counts" r = Some (counts_value n l).
Proof.
  intros Ht Hn Hr. apply Z.ltb_lt in Hn.
  destruct Ht as [-> | ->]; simpl in Hr; inversion Hr; subst r;
    unfold complete_result, summary_result, dict_update; rewrite Hn; simpl;
    rewrite !dict_get_set; reflexivity.
Qed.



(** Values of different kinds, and [None], are counted as long as no two
    of the values kept occur equally often: [[1; 1; "a"]] with limit 2,
    [[None; None]], and [[1; "a"]] with limit 1, where ["a"] is cut off
    before the sort. *)
Example partial_unexpected_counts_of_mixed_values :
  counts_value 2 [UInt 1; UInt 1; UStr "a"]
  = PList [count_entry (UInt 1, 2%nat); count_entry (UStr "a", 1%nat)] /\
  ties_comparable 2 [UInt 1; UInt 1; UStr "a"] /\
  counts_value 2 [UNone; UNone] = PList [count_entry (UNone, 2%nat)] /\
  ties_comparable 2 [UNone; UNone] /\
  counts_value 1 [UInt 1; UStr "a"] = PList [count_entry (UInt 1, 1%nat)] /\
  ties_comparable 1 [UInt 1; UStr "a"].
Proof.
  split; [reflexivity|]. split.
  { intros v w [Hv _] [Hw _] Hne Hocc. exfalso. revert Hv Hw Hne Hocc.
    rewrite !elem_of_cons.
    intros [-> | [-> | [-> | H]]] [-> | [-> | [-> | H']]] Hne Hocc;
      first [congruence | discriminate | inversion H | inversion H']. }
  split; [reflexivity|]. split.
  { intros v w [Hv _] [Hw _] Hne _. exfalso. revert Hv Hw Hne.
    rewrite !elem_of_cons.
    intros [-> | [-> | H]] [-> | [-> | H']] Hne;
      first [congruence | inversion H | inversion H']. }
  split; [reflexivity|].
  intros v w [Hv Hrv] [Hw Hrw] Hne _. exfalso. revert Hv Hw Hrv Hrw Hne.
  rewrite !elem_of_cons.
  intros [-> | [-> | H]] [-> | [-> | H']] Hrv Hrw Hne;
    first [congruence | inversion H | inversion H'
          | vm_compute in Hrv; lia | vm_compute in Hrw; lia].
Qed.


(** ** Bundles of aggregate metrics *)

Section GroupBundle.

Local Open Scope list_scope.

Context {Column : Type}.
Variable to_id : kwargs -> string.

Local Abbreviation aggregates := (list (string * Aggregate Column)).

Lemma aggregates_mem_spec (d : string) (aggs : aggregates) :
  aggregates_mem d aggs = true <-> d ∈ aggs.*1.
Proof.
  unfold aggregates_mem. induction aggs as [|[d' a] aggs IH]; simpl.
  - split; [discriminate|]. intros H. inversion H.
  - rewrite orb_true_iff, IH, String.eqb_eq, elem_of_cons. reflexivity.
Qed.

Lemma aggregates_get_None (d : string) (aggs : aggregates) :
  aggregates_get d aggs = None <-> d ∉ aggs.*1.
Proof.
  induction aggs as [|[d' a] aggs IH]; simpl.
  - split; [|reflexivity]. intros _ H. inversion H.
  - rewrite not_elem_of_cons. destruct (String.eqb d d') eqn:E.
    + apply String.eqb_eq in E. split; [discriminate|]. intros [H _]. contradiction.
    + apply String.eqb_neq in E. rewrite IH. tauto.
Qed.

Lemma aggregates_get_elem (d : string) (a : Aggregate Column) (aggs : aggregates) :
  NoDup aggs.*1 -> (d, a) ∈ aggs <-> aggregates_get d aggs = Some a.
Proof.
  induction aggs as [|[d' a'] aggs IH]; simpl; intros Hnd.
  - split; [intros H; inversion H|discriminate].
  - apply NoDup_cons in Hnd as [Hd' Hnd]. rewrite elem_of_cons.
    destruct (String.eqb d d') eqn:E.
    + apply String.eqb_eq in E. subst d'. split.
      * intros [H|H]; [inversion H; reflexivity|].
        exfalso. apply Hd'. apply list_elem_of_fmap. exists (d, a). auto.
      * intros [= ->]. left. reflexivity.
    + apply String.eqb_neq in E. rewrite <- (IH Hnd). split.
      * intros [H|H]; [inversion H; congruence|exact H].
      * auto.
Qed.

Lemma aggregates_get_snoc (d d' : string) (a' : Aggregate Column) (aggs : aggregates) :
  aggregates_get d (aggs ++ [(d', a')])
  = match aggregates_get d aggs with
    | Some a => Some a
    | None => if String.eqb d d' then Some a' else None
    end.
Proof.
  induction aggs as [|[d0 a0] aggs IH]; simpl; [reflexivity|].
  destruct (String.eqb d d0); [reflexivity|exact IH].
Qed.

Lemma aggregates_append_keys (d : string) (c : Column) (i : metric_id) (aggs : aggregates) :
  (aggregates_append d c i aggs).*1 = aggs.*1.
Proof.
  induction aggs as [|[d0 a0] aggs IH]; simpl; [reflexivity|].
  destruct (String.eqb d d0); csimpl; [reflexivity|]. rewrite IH. reflexivity.
Qed.

Lemma aggregates_append_get (d d' : string) (c : Column) (i : metric_id)
  (aggs : aggregates) :
  aggregates_get d (aggregates_append d' c i aggs)
  = if String.eqb d d' then
      (fun a => {| column_aggregates := column_aggregates a ++ [c];
                   ids := ids a ++ [i];
                   agg_domain_kwargs := agg_domain_kwargs a |})
        <$> aggregates_get d aggs
    else aggregates_get d aggs.
Proof.
  induction aggs as [|[d0 a0] aggs IH]; simpl.
  - destruct (String.eqb d d'); reflexivity.
  - destruct (String.eqb d' d0) eqn:E0; simpl.
    + apply String.eqb_eq in E0. subst d0.
      destruct (String.eqb d d'); reflexivity.
    + destruct (String.eqb d d0) eqn:E1.
      * apply String.eqb_eq in E1. subst d0.
        rewrite String.eqb_sym in E0. rewrite E0. reflexivity.
      * exact IH.
Qed.

Lemma entries_of_cons (d : string) (e : BundleEntry Column) (rest : list (BundleEntry Column)) :
  entries_of to_id d (e :: rest)
  = if decide (entry_domain_id to_id e = Some d)
    then e :: entries_of to_id d rest else entries_of to_id d rest.
Proof. unfold entries_of. rewrite filter_cons. reflexivity. Qed.

(** One turn of the first loop. *)
Lemma group_bundle_cons (e : BundleEntry Column) (rest : list (BundleEntry Column))
  (aggs aggs' : aggregates) :
  group_bundle to_id (e :: rest) aggs = Ret aggs' ->
  exists c dk,
    metric_fn_type e = "aggregate_fn" /\ metric_provider e = Ret (c, dk) /\
    group_bundle to_id rest
      (aggregates_append (to_id dk) c (entry_id e)
         (if aggregates_mem (to_id dk) aggs then aggs
          else aggs ++ [(to_id dk, {| column_aggregates := []; ids := [];
                                      agg_domain_kwargs := dk |})]))
    = Ret aggs'.
Proof.
  simpl. destruct (String.eqb (metric_fn_type e) "aggregate_fn") eqn:E;
    simpl; [|discriminate].
  apply String.eqb_eq in E.
  destruct (metric_provider e) as [[c dk]|]; simpl; [|discriminate].
  intros H. exists c, dk. auto.
Qed.

Lemma group_bundle_spec (bundle : list (BundleEntry Column)) :
  forall aggs aggs' : aggregates,
    NoDup aggs.*1 -> group_bundle to_id bundle aggs = Ret aggs' ->
    Forall (fun e => metric_fn_type e = "aggregate_fn" /\
                     is_Some (entry_domain_id to_id e)) bundle /\
    NoDup aggs'.*1 /\
    (forall d, d ∈ aggs'.*1 <->
               d ∈ aggs.*1 \/ exists e, e ∈ bundle /\ entry_domain_id to_id e = Some d) /\
    (forall d a', aggregates_get d aggs' = Some a' ->
       match aggregates_get d aggs with
       | Some a =>
           column_aggregates a'
           = (column_aggregates a ++ omap entry_column (entries_of to_id d bundle))%list /\
           ids a' = (ids a ++ (entry_id <$> entries_of to_id d bundle))%list /\
           agg_domain_kwargs a' = agg_domain_kwargs a
       | None =>
           column_aggregates a' = omap entry_column (entries_of to_id d bundle) /\
           ids a' = entry_id <$> entries_of to_id d bundle /\
           exists e0, head (entries_of to_id d bundle) = Some e0 /\
                      entry_domain_kwargs e0 = Some (agg_domain_kwargs a')
       end).
Proof.
  induction bundle as [|e rest IH]; intros aggs aggs' Hnd Hg.
  - simpl in Hg. inversion Hg; subst aggs'. split; [constructor|]. split; [exact Hnd|].
    split.
    + intros d. split; [auto|]. intros [H|(e & He & _)]; [exact H|inversion He].
    + intros d a' Ha'. rewrite Ha'. simpl. rewrite !app_nil_r. auto.
  - apply group_bundle_cons in Hg as (c & dk & Hfn & Hprov & Hg).
    set (d0 := to_id dk) in *.
    set (aggs1 := if aggregates_mem d0 aggs then aggs
                  else aggs ++ [(d0, {| column_aggregates := []; ids := [];
                                        agg_domain_kwargs := dk |})]) in *.
    assert (entry_domain_id to_id e = Some d0) as Hed
      by (unfold entry_domain_id, entry_domain_kwargs; rewrite Hprov; reflexivity).
    assert (entry_column e = Some c) as Hec
      by (unfold entry_column; rewrite Hprov; reflexivity).
    assert (NoDup aggs1.*1 /\ forall d, d ∈ aggs1.*1 <-> d ∈ aggs.*1 \/ d = d0) as [Hnd1 Hin1].
    { unfold aggs1. destruct (aggregates_mem d0 aggs) eqn:Em.
      - apply aggregates_mem_spec in Em. split; [exact Hnd|].
        intros d. split; [auto|]. intros [H| ->]; assumption.
      - assert (d0 ∉ aggs.*1) as Hd0.
        { intros H. apply aggregates_mem_spec in H. congruence. }
        rewrite fmap_app. simpl. split.
        + apply NoDup_app. split; [exact Hnd|]. split; [|apply NoDup_singleton].
          intros d Hd Hd'. apply list_elem_of_singleton in Hd'. subst d. contradiction.
        + intros d. rewrite elem_of_app, list_elem_of_singleton. reflexivity. }
    assert (forall d, aggregates_get d aggs1
                      = match aggregates_get d aggs with
                        | Some a => Some a
                        | None => if String.eqb d d0
                                  then Some {| column_aggregates := []; ids := [];
                                               agg_domain_kwargs := dk |}
                                  else None
                        end) as Hget1.
    { intros d. unfold aggs1. destruct (aggregates_mem d0 aggs) eqn:Em.
      - destruct (aggregates_get d aggs) as [a|] eqn:Ea; [reflexivity|].
        destruct (String.eqb d d0) eqn:E; [|reflexivity].
        apply String.eqb_eq in E. subst d.
        apply aggregates_get_None in Ea. apply aggregates_mem_spec in Em. contradiction.
      - apply aggregates_get_snoc. }
    destruct (IH _ _ ltac:(rewrite aggregates_append_keys; exact Hnd1) Hg)
      as (Hall & Hnd' & Hin' & Hget').
    split; [|split; [exact Hnd'|split]].
    + constructor; [|exact Hall]. split; [exact Hfn|]. rewrite Hed. eauto.
    + intros d. rewrite Hin', aggregates_append_keys, Hin1. split.
      * intros [[H| ->]|(e' & He' & Hd)]; [auto| |].
        -- right. exists e. split; [left|exact Hed].
        -- right. exists e'. split; [right; exact He'|exact Hd].
      * intros [H|(e' & He' & Hd)]; [auto|].
        apply elem_of_cons in He' as [->|He'].
        -- left. right. congruence.
        -- right. exists e'. auto.
    + intros d a' Ha'. specialize (Hget' d a' Ha').
      rewrite aggregates_append_get, Hget1 in Hget'.
      rewrite entries_of_cons, Hed.
      destruct (String.eqb d d0) eqn:E.
      * apply String.eqb_eq in E. subst d.
        rewrite decide_True by reflexivity.
        destruct (aggregates_get d0 aggs) as [a|]; simpl in Hget' |- *.
        -- destruct Hget' as (H1 & H2 & H3). rewrite Hec. simpl.
           rewrite H1, H2, <- !app_assoc. auto.
        -- destruct Hget' as (H1 & H2 & H3). rewrite Hec. simpl.
           split; [exact H1|]. split; [exact H2|].
           exists e. split; [reflexivity|].
           unfold entry_domain_kwargs. rewrite Hprov. simpl. congruence.
      * apply String.eqb_neq in E.
        rewrite decide_False by congruence.
        destruct (aggregates_get d aggs) as [a|]; exact Hget'.
Qed.

End GroupBundle.

Section ResolveMetricBundle.

Local Open Scope list_scope.

Context {DataFrame Column Value : Type}.
Variable df_filter : DataFrame -> uval -> res DataFrame.
Variable df_filter_column : DataFrame -> Column -> res DataFrame.
Variable parse_condition_to_spark : uval -> res Column.
Variable df_agg_collect : DataFrame -> list Column -> res (list (list Value)).
Variable to_id : kwargs -> string.

Local Abbreviation aggregates := (list (string * Aggregate Column)).
Local Abbreviation compute_domain :=
  (get_compute_domain df_filter df_filter_column parse_condition_to_spark).
Local Abbreviation run :=
  (run_aggregates df_filter df_filter_column parse_condition_to_spark df_agg_collect).
Local Abbreviation resolve :=
  (resolve_metric_bundle df_filter df_filter_column parse_condition_to_spark
     df_agg_collect to_id).
Local Abbreviation pass :=
  (pass_ok df_filter df_filter_column parse_condition_to_spark df_agg_collect).

(** The assignments of the passes, group after group. *)
Local Abbreviation assign_all m groups passes :=
  (foldl (fun (acc : gmap metric_id Value)
              (gp : (string * Aggregate Column) * (DataFrame * list Value)) =>
            assign_row (ids (snd (fst gp))) (snd (snd gp)) acc)
     m (zip groups passes)).

Lemma assign_row_lookup_notin (l : list metric_id) (row : list Value)
  (m : gmap metric_id Value) (i : metric_id) :
  i ∉ l -> assign_row l row m !! i = m !! i.
Proof.
  revert row m. induction l as [|k l IH]; intros row m Hi; simpl; [reflexivity|].
  destruct row as [|v row]; [reflexivity|].
  apply not_elem_of_cons in Hi as [Hk Hi].
  rewrite IH by exact Hi. apply lookup_insert_ne. congruence.
Qed.

Lemma assign_row_lookup (l : list metric_id) (row : list Value)
  (m : gmap metric_id Value) (j : nat) (i : metric_id) :
  NoDup l -> length row = length l -> l !! j = Some i ->
  assign_row l row m !! i = row !! j.
Proof.
  revert row m j. induction l as [|k l IH]; intros row m j Hnd Hlen Hj; [inversion Hj|].
  destruct row as [|v row]; [discriminate|]. simpl in Hlen.
  apply NoDup_cons in Hnd as [Hk Hnd]. simpl.
  destruct j as [|j]; simpl in Hj |- *.
  - inversion Hj; subst k. rewrite assign_row_lookup_notin by exact Hk.
    apply lookup_insert_eq.
  - apply IH; [exact Hnd|lia|exact Hj].
Qed.

(** What a returning second loop did. *)
Lemma run_aggregates_returns (self : Engine DataFrame) (aggs : aggregates) :
  forall calls m calls' m',
    run self aggs calls m = (calls', Ret m') ->
    exists passes : list (DataFrame * list Value),
      Forall2 (fun g p => pass self (snd g) (fst p) (snd p)) aggs passes /\
      calls' = calls ++ zip_with (fun g p => (fst p, column_aggregates (snd g))) aggs passes /\
      m' = assign_all m aggs passes.
Proof.
  induction aggs as [|[d a] aggs IH]; intros calls m calls' m' H; simpl in H.
  - inversion H; subst. exists []. split; [constructor|].
    split; [rewrite app_nil_r; reflexivity|reflexivity].
  - destruct (compute_domain self (agg_domain_kwargs a)) as [[[df cdk] adk]|] eqn:Ed;
      [|inversion H].
    destruct (bool_decide (cdk = agg_domain_kwargs a)) eqn:Ecdk; simpl in H; [|inversion H].
    apply bool_decide_eq_true in Ecdk. subst cdk.
    destruct (length (column_aggregates a) =? length (ids a))%nat; simpl in H;
      [|inversion H].
    destruct (df_agg_collect df (column_aggregates a)) as [rows|] eqn:Ec; [|inversion H].
    destruct rows as [|row [|row' rows]]; try (inversion H; fail).
    destruct (length (ids a) =? length row)%nat eqn:El; simpl in H; [|inversion H].
    apply Nat.eqb_eq in El.
    destruct (IH _ _ _ _ H) as (passes & Hpasses & -> & ->).
    exists ((df, row) :: passes). split; [|split].
    + constructor; [|exact Hpasses]. simpl. split; [eauto|]. split; [exact Ec|congruence].
    + simpl. rewrite <- app_assoc. reflexivity.
    + reflexivity.
Qed.

(** A group whose pass cannot succeed makes the second loop raise. *)
Lemma run_aggregates_raises (self : Engine DataFrame) (aggs : aggregates) :
  forall calls m,
    (exists g, g ∈ aggs /\ forall df row, ~ pass self (snd g) df row) ->
    raises (snd (run self aggs calls m)).
Proof.
  induction aggs as [|[d a] aggs IH]; intros calls m (g & Hg & Hbad).
  - inversion Hg.
  - simpl.
    destruct (compute_domain self (agg_domain_kwargs a)) as [[[df cdk] adk]|] eqn:Ed;
      [|eexists; reflexivity].
    destruct (bool_decide (cdk = agg_domain_kwargs a)) eqn:Ecdk; simpl;
      [|eexists; reflexivity].
    apply bool_decide_eq_true in Ecdk. subst cdk.
    destruct (length (column_aggregates a) =? length (ids a))%nat; simpl;
      [|eexists; reflexivity].
    destruct (df_agg_collect df (column_aggregates a)) as [rows|] eqn:Ec;
      [|eexists; reflexivity].
    destruct rows as [|row [|row' rows]]; try (eexists; reflexivity).
    destruct (length (ids a) =? length row)%nat eqn:El; simpl; [|eexists; reflexivity].
    apply Nat.eqb_eq in El.
    apply elem_of_cons in Hg as [->|Hg].
    + exfalso. apply (Hbad df row). simpl. split; [eauto|]. split; [exact Ec|congruence].
    + apply IH. exists g. auto.
Qed.

Lemma assign_all_lookup_notin (aggs : aggregates) :
  forall (passes : list (DataFrame * list Value)) (m : gmap metric_id Value) (i : metric_id),
    i ∉ mjoin ((fun g => ids (snd g)) <$> aggs) ->
    assign_all m aggs passes !! i = m !! i.
Proof.
  induction aggs as [|g aggs IH]; intros passes m i Hi; [reflexivity|].
  destruct passes as [|p passes]; [reflexivity|]. simpl in Hi |- *.
  apply not_elem_of_app in Hi as [Hg Hi].
  rewrite IH by exact Hi. apply assign_row_lookup_notin, Hg.
Qed.

Lemma assign_all_lookup (aggs : aggregates) :
  forall (passes : list (DataFrame * list Value)) (m : gmap metric_id Value)
         (k : nat) g p (j : nat) (i : metric_id),
    Forall2 (fun g p => length (snd p) = length (ids (snd g))) aggs passes ->
    NoDup (mjoin ((fun g => ids (snd g)) <$> aggs)) ->
    aggs !! k = Some g -> passes !! k = Some p -> ids (snd g) !! j = Some i ->
    assign_all m aggs passes !! i = snd p !! j.
Proof.
  induction aggs as [|g0 aggs IH]; intros passes m k g p j i Hlen Hnd Hg Hp Hj;
    [inversion Hg|].
  destruct passes as [|p0 passes]; [inversion Hp|].
  apply Forall2_cons in Hlen as [Hlen0 Hlen].
  simpl in Hnd. apply NoDup_app in Hnd as (Hnd0 & Hdisj & Hnd).
  destruct k as [|k]; simpl in Hg, Hp |- *.
  - inversion Hg; inversion Hp; subst g0 p0.
    rewrite assign_all_lookup_notin.
    + apply assign_row_lookup; assumption.
    + apply Hdisj. apply list_elem_of_lookup. eauto.
  - eapply IH; eassumption.
Qed.

Lemma NoDup_fmap_filter {A B : Type} (f : A -> B) (P : A -> Prop)
  `{forall x, Decision (P x)} (l : list A) :
  NoDup (f <$> l) -> NoDup (f <$> filter P l).
Proof.
  induction l as [|x l IH]; csimpl; intros Hnd; [constructor|].
  apply NoDup_cons in Hnd as [Hx Hnd]. rewrite filter_cons.
  destruct (decide (P x)); csimpl; [|apply IH, Hnd].
  apply NoDup_cons. split; [|apply IH, Hnd].
  intros Hin. apply Hx. apply list_elem_of_fmap in Hin as (y & -> & Hy).
  apply list_elem_of_fmap. exists y. split; [reflexivity|].
  apply list_elem_of_filter in Hy as [_ Hy]. exact Hy.
Qed.

Lemma NoDup_fmap_inj_on {A B : Type} (f : A -> B) (l : list A) (x y : A) :
  NoDup (f <$> l) -> x ∈ l -> y ∈ l -> f x = f y -> x = y.
Proof.
  induction l as [|z l IH]; csimpl; intros Hnd Hx Hy Hf; [inversion Hx|].
  apply NoDup_cons in Hnd as [Hz Hnd].
  apply elem_of_cons in Hx as [->|Hx]; apply elem_of_cons in Hy as [->|Hy].
  - reflexivity.
  - exfalso. apply Hz. rewrite Hf. apply list_elem_of_fmap. eauto.
  - exfalso. apply Hz. rewrite <- Hf. apply list_elem_of_fmap. eauto.
  - apply IH; assumption.
Qed.

(** Distinct metric ids in the bundle are distinct across the groups. *)
Lemma entries_ids_NoDup (bundle : list (BundleEntry Column)) (ds : list string) :
  NoDup (entry_id <$> bundle) -> NoDup ds ->
  NoDup (mjoin ((fun d => entry_id <$> entries_of to_id d bundle) <$> ds)).
Proof.
  intros Hb. induction ds as [|d ds IH]; csimpl; intros Hds; [constructor|].
  apply NoDup_cons in Hds as [Hd Hds].
  apply NoDup_app. split; [|split; [|apply IH, Hds]].
  - unfold entries_of. apply NoDup_fmap_filter, Hb.
  - intros i Hi Hi'.
    apply list_elem_of_fmap in Hi as (e1 & -> & He1).
    apply list_elem_of_join in Hi' as (l & Hil & Hl).
    apply list_elem_of_fmap in Hl as (d' & -> & Hd').
    apply list_elem_of_fmap in Hil as (e2 & Heq & He2).
    unfold entries_of in He1, He2.
    apply list_elem_of_filter in He1 as [Hd1 He1].
    apply list_elem_of_filter in He2 as [Hd2 He2].
    assert (e1 = e2) as -> by (eapply NoDup_fmap_inj_on; eassumption).
    rewrite Hd1 in Hd2. inversion Hd2; subst d'. contradiction.
Qed.

(** C2: [resolve_metric_bundle] groups the metrics by the id of the domain
    kwargs their providers report; a call that returns has made exactly
    one aggregation pass per distinct domain id, each on the data frame
    and as the compute domain its group was declared with and answered by
    a single row with one value per metric, and has assigned the [j]-th
    value of the row to the [j]-th metric id declared for that domain.  A
    group whose resolved compute domain differs from the declared one, or
    whose pass does not give exactly one row of the right length, makes
    the call raise, and then no metrics are returned. *)
Theorem resolve_metric_bundle_one_pass_per_domain (self : Engine DataFrame)
  (bundle : list (BundleEntry Column)) :
  (forall calls resolved,
     resolve self bundle = (calls, Ret resolved) ->
     exists (groups : aggregates) (passes : list (DataFrame * list Value)),
       group_bundle to_id bundle [] = Ret groups /\
       NoDup groups.*1 /\
       (forall d, d ∈ groups.*1 <->
                  exists e, e ∈ bundle /\ entry_domain_id to_id e = Some d) /\
       (forall d a, (d, a) ∈ groups ->
          ids a = entry_id <$> entries_of to_id d bundle /\
          column_aggregates a = omap entry_column (entries_of to_id d bundle) /\
          to_id (agg_domain_kwargs a) = d) /\
       Forall2 (fun g p => pass self (snd g) (fst p) (snd p)) groups passes /\
       calls = zip_with (fun g p => (fst p, column_aggregates (snd g))) groups passes /\
       length calls = length (remove_dups (omap (entry_domain_id to_id) bundle)) /\
       resolved = assign_all ∅ groups passes /\
       (NoDup (entry_id <$> bundle) ->
        forall k d a df row j i,
          groups !! k = Some (d, a) -> passes !! k = Some (df, row) ->
          ids a !! j = Some i -> resolved !! i = row !! j)) /\
  (forall groups d a,
     group_bundle to_id bundle [] = Ret groups -> (d, a) ∈ groups ->
     (forall df cdk adk,
        compute_domain self (agg_domain_kwargs a) = Ret (df, cdk, adk) ->
        cdk <> agg_domain_kwargs a \/
        forall row, df_agg_collect df (column_aggregates a) = Ret [row] ->
                    length row <> length (ids a)) ->
     raises (snd (resolve self bundle))).
Proof.
  split.
  - intros calls resolved H. unfold resolve_metric_bundle in H.
    destruct (group_bundle to_id bundle []) as [groups|] eqn:Eg; [|inversion H].
    destruct (group_bundle_spec to_id bundle [] groups ltac:(constructor) Eg)
      as (Hall & Hnd & Hin & Hget).
    destruct (run_aggregates_returns self groups _ _ _ _ H) as (passes & Hpass & Hcalls & Hres).
    simpl in Hcalls.
    assert (forall d a, (d, a) ∈ groups ->
              ids a = entry_id <$> entries_of to_id d bundle /\
              column_aggregates a = omap entry_column (entries_of to_id d bundle) /\
              to_id (agg_domain_kwargs a) = d) as Hgroups.
    { intros d a Hda. apply (aggregates_get_elem d a groups Hnd) in Hda.
      specialize (Hget d a Hda). simpl in Hget.
      destruct Hget as (Hc & Hi & e0 & He0 & Hdk).
      split; [exact Hi|]. split; [exact Hc|].
      assert (e0 ∈ entries_of to_id d bundle) as Hin0.
      { destruct (entries_of to_id d bundle); inversion He0. left. }
      unfold entries_of in Hin0. apply list_elem_of_filter in Hin0 as [Hd0 _].
      unfold entry_domain_id in Hd0. rewrite Hdk in Hd0. simpl in Hd0. congruence. }
    assert (forall d, d ∈ groups.*1 <->
                      exists e, e ∈ bundle /\ entry_domain_id to_id e = Some d) as Hkeys.
    { intros d. rewrite Hin. split; [|auto]. intros [Hd|Hd]; [inversion Hd|exact Hd]. }
    exists groups, passes.
    split; [reflexivity|]. split; [exact Hnd|]. split; [exact Hkeys|].
    split; [exact Hgroups|]. split; [exact Hpass|]. split; [exact Hcalls|].
    split; [|split; [exact Hres|]].
    + rewrite Hcalls, length_zip_with.
      rewrite <- (Forall2_length _ _ _ Hpass), Nat.min_id.
      rewrite <- (length_fmap fst). apply Permutation_length.
      apply NoDup_Permutation; [exact Hnd|apply NoDup_remove_dups|].
      intros d. rewrite Hkeys, elem_of_remove_dups, list_elem_of_omap. reflexivity.
    + intros Hids k d a df row j i Hk Hp Hj. rewrite Hres.
      apply (assign_all_lookup groups passes ∅ k (d, a) (df, row) j i);
        try assumption.
      * eapply Forall2_impl; [exact Hpass|]. intros g p (_ & _ & Hlen). exact Hlen.
      * assert ((fun g : string * Aggregate Column => ids (snd g)) <$> groups
                = (fun d => entry_id <$> entries_of to_id d bundle) <$> groups.*1) as ->.
        { rewrite <- list_fmap_compose. apply Forall_fmap_ext_1, Forall_forall.
          intros [d' a'] Hda'. simpl. exact (proj1 (Hgroups d' a' Hda')). }
        apply entries_ids_NoDup; assumption.
  - intros groups d a Eg Hda Hbad. unfold resolve_metric_bundle. rewrite Eg.
    apply run_aggregates_raises. exists (d, a). split; [exact Hda|].
    intros df row ([adk Hcd] & Hcollect & Hlen). simpl in *.
    destruct (Hbad df _ _ Hcd) as [Hne|Hrow]; [congruence|].
    exact (Hrow row Hcollect Hlen).
Qed.

End ResolveMetricBundle.

(** Two aggregate metrics over one compute domain on the toy backend (the
    aggregate [c] of a frame is [c] plus its number of rows): one pass,
    and both ids get their value from the one row, in declared order. *)
Lemma resolve_metric_bundle_one_pass_per_domain_witness :
  let collect : list Z -> list Z -> res (list (list Z)) :=
    fun df cols => Ret [(fun c => c + Z.of_nat (length df)) <$> cols] in
  let to_id : kwargs -> string :=
    fun dk => match dk !! "batch_id" with Some (UStr s) => s | _ => "" end in
  let resolve :=
    resolve_metric_bundle (fun d _ => Ret d) (fun d _ => Ret d) (fun _ => Ret 0)
      collect to_id in
  let self := Build_Engine (Some [3; 1; 4]) ∅ in
  let row_count : metric_id := ("table.row_count", "", "") in
  let column_max : metric_id := ("column.max", "", "") in
  let bundle :=
    [Build_BundleEntry row_count "aggregate_fn" (Ret (0, ∅));
     Build_BundleEntry column_max "aggregate_fn" (Ret (100, ∅))] in
  exists calls resolved,
    resolve self bundle = (calls, Ret resolved) /\
    calls = [([3; 1; 4], [0; 100])] /\
    resolved !! row_count = Some 3 /\ resolved !! column_max = Some 103 /\
    exists (groups : list (string * Aggregate Z)) (passes : list (list Z * list Z)),
      group_bundle to_id bundle [] = Ret groups /\
      NoDup groups.*1 /\
      length calls = length (remove_dups (omap (entry_domain_id to_id) bundle)) /\
      length passes = 1%nat.
Proof.
  intros collect to_id resolve self row_count column_max bundle.
  destruct (resolve self bundle) as [calls r] eqn:E.
  assert (calls = [([3; 1; 4], [0; 100])]) as Hc.
  { change calls with (fst (calls, r)). rewrite <- E. vm_compute. reflexivity. }
  assert (is_ret r = true) as Hr.
  { change r with (snd (calls, r)). rewrite <- E. vm_compute. reflexivity. }
  destruct r as [resolved|e]; [|discriminate].
  assert (forall k, resolved !! k
                    = match snd (resolve self bundle) with
                      | Ret m => m !! k
                      | Raise _ => None
                      end) as Hk by (intros k; rewrite E; reflexivity).
  exists calls, resolved. split; [reflexivity|]. split; [exact Hc|].
  split; [rewrite Hk; vm_compute; reflexivity|].
  split; [rewrite Hk; vm_compute; reflexivity|].
  destruct (proj1 (resolve_metric_bundle_one_pass_per_domain
                     (fun d _ => Ret d) (fun d _ => Ret d) (fun _ => Ret 0)
                     collect to_id self bundle) _ _ E)
    as (groups & passes & Hg & Hnd & _ & _ & Hpass & Hcalls & Hlen & _).
  exists groups, passes. split; [exact Hg|]. split; [exact Hnd|]. split; [exact Hlen|].
  rewrite Hc in Hcalls.
  apply (f_equal length) in Hcalls. rewrite length_zip_with in Hcalls.
  rewrite <- (Forall2_length _ _ _ Hpass), Nat.min_id in Hcalls.
  rewrite <- (Forall2_length _ _ _ Hpass). simpl in Hcalls. congruence.
Defined.

(** * Further properties *)

(** ** The metrics asked for, format by format *)


(** What a returning sequence of additions leaves in the dictionary. *)
Lemma add_all_spec (gmk : metric_kwargs_fn) (names : list string) :
  forall m m' : gmap string MetricConfiguration,
    TableExpectation.add_all gmk names m = Ret m' ->
    (forall k, k ∈ names ->
       exists kw, gmk k = Ret kw /\
                  m' !! k = Some {| metric_name := k; metric_domain_kwargs := fst kw;
                                    metric_value_kwargs := snd kw |}) /\
    (forall k, k ∉ names -> m' !! k = m !! k).
Proof.
  induction names as [|name names IH]; intros m m' H; simpl in H.
  - inversion H; subst m'. split; [intros k Hk; inversion Hk|reflexivity].
  - unfold add_metric in H at 1.
    destruct (gmk name) as [kw|] eqn:Ek; simpl in H; [|discriminate].
    destruct (IH _ _ H) as [Hin Hout]. split.
    + intros k Hk. destruct (decide (k ∈ names)) as [Hk'|Hk']; [apply Hin, Hk'|].
      apply elem_of_cons in Hk as [->|Hk]; [|contradiction].
      exists kw. split; [exact Ek|]. rewrite Hout by exact Hk'. apply lookup_insert_eq.
    + intros k Hk. apply not_elem_of_cons in Hk as [Hne Hk].
      rewrite Hout by exact Hk. apply lookup_insert_ne. congruence.
Qed.

Lemma map_dependencies_add_all (c : map_class) (gmk : metric_kwargs_fn)
  (map_metric : string) (rf : ResultFormat) (engine : engine_kind) :
  get_validation_dependencies c gmk (Some map_metric) [] rf engine
  = let! m := TableExpectation.add_all gmk
                (map_metric_names c map_metric (result_format rf) engine) ∅ in
    Ret {| dep_result_format := rf; dep_metrics := m |}.
Proof.
  destruct c; unfold get_validation_dependencies,
    ColumnMapExpectation.get_validation_dependencies,
    ColumnPairMapExpectation.get_validation_dependencies, map_metric_names;
    rewrite table_dependencies_nil; simpl;
    (destruct (add_metric gmk "column_values.nonnull.unexpected_count" ∅) as [m1|];
       simpl; [|reflexivity]);
    (destruct (add_metric gmk (map_metric ++ ".unexpected_count") m1) as [m2|];
       simpl; [|reflexivity]).
  - destruct (add_metric gmk "table.row_count" m2) as [m3|]; simpl; [|reflexivity].
    destruct (String.eqb (result_format rf) "BOOLEAN_ONLY"); simpl; [reflexivity|].
    destruct (add_metric gmk (map_metric ++ ".unexpected_values") m3) as [m4|];
      simpl; [|reflexivity].
    destruct (String.eqb (result_format rf) "BASIC" || String.eqb (result_format rf) "SUMMARY");
      simpl; [reflexivity|].
    destruct (add_metric gmk (map_metric ++ ".unexpected_rows") m4) as [m5|];
      simpl; [|reflexivity].
    destruct engine; simpl; [|reflexivity].
    destruct (add_metric gmk (map_metric ++ ".unexpected_index_list") m5); reflexivity.
  - destruct (String.eqb (result_format rf) "BOOLEAN_ONLY"); simpl; [reflexivity|].
    destruct (add_metric gmk "table.row_count" m2) as [m3|]; simpl; [|reflexivity].
    destruct (add_metric gmk (map_metric ++ ".unexpected_values") m3) as [m4|];
      simpl; [|reflexivity].
    destruct (String.eqb (result_format rf) "BASIC" || String.eqb (result_format rf) "SUMMARY");
      simpl; [reflexivity|].
    destruct (add_metric gmk (map_metric ++ ".unexpected_rows") m4) as [m5|];
      simpl; [|reflexivity].
    destruct engine; simpl; [|reflexivity].
    destruct (add_metric gmk (map_metric ++ ".unexpected_index_list") m5); reflexivity.
Qed.

(** The dictionary of a returning call: the names above, each with the
    configuration built from the registry's kwargs. *)
Lemma map_dependencies_inv (c : map_class) (gmk : metric_kwargs_fn)
  (map_metric : string) (rf : ResultFormat) (engine : engine_kind) (d : Dependencies) :
  get_validation_dependencies c gmk (Some map_metric) [] rf engine = Ret d ->
  dep_result_format d = rf /\
  (forall k, k ∈ map_metric_names c map_metric (result_format rf) engine ->
     exists kw, gmk k = Ret kw /\
                dep_metrics d !! k
                = Some {| metric_name := k; metric_domain_kwargs := fst kw;
                          metric_value_kwargs := snd kw |}) /\
  (forall k, k ∉ map_metric_names c map_metric (result_format rf) engine ->
     dep_metrics d !! k = None).
Proof.
  rewrite map_dependencies_add_all.
  destruct (TableExpectation.add_all gmk _ ∅) as [m|] eqn:E; simpl; [|discriminate].
  intros H. inversion H; subst d; simpl. split; [reflexivity|].
  destruct (add_all_spec _ _ _ _ E) as [Hin Hout]. split; [exact Hin|].
  intros k Hk. rewrite Hout by exact Hk. apply lookup_empty.
Qed.

Lemma map_metric_names_elem (c : map_class) (map_metric f : string)
  (engine : engine_kind) (k : string) :
  k ∈ map_metric_names c map_metric f engine <->
  k = "column_values.nonnull.unexpected_count" \/
  k = map_metric ++ ".unexpected_count" \/
  (k = "table.row_count" /\ (c = ColumnMap \/ f <> "BOOLEAN_ONLY")) \/
  (k = map_metric ++ ".unexpected_values" /\ f <> "BOOLEAN_ONLY") \/
  (k = map_metric ++ ".unexpected_rows" /\
   f <> "BOOLEAN_ONLY" /\ f <> "BASIC" /\ f <> "SUMMARY") \/
  (k = map_metric ++ ".unexpected_index_list" /\
   (f <> "BOOLEAN_ONLY" /\ f <> "BASIC" /\ f <> "SUMMARY") /\
   engine = PandasExecutionEngine).
Proof.
  unfold map_metric_names.
  destruct (String.eqb_spec f "BOOLEAN_ONLY") as [->|H0].
  - destruct c; simpl; rewrite ?elem_of_cons, elem_of_nil; intuition (subst; first [congruence | discriminate | auto]).
  - destruct (String.eqb_spec f "BASIC") as [->|H1];
      [destruct c; simpl; rewrite ?elem_of_cons, elem_of_nil; intuition (subst; first [congruence | discriminate | auto])|].
    destruct (String.eqb_spec f "SUMMARY") as [->|H2];
      [destruct c; simpl; rewrite ?elem_of_cons, elem_of_nil; intuition (subst; first [congruence | discriminate | auto])|].
    destruct c, engine; simpl; rewrite ?elem_of_cons, elem_of_nil; intuition (subst; first [congruence | discriminate | auto]).
Qed.

(** X1: what [get_validation_dependencies] of the two map-expectation
    classes asks for, by result format.  The null count and the
    unexpected count are always asked for; the row count always by
    [ColumnMapExpectation] and above BOOLEAN_ONLY by
    [ColumnPairMapExpectation]; the unexpected values above BOOLEAN_ONLY;
    the unexpected rows for every format that is none of BOOLEAN_ONLY,
    BASIC and SUMMARY (COMPLETE, and any unknown name as well); the
    unexpected index list for those formats on a Pandas engine; and
    nothing else. *)
Theorem map_dependencies_by_format (c : map_class) (gmk : metric_kwargs_fn)
  (map_metric : string) (rf : ResultFormat) (engine : engine_kind) (d : Dependencies) :
  get_validation_dependencies c gmk (Some map_metric) [] rf engine = Ret d ->
  forall k, is_Some (dep_metrics d !! k) <->
    k = "column_values.nonnull.unexpected_count" \/
    k = map_metric ++ ".unexpected_count" \/
    (k = "table.row_count" /\ (c = ColumnMap \/ result_format rf <> "BOOLEAN_ONLY")) \/
    (k = map_metric ++ ".unexpected_values" /\ result_format rf <> "BOOLEAN_ONLY") \/
    (k = map_metric ++ ".unexpected_rows" /\
     result_format rf <> "BOOLEAN_ONLY" /\ result_format rf <> "BASIC" /\
     result_format rf <> "SUMMARY") \/
    (k = map_metric ++ ".unexpected_index_list" /\
     (result_format rf <> "BOOLEAN_ONLY" /\ result_format rf <> "BASIC" /\
      result_format rf <> "SUMMARY") /\
     engine = PandasExecutionEngine).
Proof.
  intros H k. destruct (map_dependencies_inv _ _ _ _ _ _ H) as (_ & Hin & Hout).
  rewrite <- map_metric_names_elem. split.
  - intros Hk. destruct (decide (k ∈ map_metric_names c map_metric (result_format rf) engine))
      as [Hk'|Hk']; [exact Hk'|].
    rewrite (Hout k Hk') in Hk. destruct Hk as [x Hx]. discriminate.
  - intros Hk. destruct (Hin k Hk) as (kw & _ & ->). eauto.
Qed.

Lemma map_dependencies_by_format_witness :
  let gmk : metric_kwargs_fn := fun _ => Ret (∅, ∅) in
  exists d,
    get_validation_dependencies ColumnMap gmk (Some "column_values.in_set") []
      {| result_format := "VERBOSE"; partial_unexpected_count := 20 |}
      OtherExecutionEngine = Ret d /\
    is_Some (dep_metrics d !! "column_values.in_set.unexpected_rows") /\
    ~ is_Some (dep_metrics d !! "column_values.in_set.unexpected_index_list").
Proof.
  intros gmk. eexists. split; [reflexivity|].
  pose proof (map_dependencies_by_format ColumnMap gmk "column_values.in_set"
                {| result_format := "VERBOSE"; partial_unexpected_count := 20 |}
                OtherExecutionEngine _ eq_refl) as H.
  split.
  - apply H. simpl. do 4 right. left. repeat split; discriminate.
  - intros Hk. apply H in Hk. simpl in Hk.
    destruct Hk as [Hk|[Hk|[[Hk _]|[[Hk _]|[[Hk _]|(_ & _ & Hk)]]]]]; discriminate.
Defined.

(** X2: every entry of the metrics a map expectation asks for is stored
    under its own metric name and carries the domain and value kwargs the
    registry's [get_metric_kwargs] gives for that name; the result format
    of the dependencies is the one passed in. *)
Theorem map_dependencies_entries (c : map_class) (gmk : metric_kwargs_fn)
  (map_metric : string) (rf : ResultFormat) (engine : engine_kind) (d : Dependencies) :
  get_validation_dependencies c gmk (Some map_metric) [] rf engine = Ret d ->
  dep_result_format d = rf /\
  forall k mc, dep_metrics d !! k = Some mc ->
    metric_name mc = k /\
    gmk k = Ret (metric_domain_kwargs mc, metric_value_kwargs mc).
Proof.
  intros H. destruct (map_dependencies_inv _ _ _ _ _ _ H) as (Hrf & Hin & Hout).
  split; [exact Hrf|]. intros k mc Hk.
  destruct (decide (k ∈ map_metric_names c map_metric (result_format rf) engine))
    as [Hk'|Hk'].
  - destruct (Hin k Hk') as ([dkw vkw] & Hg & Hm). rewrite Hm in Hk.
    inversion Hk; subst mc; simpl. split; [reflexivity|exact Hg].
  - rewrite (Hout k Hk') in Hk. discriminate.
Qed.

Lemma map_dependencies_entries_witness :
  let gmk : metric_kwargs_fn :=
    fun name => Ret ({["column" := UStr "a"]}, {["metric" := UStr name]}) in
  exists d mc,
    get_validation_dependencies ColumnPairMap gmk (Some "column_pair_values.equal") []
      (at_tier SUMMARY 20) PandasExecutionEngine = Ret d /\
    dep_metrics d !! "table.row_count" = Some mc /\
    metric_name mc = "table.row_count" /\
    gmk "table.row_count" = Ret (metric_domain_kwargs mc, metric_value_kwargs mc).
Proof.
  intros gmk. eexists. eexists. split; [reflexivity|]. split; [reflexivity|].
  apply (proj2 (map_dependencies_entries ColumnPairMap gmk "column_pair_values.equal"
                  (at_tier SUMMARY 20) PandasExecutionEngine _ eq_refl)).
  reflexivity.
Defined.




(** X4: for every result format but BOOLEAN_ONLY the two map-expectation
    classes compute the same dependencies: the same metrics, or the same
    exception, whatever the registry, the declared [map_metric] and
    [metric_dependencies] and the engine are. *)
Theorem map_classes_same_dependencies (gmk : metric_kwargs_fn)
  (map_metric : option string) (metric_dependencies : list string)
  (rf : ResultFormat) (engine : engine_kind) :
  result_format rf <> "BOOLEAN_ONLY" ->
  ColumnMapExpectation.get_validation_dependencies gmk map_metric metric_dependencies
    rf engine
  = ColumnPairMapExpectation.get_validation_dependencies gmk map_metric
      metric_dependencies rf engine.
Proof.
  intros H. apply String.eqb_neq in H.
  unfold ColumnMapExpectation.get_validation_dependencies,
    ColumnPairMapExpectation.get_validation_dependencies.
  destruct (TableExpectation.get_validation_dependencies gmk metric_dependencies rf)
    as [deps|] eqn:Ed; simpl; [|reflexivity].
  assert (dep_result_format deps = rf) as Hrf.
  { unfold TableExpectation.get_validation_dependencies in Ed.
    destruct (TableExpectation.add_all _ _ _); simpl in Ed; inversion Ed. reflexivity. }
  rewrite Hrf, H.
  destruct map_metric as [mm|]; simpl; [|reflexivity].
  destruct (py_assert _); simpl; [|reflexivity].
  destruct (add_metric gmk "column_values.nonnull.unexpected_count" _); simpl;
    [|reflexivity].
  destruct (add_metric gmk (mm ++ ".unexpected_count") _); simpl; reflexivity.
Qed.

Lemma map_classes_same_dependencies_witness :
  let gmk : metric_kwargs_fn := fun _ => Ret (∅, ∅) in
  result_format (at_tier COMPLETE 20) <> "BOOLEAN_ONLY" /\
  ColumnMapExpectation.get_validation_dependencies gmk (Some "m") []
    (at_tier COMPLETE 20) OtherExecutionEngine
  = ColumnPairMapExpectation.get_validation_dependencies gmk (Some "m") []
      (at_tier COMPLETE 20) OtherExecutionEngine.
Proof.
  intros gmk. split; [discriminate|].
  apply (map_classes_same_dependencies gmk (Some "m") [] (at_tier COMPLETE 20)
           OtherExecutionEngine).
  discriminate.
Defined.

(** ** The exceptions of the formatter and of [_validate] *)

Lemma int_truediv_raises (a b : Z) (e : exn) :
  b <> 0 -> int_truediv a b = Raise e -> e = OverflowError.
Proof.
  intros Hb. unfold int_truediv. apply Z.eqb_neq in Hb. rewrite Hb.
  destruct (SFdiv prec emax (float_operand a) (float_operand b)); intros H;
    inversion H; reflexivity.
Qed.

Lemma percent_raises (a b : Z) (e : exn) :
  b <> 0 -> percent a b = Raise e -> e = OverflowError.
Proof.
  intros Hb. unfold percent.
  destruct (int_truediv a b) as [q|x] eqn:E; simpl; [discriminate|].
  intros H. inversion H; subst x. exact (int_truediv_raises _ _ _ Hb E).
Qed.

Lemma percents_raises (ec : Z) (nn uc mc : option Z) (e : exn) :
  percents ec nn uc mc = Raise e ->
  (e = TypeError /\ uc = None) \/ e = OverflowError.
Proof.
  unfold percents. destruct (0 <? ec) eqn:E; [|discriminate].
  apply Z.ltb_lt in E.
  destruct uc as [u|]; simpl; [|intros H; inversion H; auto].
  destruct (percent u ec) as [up|x] eqn:E1; simpl.
  - destruct nn as [nnv|]; [|discriminate]. destruct mc as [m|]; [|discriminate].
    destruct (percent m ec) as [mp|x] eqn:E2; simpl.
    + destruct (0 <? nnv) eqn:E3; [|discriminate]. apply Z.ltb_lt in E3.
      destruct (percent u nnv) as [upn|x] eqn:E4; simpl; [discriminate|].
      intros H. inversion H; subst x. right.
      apply (percent_raises u nnv); [lia|exact E4].
    + intros H. inversion H; subst x. right.
      apply (percent_raises m ec); [lia|exact E2].
  - intros H. inversion H; subst x. right.
    apply (percent_raises u ec); [lia|exact E1].
Qed.

Lemma mostly_success_raises (mostly : pynum) (tc nc uc : option Z) (e : exn) :
  mostly_success mostly tc nc uc = Raise e ->
  (e = TypeError /\ uc = None) \/ e = OverflowError.
Proof.
  unfold mostly_success. destruct tc as [t|]; [|discriminate].
  destruct nc as [n|]; [|discriminate].
  destruct (t - n =? 0) eqn:E; [discriminate|]. apply Z.eqb_neq in E.
  destruct uc as [u|]; simpl; [|intros H; inversion H; auto].
  destruct (int_truediv (t - u - n) (t - n)) as [q|x] eqn:Eq; simpl; [discriminate|].
  intros H. inversion H; subst x. right. exact (int_truediv_raises _ _ _ E Eq).
Qed.

Lemma tier_name_cases (f : string) :
  (exists t, f = tier_name t) \/ (forall t, f <> tier_name t).
Proof.
  destruct (String.eqb_spec f "BOOLEAN_ONLY") as [->|H0]; [left; exists BOOLEAN_ONLY; reflexivity|].
  destruct (String.eqb_spec f "BASIC") as [->|H1]; [left; exists BASIC; reflexivity|].
  destruct (String.eqb_spec f "SUMMARY") as [->|H2]; [left; exists SUMMARY; reflexivity|].
  destruct (String.eqb_spec f "COMPLETE") as [->|H3]; [left; exists COMPLETE; reflexivity|].
  right. intros []; assumption.
Qed.

Lemma format_raises (rf : ResultFormat) success ec nn uc ul il (e : exn) :
  _format_map_output rf success ec nn uc ul il = Raise e ->
  result_format rf <> "BOOLEAN_ONLY" /\
  ((e = TypeError /\ (ec = None \/ uc = None \/ ul = None)) \/
   e = OverflowError \/
   (e = ValueError /\ forall t, result_format rf <> tier_name t)).
Proof.
  intros H.
  assert ((let! x := int_operand ec in
           let! ps := percents x nn uc (option_map (fun y => x - y) nn) in
           let! l := list_operand ul in
           (Raise ValueError : res dict)) = Raise e ->
          (e = TypeError /\ (ec = None \/ uc = None \/ ul = None)) \/
          e = OverflowError \/ e = ValueError) as Hcommon.
  { destruct ec as [x|]; simpl; [|intros H'; inversion H'; auto].
    destruct (percents x nn uc _) as [ps|y] eqn:Ep; simpl.
    - destruct ul as [l|]; simpl; intros H'; inversion H'; auto 6.
    - intros H'. inversion H'; subst y.
      destruct (percents_raises _ _ _ _ _ Ep) as [[-> ->] | ->]; auto 6. }
  destruct (tier_name_cases (result_format rf)) as [[t Ht]|Hunknown].
  - assert (rf = at_tier t (partial_unexpected_count rf)) as Hrf
      by (destruct rf; simpl in *; subst; reflexivity).
    rewrite Hrf in H. rewrite format_shape in H.
    destruct t; [discriminate|..]; (split; [rewrite Ht; discriminate|]);
      (destruct ec as [x|]; simpl in H; [|inversion H; auto]);
      (destruct (percents x nn uc _) as [ps|y] eqn:Ep; simpl in H;
       [destruct ul as [l|]; simpl in H; inversion H; auto 6
       |inversion H; subst y;
        destruct (percents_raises _ _ _ _ _ Ep) as [[-> ->] | ->]; auto 6]).
  - split; [apply (Hunknown BOOLEAN_ONLY)|].
    rewrite (format_unknown _ _ _ _ _ _ _ Hunknown) in H.
    destruct (Hcommon H) as [Ht|[Ho|Hv]]; auto.
Qed.

(** X5: the exceptions of [_format_map_output].  It raises a [TypeError]
    only when the element count, the unexpected count or the unexpected
    list is [None], a [ValueError] only for a result format that is none
    of the four, and otherwise only the [OverflowError] of a quotient too
    large for a float.  So it never raises [ZeroDivisionError], it raises
    nothing at BOOLEAN_ONLY, and for one of the four formats with the
    three inputs given it returns unless a quotient overflows. *)
Theorem format_exceptions (rf : ResultFormat) success ec nn uc ul il :
  (forall e,
     _format_map_output rf success ec nn uc ul il = Raise e ->
     result_format rf <> "BOOLEAN_ONLY" /\
     ((e = TypeError /\ (ec = None \/ uc = None \/ ul = None)) \/
      e = OverflowError \/
      (e = ValueError /\ forall t, result_format rf <> tier_name t))) /\
  _format_map_output rf success ec nn uc ul il <> Raise ZeroDivisionError /\
  (forall t e c u l,
     result_format rf = tier_name t -> ec = Some c -> uc = Some u -> ul = Some l ->
     _format_map_output rf success ec nn uc ul il = Raise e -> e = OverflowError).
Proof.
  split; [intros e; apply format_raises|]. split.
  - intros H. apply format_raises in H as [_ [[H _]|[H|[H _]]]]; discriminate.
  - intros t e c u l Ht -> -> -> H.
    apply format_raises in H as [_ [[_ [H|[H|H]]]|[H|[_ H]]]];
      try discriminate; [exact H|]. exfalso. exact (H t Ht).
Qed.

(** On metrics of the expected kinds [_validate] is the success rule
    followed by [_format_map_output]. *)
Lemma validate_typed (c : map_class) (rf : ResultFormat) (mostly : pynum)
  (map_metric : string) (metrics : kwargs) (tc nc uc : option Z)
  (ul il : option (list uval)) :
  count_is metrics "table.row_count" tc ->
  count_is metrics "column_values.nonnull.unexpected_count" nc ->
  count_is metrics (map_metric ++ ".unexpected_count") uc ->
  values_are metrics (map_metric ++ ".unexpected_values") ul ->
  values_are metrics (map_metric ++ ".unexpected_index_list") il ->
  _validate c rf mostly map_metric metrics
  = (let! success := mostly_success mostly tc nc uc in
     _format_map_output rf (Some success) tc (nonnull_of tc nc) uc ul il).
Proof.
  intros Ht Hn Hu Hl Hi.
  rewrite (validate_unfold _ _ _ _ _ _ _ _ Ht Hn Hu).
  rewrite (values_are_get _ _ _ Hl), (values_are_get _ _ _ Hi).
  destruct (mostly_success mostly tc nc uc); [|reflexivity]. cbn [bind].
  apply format_map_output_untyped_typed.
Qed.

(** X6: the metrics a map expectation asks for are enough to validate it.
    When the resolved metrics are of the expected kinds (an integer or
    nothing under each count, a list or nothing under the unexpected
    values and under their index list) and hold each metric asked for,
    [_validate] at the same tier raises no [TypeError], [ValueError] or
    [ZeroDivisionError]: it returns its payload, unless a quotient is too
    large for a float. *)
Theorem requested_metrics_suffice (c : map_class) (gmk : metric_kwargs_fn)
  (map_metric : string) (t : tier) (n : Z) (engine : engine_kind) (d : Dependencies)
  (mostly : pynum) (metrics : kwargs) (e : exn) :
  get_validation_dependencies c gmk (Some map_metric) [] (at_tier t n) engine = Ret d ->
  metrics_provided d map_metric metrics ->
  _validate c (at_tier t n) mostly map_metric metrics = Raise e ->
  e = OverflowError.
Proof.
  intros Hd [Hcounts Hvalues] H.
  destruct (map_dependencies_inv _ _ _ _ _ _ Hd) as (_ & Hin & _).
  assert (forall k, k ∈ map_metric_names c map_metric (tier_name t) engine ->
                    is_Some (dep_metrics d !! k)) as Hsome.
  { intros k Hk. destruct (Hin k Hk) as (kw & _ & ->). eauto. }
  destruct (Hcounts "table.row_count") as (tc & Htc & Htc'); [auto|].
  destruct (Hcounts "column_values.nonnull.unexpected_count") as (nc & Hnc & _); [auto|].
  destruct (Hcounts (map_metric ++ ".unexpected_count")) as (uc & Huc & Huc'); [auto|].
  destruct (Hvalues (map_metric ++ ".unexpected_values")) as (ul & Hul & Hul'); [auto|].
  destruct (Hvalues (map_metric ++ ".unexpected_index_list")) as (il & Hil & _); [auto|].
  rewrite (validate_typed _ _ _ _ _ _ _ _ _ _ Htc Hnc Huc Hul Hil) in H.
  destruct Huc' as [u ->]; [apply Hsome, map_metric_names_elem; auto|].
  destruct (mostly_success mostly tc nc (Some u)) as [s|x] eqn:Es; simpl in H.
  - destruct (format_raises _ _ _ _ _ _ _ _ H) as [Hne [[-> Hnone] | [-> | [_ Hv]]]];
      [|reflexivity|exfalso; exact (Hv t eq_refl)].
    exfalso. simpl in Hne.
    destruct Hnone as [Hnone|[Hnone|Hnone]]; [|discriminate|].
    + destruct Htc' as [x Hx]; [|congruence].
      apply Hsome, map_metric_names_elem. right. right. left. split; [reflexivity|].
      right. exact Hne.
    + destruct Hul' as [x Hx]; [|congruence].
      apply Hsome, map_metric_names_elem. do 3 right. left. split; [reflexivity|exact Hne].
  - inversion H; subst x.
    destruct (mostly_success_raises _ _ _ _ _ Es) as [[_ Hnone] | ->];
      [discriminate|reflexivity].
Qed.

Lemma requested_metrics_suffice_witness :
  let gmk : metric_kwargs_fn := fun _ => Ret (∅, ∅) in
  let metrics : kwargs :=
    <["table.row_count" := UInt 10]>
      (<["column_values.nonnull.unexpected_count" := UInt 2]>
         (<["m.unexpected_count" := UInt 1]>
            (<["m.unexpected_values" := UList [UStr "x"]]> ∅))) in
  exists d,
    get_validation_dependencies ColumnPairMap gmk (Some "m") [] (at_tier SUMMARY 20)
      OtherExecutionEngine = Ret d /\
    metrics_provided d "m" metrics /\
    is_ret (_validate ColumnPairMap (at_tier SUMMARY 20) (NInt 1) "m" metrics) = true /\
    forall e,
      _validate ColumnPairMap (at_tier SUMMARY 20) (NInt 1) "m" metrics = Raise e ->
      e = OverflowError.
Proof.
  intros gmk metrics. eexists. split; [reflexivity|].
  assert (metrics_provided
            {| dep_result_format := at_tier SUMMARY 20;
               dep_metrics :=
                 <["m.unexpected_values" :=
                     {| metric_name := "m.unexpected_values"; metric_domain_kwargs := ∅;
                        metric_value_kwargs := ∅ |}]>
                   (<["table.row_count" :=
                        {| metric_name := "table.row_count"; metric_domain_kwargs := ∅;
                           metric_value_kwargs := ∅ |}]>
                      (<["m.unexpected_count" :=
                           {| metric_name := "m.unexpected_count";
                              metric_domain_kwargs := ∅; metric_value_kwargs := ∅ |}]>
                         (<["column_values.nonnull.unexpected_count" :=
                              {| metric_name := "column_values.nonnull.unexpected_count";
                                 metric_domain_kwargs := ∅;
                                 metric_value_kwargs := ∅ |}]> ∅))) |}
            "m" metrics) as Hp.
  { split.
    - intros k [-> | [-> | ->]];
        [exists (Some 10)|exists (Some 2)|exists (Some 1)];
        (split; [reflexivity|intros _; eexists; reflexivity]).
    - intros k [-> | ->].
      + exists (Some [UStr "x"]). split; [reflexivity|intros _; eexists; reflexivity].
      + exists None. split; [left; reflexivity|].
        intros [x Hx]. exfalso. vm_compute in Hx. discriminate. }
  split; [exact Hp|]. split; [vm_compute; reflexivity|]. intros e.
  apply (requested_metrics_suffice ColumnPairMap gmk "m" SUMMARY 20 OtherExecutionEngine
           _ (NInt 1) metrics e eq_refl Hp).
Defined.

(** A metric of another kind is no metric provided: an integer where the
    index list is expected is a [TypeError] of the slice of lines
    1285-1289. *)
Example validate_index_list_of_another_type (c : map_class) :
  _validate c (at_tier SUMMARY 20) (NInt 1) "m"
    (<["table.row_count" := UInt 10]>
       (<["column_values.nonnull.unexpected_count" := UInt 2]>
          (<["m.unexpected_count" := UInt 1]>
             (<["m.unexpected_values" := UList [UStr "x"]]>
                (<["m.unexpected_index_list" := UInt 5]> ∅)))))
  = Raise TypeError.
Proof. destruct c; vm_compute; reflexivity. Qed.

(** X7: a value that cannot be hashed (a list) among the unexpected values
    does not make the formatter fail.  At SUMMARY and COMPLETE with a
    positive limit the payload is returned as for any other list, with the
    placeholder list in place of the counts. *)
Theorem unhashable_values_placeholder (t : tier) (n : Z) success ec nn uc
  (l : list uval) il (p : dict) :
  t = SUMMARY \/ t = COMPLETE -> 0 < n ->
  (exists x, x ∈ l /\ hashable x = false) ->
  _format_map_output (at_tier t n) success ec nn uc (Some l) il = Ret p ->
  exists r, result_of p = Some r /\
            dict_get "partial_unexpected_counts" r = Some counts_placeholder.
Proof.
  intros Ht Hn (x & Hx & Hh) Hp.
  assert (t <> BOOLEAN_ONLY) as Hne by (destruct Ht as [-> | ->]; discriminate).
  destruct (format_returns_inv _ _ _ _ _ _ _ _ _ Hne Hp)
    as (e & ps & l' & -> & [= <-] & Ep & ->).
  destruct (tier_result t n e nn uc ps l il) as [r|] eqn:Er;
    [|destruct Ht as [-> | ->]; discriminate].
  exists r. split; [reflexivity|].
  rewrite (tier_result_counts t n e nn uc ps l il r Ht Hn Er). f_equal.
  unfold counts_value, sorted_most_common, Counter.
  assert (forallb hashable l = false) as ->; [|reflexivity].
  apply not_true_is_false. intros Hall.
  rewrite forallb_forall in Hall.
  rewrite (Hall x) in Hh; [discriminate|]. apply list_elem_of_In. exact Hx.
Qed.

Lemma unhashable_values_placeholder_witness :
  let l := [UInt 1; UList [UInt 2]] in
  (COMPLETE = SUMMARY \/ COMPLETE = COMPLETE) /\ 0 < 20 /\
  (exists x, x ∈ l /\ hashable x = false) /\
  exists p,
    _format_map_output (at_tier COMPLETE 20) (Some false) (Some 5) (Some 5) (Some 2)
      (Some l) None = Ret p /\
    exists r, result_of p = Some r /\
              dict_get "partial_unexpected_counts" r = Some counts_placeholder.
Proof.
  intros l.
  assert (exists x, x ∈ l /\ hashable x = false) as Hx.
  { exists (UList [UInt 2]). split; [|reflexivity]. right. left. }
  split; [right; reflexivity|]. split; [lia|]. split; [exact Hx|].
  eexists. split; [vm_compute; reflexivity|].
  apply (unhashable_values_placeholder COMPLETE 20 (Some false) (Some 5) (Some 5)
           (Some 2) l None _ (or_intror eq_refl) ltac:(lia) Hx).
  vm_compute. reflexivity.
Defined.

(** ** Compute domains and bundles, further *)

Section ComputeDomainFixpoint.

Context {DataFrame Column : Type}.
Variable df_filter : DataFrame -> uval -> res DataFrame.
Variable df_filter_column : DataFrame -> Column -> res DataFrame.
Variable parse_condition_to_spark : uval -> res Column.

Local Abbreviation compute_domain :=
  (get_compute_domain df_filter df_filter_column parse_condition_to_spark).

(** X8: the compute-domain kwargs [get_compute_domain] returns are a
    compute domain of their own: resolving them gives the same data, the
    same kwargs as compute domain and no accessor kwargs.  (It is what the
    assertion of [resolve_metric_bundle] on its groups asks for.) *)
Theorem compute_domain_fixpoint (self : Engine DataFrame) (dk : kwargs)
  (df : DataFrame) (cdk adk : kwargs) :
  compute_domain self dk = Ret (df, cdk, adk) ->
  compute_domain self cdk = Ret (df, cdk, ∅).
Proof.
  intros H.
  destruct (compute_domain_kwargs_inv _ _ _ _ _ _ _ _ H) as [-> _].
  pose proof (compute_domain_data_congr df_filter df_filter_column
                parse_condition_to_spark self (delete "column" dk) dk) as Hd.
  rewrite H in Hd. simpl in Hd.
  destruct (compute_domain self (delete "column" dk)) as [[[df' cdk'] adk']|] eqn:E.
  - destruct (compute_domain_kwargs_inv _ _ _ _ _ _ _ _ E) as [-> ->].
    rewrite lookup_delete_eq, delete_delete_eq.
    simpl in Hd. assert (df' = df) as ->; [|reflexivity].
    assert (Ret df' = Ret df) as Heq; [|inversion Heq; reflexivity].
    apply Hd. intros k Hk. apply lookup_delete_ne. congruence.
  - simpl in Hd. exfalso.
    assert (Raise e = Ret df) as Heq; [|discriminate].
    apply Hd. intros k Hk. apply lookup_delete_ne. congruence.
Qed.

End ComputeDomainFixpoint.

Lemma compute_domain_fixpoint_witness :
  let compute_domain :=
    get_compute_domain (DataFrame := list Z) (Column := Z)
      (fun d c => Ret (if bool_decide (c = UStr "x > 1") then [2; 3] else d))
      (fun d _ => Ret d) (fun _ => Ret 0) in
  let self := Build_Engine None {["b1" := [1; 2; 3]]} in
  let dk : kwargs :=
    <["batch_id" := UStr "b1"]>
      (<["column" := UStr "x"]>
         (<["row_condition" := UStr "x > 1"]> (<["condition_parser" := UStr "spark"]> ∅))) in
  exists cdk adk,
    compute_domain self dk = Ret ([2; 3], cdk, adk) /\
    compute_domain self cdk = Ret ([2; 3], cdk, ∅).
Proof.
  intros compute_domain self dk.
  do 2 eexists.
  match goal with |- ?x = ?y /\ _ => assert (x = y) as E by reflexivity end.
  split; [exact E|].
  exact (compute_domain_fixpoint _ _ _ self dk _ _ _ E).
Defined.

Section ResolveMetricBundleFurther.

Local Open Scope list_scope.

Context {DataFrame Column Value : Type}.
Variable df_filter : DataFrame -> uval -> res DataFrame.
Variable df_filter_column : DataFrame -> Column -> res DataFrame.
Variable parse_condition_to_spark : uval -> res Column.
Variable df_agg_collect : DataFrame -> list Column -> res (list (list Value)).
Variable to_id : kwargs -> string.

Local Abbreviation aggregates := (list (string * Aggregate Column)).
Local Abbreviation compute_domain :=
  (get_compute_domain df_filter df_filter_column parse_condition_to_spark).
Local Abbreviation run :=
  (run_aggregates df_filter df_filter_column parse_condition_to_spark df_agg_collect).
Local Abbreviation resolve :=
  (resolve_metric_bundle df_filter df_filter_column parse_condition_to_spark
     df_agg_collect to_id).
Local Abbreviation pass :=
  (pass_ok df_filter df_filter_column parse_condition_to_spark df_agg_collect).
Local Abbreviation assign_all m groups passes :=
  (foldl (fun (acc : gmap metric_id Value)
              (gp : (string * Aggregate Column) * (DataFrame * list Value)) =>
            assign_row (ids (snd (fst gp))) (snd (snd gp)) acc)
     m (zip groups passes)).

Lemma group_bundle_raises (bundle : list (BundleEntry Column)) :
  forall aggs : aggregates,
    (exists e, e ∈ bundle /\
               (metric_fn_type e <> "aggregate_fn" \/ raises (metric_provider e))) ->
    raises (group_bundle to_id bundle aggs).
Proof.
  induction bundle as [|e0 rest IH]; intros aggs (e & He & Hbad); [inversion He|].
  simpl. destruct (String.eqb_spec (metric_fn_type e0) "aggregate_fn") as [Hfn|Hfn];
    simpl; [|eexists; reflexivity].
  destruct (metric_provider e0) as [[c dk]|x] eqn:Ep; simpl; [|eexists; reflexivity].
  apply IH. apply elem_of_cons in He as [->|He]; [|eauto].
  exfalso. destruct Hbad as [Hbad|[x Hx]]; [contradiction|congruence].
Qed.

(** X9: nothing is computed for a bundle that cannot be grouped.  An entry
    whose provider is not an aggregate function, or whose provider raises,
    makes [resolve_metric_bundle] raise before any aggregation pass,
    wherever the entry stands in the bundle. *)
Theorem resolve_metric_bundle_invalid_entry (self : Engine DataFrame)
  (bundle : list (BundleEntry Column)) (e : BundleEntry Column) :
  e ∈ bundle ->
  metric_fn_type e <> "aggregate_fn" \/ raises (metric_provider e) ->
  fst (resolve self bundle) = [] /\ raises (snd (resolve self bundle)).
Proof.
  intros He Hbad. unfold resolve_metric_bundle.
  destruct (group_bundle_raises bundle [] (ex_intro _ e (conj He Hbad))) as [x ->].
  split; [reflexivity|]. eexists; reflexivity.
Qed.

(** X10: a group of bundled metrics has to be declared on a compute
    domain.  When the domain kwargs of the entry that opens a domain (the
    first of the bundle with that domain id) have a ['column'] key, the
    call raises and returns no metrics. *)
Theorem resolve_metric_bundle_column_domain (self : Engine DataFrame)
  (bundle : list (BundleEntry Column)) (e : BundleEntry Column) (dk : kwargs) :
  entry_domain_kwargs e = Some dk ->
  head (entries_of to_id (to_id dk) bundle) = Some e ->
  is_Some (dk !! "column") ->
  raises (snd (resolve self bundle)).
Proof.
  intros Hdk Hhead Hcol. unfold resolve_metric_bundle.
  destruct (group_bundle to_id bundle []) as [groups|x] eqn:Eg;
    [|eexists; reflexivity].
  destruct (group_bundle_spec to_id bundle [] groups ltac:(constructor) Eg)
    as (_ & Hnd & Hin & Hget).
  assert (e ∈ bundle /\ entry_domain_id to_id e = Some (to_id dk)) as [He Hid].
  { assert (e ∈ entries_of to_id (to_id dk) bundle) as Hin0.
    { destruct (entries_of to_id (to_id dk) bundle); inversion Hhead. left. }
    unfold entries_of in Hin0. apply list_elem_of_filter in Hin0 as [H1 H2]. auto. }
  destruct (aggregates_get (to_id dk) groups) as [a|] eqn:Ea.
  - specialize (Hget _ _ Ea). simpl in Hget.
    destruct Hget as (_ & _ & e0 & He0 & Hdk0).
    rewrite Hhead in He0. inversion He0; subst e0.
    rewrite Hdk in Hdk0. inversion Hdk0 as [Hdk1].
    apply run_aggregates_raises. exists (to_id dk, a). split.
    + apply aggregates_get_elem; assumption.
    + intros df row ([adk Hcd] & _). simpl in Hcd.
      destruct (compute_domain_kwargs_inv _ _ _ _ _ _ _ _ Hcd) as [Hfix _].
      rewrite <- Hdk1 in Hfix. rewrite Hfix in Hcol.
      rewrite lookup_delete_eq in Hcol. destruct Hcol as [? ?]. discriminate.
  - exfalso. apply aggregates_get_None in Ea. apply Ea, Hin. right. eauto.
Qed.

Lemma assign_row_is_Some (l : list metric_id) (row : list Value)
  (m : gmap metric_id Value) (i : metric_id) :
  length row = length l ->
  is_Some (assign_row l row m !! i) <-> i ∈ l \/ is_Some (m !! i).
Proof.
  revert row m. induction l as [|k l IH]; intros row m Hlen.
  - simpl. rewrite elem_of_nil. tauto.
  - destruct row as [|v row]; [discriminate|]. simpl in Hlen |- *.
    rewrite IH by lia. rewrite elem_of_cons.
    destruct (decide (i = k)) as [->|Hne].
    + rewrite lookup_insert_eq. split; [auto|]. intros _. right. eauto.
    + rewrite lookup_insert_ne by congruence. tauto.
Qed.

Lemma assign_all_is_Some (aggs : aggregates) :
  forall (passes : list (DataFrame * list Value)) (m : gmap metric_id Value) (i : metric_id),
    Forall2 (fun g p => length (snd p) = length (ids (snd g))) aggs passes ->
    is_Some (assign_all m aggs passes !! i)
    <-> i ∈ mjoin ((fun g => ids (snd g)) <$> aggs) \/ is_Some (m !! i).
Proof.
  induction aggs as [|g aggs IH]; intros passes m i Hlen.
  - simpl. rewrite elem_of_nil. tauto.
  - destruct passes as [|p passes]; [inversion Hlen|].
    apply Forall2_cons in Hlen as [Hlen0 Hlen]. simpl.
    rewrite (IH passes _ i Hlen), assign_row_is_Some by exact Hlen0.
    rewrite elem_of_app. tauto.
Qed.

(** X11: the dictionary [resolve_metric_bundle] returns has exactly the
    metric ids of the bundle as its keys: every metric of the bundle is
    resolved, and nothing else is. *)
Theorem resolve_metric_bundle_keys (self : Engine DataFrame)
  (bundle : list (BundleEntry Column))
  (calls : list (DataFrame * list Column)) (resolved : gmap metric_id Value) :
  resolve self bundle = (calls, Ret resolved) ->
  forall i, is_Some (resolved !! i) <-> i ∈ entry_id <$> bundle.
Proof.
  intros H i. unfold resolve_metric_bundle in H.
  destruct (group_bundle to_id bundle []) as [groups|] eqn:Eg; [|inversion H].
  destruct (group_bundle_spec to_id bundle [] groups ltac:(constructor) Eg)
    as (Hall & Hnd & Hin & Hget).
  destruct (run_aggregates_returns _ _ _ _ self groups _ _ _ _ H)
    as (passes & Hpass & _ & ->).
  rewrite assign_all_is_Some
    by (eapply Forall2_impl; [exact Hpass|]; intros g p (_ & _ & Hlen); exact Hlen).
  rewrite lookup_empty.
  assert (forall d a, (d, a) ∈ groups -> ids a = entry_id <$> entries_of to_id d bundle)
    as Hids.
  { intros d a Hda. apply (aggregates_get_elem d a groups Hnd) in Hda.
    specialize (Hget d a Hda). simpl in Hget. tauto. }
  split.
  - intros [Hi|[? Hx]]; [|discriminate].
    apply list_elem_of_join in Hi as (l & Hil & Hl).
    apply list_elem_of_fmap in Hl as ([d a] & -> & Hda). simpl in Hil.
    rewrite (Hids d a Hda) in Hil.
    apply list_elem_of_fmap in Hil as (e & -> & He).
    unfold entries_of in He. apply list_elem_of_filter in He as [_ He].
    apply list_elem_of_fmap. eauto.
  - intros Hi. left.
    apply list_elem_of_fmap in Hi as (e & -> & He).
    rewrite Forall_forall in Hall. destruct (Hall e He) as [_ [d Hd]].
    assert (d ∈ groups.*1) as Hdg by (apply Hin; right; eauto).
    apply list_elem_of_fmap in Hdg as ([d' a] & Heq & Hda). simpl in Heq. subst d'.
    apply list_elem_of_join. exists (ids a). split.
    + rewrite (Hids d a Hda). apply list_elem_of_fmap. exists e. split; [reflexivity|].
      unfold entries_of. apply list_elem_of_filter. auto.
    + apply list_elem_of_fmap. exists (d, a). auto.
Qed.

End ResolveMetricBundleFurther.

(** ** The limit of a batch and the name of an eval column *)

(** X12: [process_batch_definition] touches the ['limit'] of the batch
    spec only.  A limit of the batch spec that is true (not [None], not 0)
    is kept; otherwise the limit of the batch definition is taken, unless
    it is [None] or missing; and processing a second time changes
    nothing. *)
Theorem process_batch_definition_limit (batch_definition batch_spec : kwargs) :
  (forall k, k <> "limit" ->
     process_batch_definition batch_definition batch_spec !! k = batch_spec !! k) /\
  (truthy (kw_get batch_spec "limit") = true ->
   process_batch_definition batch_definition batch_spec = batch_spec) /\
  (kw_get batch_definition "limit" = UNone ->
   process_batch_definition batch_definition batch_spec = batch_spec) /\
  (truthy (kw_get batch_spec "limit") = false ->
   kw_get batch_definition "limit" <> UNone ->
   process_batch_definition batch_definition batch_spec !! "limit"
   = Some (kw_get batch_definition "limit")) /\
  process_batch_definition batch_definition
    (process_batch_definition batch_definition batch_spec)
  = process_batch_definition batch_definition batch_spec.
Proof.
  unfold process_batch_definition.
  destruct (bool_decide (kw_get batch_definition "limit" = UNone)) eqn:En; simpl.
  - apply bool_decide_eq_true in En.
    split; [reflexivity|]. split; [reflexivity|]. split; [reflexivity|].
    split; [congruence|reflexivity].
  - apply bool_decide_eq_false in En.
    destruct (truthy (kw_get batch_spec "limit")) eqn:Et; simpl.
    + split; [reflexivity|]. split; [reflexivity|]. split; [congruence|].
      split; [discriminate|]. rewrite Et. reflexivity.
    + split; [intros k Hk; apply lookup_insert_ne; congruence|].
      split; [discriminate|]. split; [congruence|].
      split; [intros _ _; apply lookup_insert_eq|].
      destruct (truthy (kw_get (<["limit" := kw_get batch_definition "limit"]> batch_spec)
                          "limit")); simpl; [reflexivity|].
      apply insert_insert_eq.
Qed.

Lemma chars_app (s t : string) : chars (s ++ t) = (chars s ++ chars t)%list.
Proof.
  unfold chars. induction s as [|a s IH]; simpl; [reflexivity|].
  rewrite IH. reflexivity.
Qed.

Lemma chars_cons (a : ascii) (s : string) : chars (String a s) = a :: chars s.
Proof. reflexivity. Qed.

Lemma str_replace_chars (old : ascii) (new s : string) (c : ascii) :
  c ∈ chars (str_replace old new s) ->
  (c ∈ chars s /\ c <> old) \/ (c ∈ chars new /\ old ∈ chars s).
Proof.
  induction s as [|a s IH]; cbn [str_replace]; [intros H; inversion H|].
  rewrite chars_cons. destruct (Ascii.eqb_spec a old) as [->|Hne].
  - rewrite chars_app, elem_of_app. intros [H|H].
    + right. split; [exact H|left].
    + destruct (IH H) as [[H1 H2]|[H1 H2]]; [left|right]; split; auto; right; assumption.
  - rewrite chars_cons, elem_of_cons. intros [->|H].
    + left. split; [left|exact Hne].
    + destruct (IH H) as [[H1 H2]|[H1 H2]]; [left|right]; split; auto; right; assumption.
Qed.

Lemma str_replace_id (old : ascii) (new s : string) :
  old ∉ chars s -> str_replace old new s = s.
Proof.
  induction s as [|a s IH]; cbn [str_replace]; [reflexivity|].
  rewrite chars_cons. intros H. apply not_elem_of_cons in H as [Hne H].
  destruct (Ascii.eqb_spec a old) as [->|_]; [congruence|].
  rewrite IH by exact H. reflexivity.
Qed.

(** X13: the name [_get_eval_column_name] gives a column holds neither a
    dot nor a backquote; it is ["__eval_col_"] followed by the column
    name itself when the column name holds none.  Two columns can get the
    same name. *)
Theorem eval_column_name_characters (column : string) :
  (forall c, c ∈ chars (_get_eval_column_name column) ->
     c <> "."%char /\ c <> "`"%char) /\
  ((forall c, c ∈ chars column -> c <> "."%char /\ c <> "`"%char) ->
   _get_eval_column_name column = "__eval_col_" ++ column) /\
  _get_eval_column_name "a.b" = _get_eval_column_name "a__b".
Proof.
  split; [|split].
  - intros c Hc. unfold _get_eval_column_name in Hc.
    rewrite chars_app in Hc. apply elem_of_app in Hc as [Hc|Hc].
    + unfold chars in Hc. simpl in Hc. rewrite !elem_of_cons, elem_of_nil in Hc.
      split; intros ->; repeat destruct Hc as [Hc|Hc]; try discriminate; assumption.
    + apply str_replace_chars in Hc as [[Hc Hne]|[Hc _]].
      * split; [|exact Hne].
        apply str_replace_chars in Hc as [[_ Hne']|[Hc _]]; [exact Hne'|].
        unfold chars in Hc. simpl in Hc. rewrite !elem_of_cons, elem_of_nil in Hc.
        intros ->. repeat destruct Hc as [Hc|Hc]; try discriminate; assumption.
      * unfold chars in Hc. simpl in Hc. rewrite !elem_of_cons, elem_of_nil in Hc.
        split; intros ->; repeat destruct Hc as [Hc|Hc]; try discriminate; assumption.
  - intros Hclean. unfold _get_eval_column_name.
    rewrite (str_replace_id "." "__" column)
      by (intros Hc; destruct (Hclean _ Hc); congruence).
    rewrite (str_replace_id "`" "_" column)
      by (intros Hc; destruct (Hclean _ Hc); congruence).
    reflexivity.
  - reflexivity.
Qed.

(** ** Expectation types *)

Lemma lower_char_not_upper (c : ascii) : is_upper (lower_char c) = false.
Proof. destruct c as [[] [] [] [] [] [] [] []]; reflexivity. Qed.

Lemma lower_char_ascii (c : ascii) : is_ascii c = true -> is_ascii (lower_char c) = true.
Proof. destruct c as [[] [] [] [] [] [] [] []]; intros H; try discriminate H; reflexivity. Qed.

Lemma sub_p1_no_upper (name : string) :
  (forall c, c ∈ chars name -> is_upper c = false) ->
  forall in_match, sub_p1 in_match name = name.
Proof.
  induction name as [|c rest IH]; intros H in_match; [reflexivity|].
  assert (forall b, sub_p1 b rest = rest) as IH'.
  { apply IH. intros x Hx. apply H. rewrite chars_cons. right. exact Hx. }
  cbn [sub_p1]. destruct (in_match && is_lower c); [rewrite IH'; reflexivity|].
  destruct rest as [|u [|l tail]]; try (rewrite IH'; reflexivity).
  assert (is_upper u = false) as ->
    by (apply H; rewrite !chars_cons; right; left).
  rewrite andb_false_r. simpl andb. cbv iota. rewrite IH'. reflexivity.
Qed.

Lemma sub_p2_no_upper (name : string) :
  (forall c, c ∈ chars name -> is_upper c = false) -> sub_p2 name = name.
Proof.
  induction name as [|c rest IH]; intros H; [reflexivity|].
  assert (sub_p2 rest = rest) as IH'.
  { apply IH. intros x Hx. apply H. rewrite chars_cons. right. exact Hx. }
  cbn [sub_p2]. destruct rest as [|u tail]; [reflexivity|].
  assert (is_upper u = false) as ->
    by (apply H; rewrite !chars_cons; right; left).
  rewrite andb_false_r. rewrite IH'. reflexivity.
Qed.

(** The substitutions add underscores and nothing else. *)
Lemma sub_p1_chars (name : string) (in_match : bool) (c : ascii) :
  c ∈ chars (sub_p1 in_match name) -> c ∈ chars name \/ c = "_"%char.
Proof.
  assert (exists n, String.length name <= n)%nat as [n Hle] by (eexists; reflexivity).
  revert name in_match Hle. induction n as [|n IH]; intros name in_match Hle.
  - destruct name; [intros H; inversion H|simpl in Hle; lia].
  - destruct name as [|a rest]; [intros H; inversion H|].
    simpl in Hle. cbn [sub_p1].
    assert (forall b, c ∈ chars (String a (sub_p1 b rest)) ->
                      c ∈ chars (String a rest) \/ c = "_"%char) as Hrest.
    { intros b. rewrite !chars_cons, !elem_of_cons. intros [->|H]; [auto|].
      destruct (IH rest b ltac:(lia) H); auto. }
    destruct (in_match && is_lower a); [apply Hrest|].
    destruct rest as [|u [|l tail]]; try apply Hrest.
    destruct (negb (Ascii.eqb a newline) && is_upper u && is_lower l); [|apply Hrest].
    rewrite !chars_cons, !elem_of_cons. intros [->|[->|[->|H]]]; auto.
    destruct (IH (String l tail) true ltac:(simpl in *; lia) H) as [H'|H']; auto.
    rewrite chars_cons, elem_of_cons in H'. destruct H'; auto.
Qed.

Lemma sub_p2_chars (name : string) (c : ascii) :
  c ∈ chars (sub_p2 name) -> c ∈ chars name \/ c = "_"%char.
Proof.
  assert (exists n, String.length name <= n)%nat as [n Hle] by (eexists; reflexivity).
  revert name Hle. induction n as [|n IH]; intros name Hle.
  - destruct name; [intros H; inversion H|simpl in Hle; lia].
  - destruct name as [|a rest]; [intros H; inversion H|].
    simpl in Hle. cbn [sub_p2].
    destruct rest as [|u tail]; [auto|].
    destruct ((is_lower a || is_digit a) && is_upper u).
    + rewrite !chars_cons, !elem_of_cons. intros [->|[->|[->|H]]]; auto.
      destruct (IH tail ltac:(simpl in *; lia) H); auto.
    + rewrite !chars_cons, !elem_of_cons. intros [->|H]; [auto|].
      destruct (IH (String u tail) ltac:(lia) H) as [H'|H']; auto.
      rewrite chars_cons, elem_of_cons in H'. destruct H'; auto.
Qed.

Lemma lower_ascii (s : string) :
  (forall c, c ∈ chars s -> is_ascii c = true) ->
  exists s', lower s = Some s' /\
             (forall c, c ∈ chars s' -> is_upper c = false /\ is_ascii c = true) /\
             ((forall c, c ∈ chars s -> is_upper c = false) -> s' = s).
Proof.
  induction s as [|a rest IH]; intros H.
  - exists "". split; [reflexivity|]. split; [intros c Hc; inversion Hc|reflexivity].
  - destruct IH as (rest' & Hrest & Hlow & Hsame).
    { intros c Hc. apply H. rewrite chars_cons. right. exact Hc. }
    assert (is_ascii a = true) as Ha by (apply H; rewrite chars_cons; left).
    exists (String (lower_char a) rest'). cbn [lower]. rewrite Ha, Hrest.
    split; [reflexivity|]. split.
    + intros c. rewrite chars_cons, elem_of_cons. intros [->|Hc]; [|auto].
      split; [apply lower_char_not_upper|apply lower_char_ascii, Ha].
    + intros Hup. rewrite Hsame by (intros c Hc; apply Hup; rewrite chars_cons; right; exact Hc).
      unfold lower_char. rewrite (Hup a) by (rewrite chars_cons; left). reflexivity.
Qed.

Lemma camel_to_snake_no_upper (s : string) :
  (forall c, c ∈ chars s -> is_upper c = false /\ is_ascii c = true) ->
  camel_to_snake s = Some s.
Proof.
  intros H. unfold camel_to_snake.
  rewrite (sub_p1_no_upper s) by (intros c Hc; apply H, Hc).
  rewrite (sub_p2_no_upper s) by (intros c Hc; apply H, Hc).
  destruct (lower_ascii s) as (s' & Hs' & _ & Hsame); [intros c Hc; apply H, Hc|].
  rewrite Hs'. f_equal. apply Hsame. intros c Hc. apply H, Hc.
Qed.

(** X14: for a class name of ASCII characters [camel_to_snake] gives an
    expectation type, which has no capital letter; a name without capital
    letters is left as it is, so that converting a second time changes
    nothing.  The class [ExpectColumnValuesToNotMatchLikePatternList] gets
    the type [expect_column_values_to_not_match_like_pattern_list]. *)
Theorem camel_to_snake_lower_case (name : string) :
  forallb is_ascii (chars name) = true ->
  (exists s,
     camel_to_snake name = Some s /\
     (forall c, c ∈ chars s -> is_upper c = false) /\
     ((forall c, c ∈ chars name -> is_upper c = false) -> s = name) /\
     camel_to_snake s = Some s) /\
  camel_to_snake "ExpectColumnValuesToNotMatchLikePatternList"
  = Some (class_expectation_type ExpectColumnValuesToNotMatchLikePatternList).
Proof.
  intros Hascii. split; [|vm_compute; reflexivity].
  rewrite forallb_forall in Hascii.
  assert (forall c, c ∈ chars (sub_p2 (sub_p1 false name)) -> is_ascii c = true) as Hsub.
  { intros c Hc. apply sub_p2_chars in Hc as [Hc| ->]; [|reflexivity].
    apply sub_p1_chars in Hc as [Hc| ->]; [|reflexivity].
    apply Hascii, list_elem_of_In, Hc. }
  destruct (lower_ascii _ Hsub) as (s & Hs & Hlow & Hsame).
  exists s. split; [exact Hs|]. split; [intros c Hc; apply Hlow, Hc|]. split.
  - intros Hup.
    assert (camel_to_snake name = Some name) as Hname.
    { apply camel_to_snake_no_upper. intros c Hc. split; [apply Hup, Hc|].
      apply Hascii, list_elem_of_In, Hc. }
    unfold camel_to_snake in Hname. rewrite Hs in Hname. congruence.
  - apply camel_to_snake_no_upper, Hlow.
Qed.

Lemma camel_to_snake_lower_case_witness :
  forallb is_ascii (chars "ExpectTableRowCountToBeBetween") = true /\
  exists s,
    camel_to_snake "ExpectTableRowCountToBeBetween" = Some s /\
    s = "expect_table_row_count_to_be_between" /\
    camel_to_snake s = Some s.
Proof.
  split; [reflexivity|].
  destruct (proj1 (camel_to_snake_lower_case "ExpectTableRowCountToBeBetween" eq_refl))
    as (s & Hs & _ & _ & Hagain).
  exists s. split; [exact Hs|]. split; [|exact Hagain].
  vm_compute in Hs. injection Hs as <-. reflexivity.
Defined.

(** Beyond ASCII the lower case is not embedded. *)
Example camel_to_snake_beyond_ascii : camel_to_snake "É" = None.
Proof. reflexivity. Qed.

(** ** The kwargs of a configuration *)

Lemma foldl_insert_lookup (f : string -> pyval) (keys : list string) :
  forall (acc : gmap string pyval) (k : string),
    foldl (fun acc key => <[key := f key]> acc) acc keys !! k
    = if decide (k ∈ keys) then Some (f k) else acc !! k.
Proof.
  induction keys as [|a keys IH]; intros acc k; cbn [foldl].
  - destruct (decide (k ∈ [])) as [H|_]; [inversion H|reflexivity].
  - rewrite IH. destruct (decide (k ∈ keys)) as [Hk|Hk];
      destruct (decide (k ∈ a :: keys)) as [Hk'|Hk'].
    + reflexivity.
    + exfalso. apply Hk'. right. exact Hk.
    + apply elem_of_cons in Hk' as [->|Hk']; [apply lookup_insert_eq|contradiction].
    + apply not_elem_of_cons in Hk' as [Hne _]. apply lookup_insert_ne. congruence.
Qed.

Lemma kwargs_for_lookup (self : ExpectationObject) (c : ExpectationConfiguration)
  (keys : list string) (k : string) :
  kwargs_for self c keys !! k
  = if decide (k ∈ keys) then Some (kwarg_or_default self c k) else None.
Proof.
  unfold kwargs_for. rewrite foldl_insert_lookup, lookup_empty. reflexivity.
Qed.

Lemma kwargs_for_dom (self : ExpectationObject) (c : ExpectationConfiguration)
  (keys : list string) :
  dom (kwargs_for self c keys) = list_to_set keys.
Proof.
  apply set_eq. intros k. rewrite elem_of_dom, kwargs_for_lookup, elem_of_list_to_set.
  destruct (decide (k ∈ keys)) as [Hk|Hk]; split; intros H; try exact Hk; eauto.
  - destruct H as [? ?]. discriminate.
  - contradiction.
Qed.

Lemma get_domain_kwargs_some (self : ExpectationObject) (c : ExpectationConfiguration) :
  get_domain_kwargs self (Some c)
  = inr (kwargs_for self c (domain_keys (class_of self))).
Proof.
  unfold get_domain_kwargs. simpl.
  rewrite kwargs_for_dom, difference_diag_L.
  rewrite bool_decide_eq_true_2 by reflexivity. reflexivity.
Qed.

(** X15: [get_domain_kwargs] never raises [InvalidExpectationKwargsError]:
    no domain key can be missing from the dictionary it builds.  Given a
    configuration it returns a dictionary whose keys are the domain keys
    of the class, each with the kwarg of the configuration, else the
    default of the class, else [None]. *)
Theorem get_domain_kwargs_never_missing (self : ExpectationObject)
  (given : option ExpectationConfiguration) :
  (forall missing_kwargs,
     get_domain_kwargs self given <> inl (InvalidExpectationKwargsError missing_kwargs)) /\
  (forall c, given = Some c ->
     exists domain_kwargs,
       get_domain_kwargs self given = inr domain_kwargs /\
       dom domain_kwargs = list_to_set (domain_keys (class_of self)) /\
       forall k, k ∈ domain_keys (class_of self) ->
         domain_kwargs !! k
         = Some (match configuration_kwargs c !! k with
                 | Some v => v
                 | None =>
                     match default_kwarg_values (class_of self) !! k with
                     | Some v => v
                     | None => PNone
                     end
                 end)).
Proof.
  split.
  - intros m. destruct given as [c|].
    + rewrite get_domain_kwargs_some. discriminate.
    + unfold get_domain_kwargs, configuration_or_own, configuration.
      destruct (_configuration self) as [c|] eqn:Ec; simpl; [|discriminate].
      pose proof (get_domain_kwargs_some self c) as H.
      unfold get_domain_kwargs in H. simpl in H. rewrite H. discriminate.
  - intros c ->. eexists. split; [apply get_domain_kwargs_some|].
    split; [apply kwargs_for_dom|].
    intros k Hk. rewrite kwargs_for_lookup, decide_True by exact Hk.
    unfold kwarg_or_default, dict_get_default, dict_get_none, dict_get_default.
    destruct (configuration_kwargs c !! k); simpl; [reflexivity|].
    destruct (default_kwarg_values (class_of self) !! k); reflexivity.
Qed.

Lemma get_success_kwargs_some (self : ExpectationObject) (c : ExpectationConfiguration) :
  get_success_kwargs self (Some c)
  = inr (kwargs_for self c (domain_keys (class_of self))
         ∪ kwargs_for self c (success_keys (class_of self))).
Proof.
  unfold get_success_kwargs. simpl. rewrite get_domain_kwargs_some. reflexivity.
Qed.

Lemma success_kwargs_lookup (self : ExpectationObject) (c : ExpectationConfiguration)
  (k : string) :
  (kwargs_for self c (domain_keys (class_of self))
   ∪ kwargs_for self c (success_keys (class_of self))) !! k
  = if decide (k ∈ (domain_keys (class_of self) ++ success_keys (class_of self))%list)
    then Some (kwarg_or_default self c k) else None.
Proof.
  rewrite lookup_union, !kwargs_for_lookup.
  destruct (decide (k ∈ domain_keys (class_of self))) as [H1|H1];
    destruct (decide (k ∈ success_keys (class_of self))) as [H2|H2]; simpl;
    [rewrite decide_True by (apply elem_of_app; auto); reflexivity..|].
  rewrite decide_False; [reflexivity|]. rewrite elem_of_app. tauto.
Qed.

(** X16: the success kwargs are the kwargs of the success keys and of the
    domain keys of the class, and of no other key: each is the kwarg of
    the configuration, else the default of the class, else [None]. *)
Theorem get_success_kwargs_lookup (self : ExpectationObject)
  (c : ExpectationConfiguration) :
  exists success_kwargs,
    get_success_kwargs self (Some c) = inr success_kwargs /\
    forall k,
      success_kwargs !! k
      = if decide (k ∈ success_keys (class_of self) \/ k ∈ domain_keys (class_of self))
        then Some (dict_get_default (configuration_kwargs c) k
                     (dict_get_none (default_kwarg_values (class_of self)) k))
        else None.
Proof.
  eexists. split; [apply get_success_kwargs_some|].
  intros k. rewrite success_kwargs_lookup.
  destruct (decide (k ∈ (domain_keys (class_of self) ++ success_keys (class_of self))%list))
    as [H|H]; rewrite elem_of_app in H.
  - rewrite decide_True by tauto. reflexivity.
  - rewrite decide_False by tauto. reflexivity.
Qed.

Section RuntimeKwargsProperties.

Variable parse_result_format : pyval -> outcome pyval.

Lemma runtime_kwargs_lookup (self : ExpectationObject) (c : ExpectationConfiguration)
  (k : string) :
  ((kwargs_for self c (domain_keys (class_of self))
    ∪ kwargs_for self c (success_keys (class_of self)))
   ∪ kwargs_for self c (runtime_keys (class_of self))) !! k
  = if decide (k ∈ get_allowed_config_keys (class_of self))
    then Some (kwarg_or_default self c k) else None.
Proof.
  rewrite lookup_union, success_kwargs_lookup, kwargs_for_lookup.
  unfold get_allowed_config_keys. rewrite app_assoc.
  destruct (decide (k ∈ (domain_keys (class_of self) ++ success_keys (class_of self))%list))
    as [H1|H1];
    destruct (decide (k ∈ runtime_keys (class_of self))) as [H2|H2]; simpl;
    [rewrite decide_True by (apply elem_of_app; auto); reflexivity..|].
  rewrite decide_False; [reflexivity|]. rewrite elem_of_app. tauto.
Qed.

Lemma get_runtime_kwargs_some (self : ExpectationObject) (c : ExpectationConfiguration)
  (runtime_configuration : option (gmap string pyval)) :
  get_runtime_kwargs parse_result_format self (Some c) runtime_configuration
  = let c' := with_runtime_configuration c runtime_configuration in
    if decide ("result_format" ∈ get_allowed_config_keys (class_of self)) then
      let? parsed := parse_result_format (kwarg_or_default self c' "result_format") in
      inr (<["result_format" := parsed]>
             ((kwargs_for self c' (domain_keys (class_of self))
               ∪ kwargs_for self c' (success_keys (class_of self)))
              ∪ kwargs_for self c' (runtime_keys (class_of self))))
    else inl (KeyError "result_format").
Proof.
  unfold get_runtime_kwargs. simpl. rewrite get_success_kwargs_some. simpl.
  rewrite runtime_kwargs_lookup.
  destruct (decide ("result_format" ∈ get_allowed_config_keys (class_of self)));
    reflexivity.
Qed.

(** The kwargs of the configuration once the runtime configuration is
    merged in. *)
Lemma with_runtime_configuration_kwargs (c : ExpectationConfiguration)
  (runtime_configuration : option (gmap string pyval)) :
  configuration_kwargs (with_runtime_configuration c runtime_configuration)
  = default ∅ runtime_configuration ∪ configuration_kwargs c.
Proof.
  unfold with_runtime_configuration, dict_truthy.
  destruct runtime_configuration as [rc|]; simpl.
  - destruct (decide (rc = ∅)) as [->|Hne].
    + rewrite bool_decide_eq_true_2 by reflexivity. simpl.
      rewrite (left_id_L ∅ (∪)). reflexivity.
    + rewrite bool_decide_eq_false_2 by exact Hne. reflexivity.
  - rewrite (left_id_L ∅ (∪)). reflexivity.
Qed.

Lemma kwarg_or_default_runtime (self : ExpectationObject) (c : ExpectationConfiguration)
  (runtime_configuration : option (gmap string pyval)) (k : string) :
  kwarg_or_default self (with_runtime_configuration c runtime_configuration) k
  = match default ∅ runtime_configuration !! k with
    | Some v => v
    | None => kwarg_or_default self c k
    end.
Proof.
  unfold kwarg_or_default, dict_get_default.
  rewrite with_runtime_configuration_kwargs, lookup_union.
  destruct (default ∅ runtime_configuration !! k);
    destruct (configuration_kwargs c !! k); reflexivity.
Qed.

(** X17: the runtime kwargs are resolved in three steps.  For every key
    the class allows (domain, success and runtime keys) other than
    ['result_format'], the value is the one of the runtime configuration
    when it has the key, else the kwarg of the configuration, else the
    default of the class, else [None]; a key the class does not allow is
    left out, whatever the runtime configuration holds. *)
Theorem get_runtime_kwargs_precedence (self : ExpectationObject)
  (c : ExpectationConfiguration) (runtime_configuration : option (gmap string pyval))
  (runtime_kwargs : gmap string pyval) :
  get_runtime_kwargs parse_result_format self (Some c) runtime_configuration
  = inr runtime_kwargs ->
  forall k, k <> "result_format" ->
    runtime_kwargs !! k
    = if decide (k ∈ get_allowed_config_keys (class_of self)) then
        Some (match default ∅ runtime_configuration !! k with
              | Some v => v
              | None =>
                  match configuration_kwargs c !! k with
                  | Some v => v
                  | None => dict_get_none (default_kwarg_values (class_of self)) k
                  end
              end)
      else None.
Proof.
  intros H k Hk. rewrite get_runtime_kwargs_some in H. cbv zeta in H.
  destruct (decide ("result_format" ∈ get_allowed_config_keys (class_of self)))
    as [Hin|Hin]; [|discriminate].
  destruct (parse_result_format _) as [x|parsed]; simpl in H; [discriminate|].
  inversion H; subst runtime_kwargs.
  rewrite lookup_insert_ne by congruence.
  rewrite runtime_kwargs_lookup, kwarg_or_default_runtime.
  unfold kwarg_or_default, dict_get_default.
  destruct (configuration_kwargs c !! k); reflexivity.
Qed.

(** X18: the result format [get_runtime_kwargs] parses, and so the one the
    dependencies are computed for, is the result format [_validate]
    resolves: with ['result_format'] among the keys of the class, the
    call returns exactly when [parse_result_format] accepts that value,
    and its ['result_format'] is the parsed value; with ['result_format']
    no key of the class the call raises [KeyError]. *)
Theorem get_runtime_kwargs_result_format (self : ExpectationObject)
  (c : ExpectationConfiguration) (runtime_configuration : option (gmap string pyval)) :
  ("result_format" ∈ get_allowed_config_keys (class_of self) ->
   forall runtime_kwargs,
     get_runtime_kwargs parse_result_format self (Some c) runtime_configuration
     = inr runtime_kwargs <->
     exists parsed,
       parse_result_format (_validate_result_format self c runtime_configuration)
       = inr parsed /\
       runtime_kwargs
       = <["result_format" := parsed]>
           (kwargs_for self (with_runtime_configuration c runtime_configuration)
              (get_allowed_config_keys (class_of self)))) /\
  ("result_format" ∉ get_allowed_config_keys (class_of self) ->
   get_runtime_kwargs parse_result_format self (Some c) runtime_configuration
   = inl (KeyError "result_format")).
Proof.
  assert (kwarg_or_default self (with_runtime_configuration c runtime_configuration)
            "result_format"
          = _validate_result_format self c runtime_configuration) as Hraw.
  { rewrite kwarg_or_default_runtime. unfold _validate_result_format, dict_truthy.
    destruct runtime_configuration as [rc|]; simpl; [|reflexivity].
    destruct (decide (rc = ∅)) as [->|Hne].
    - rewrite bool_decide_eq_true_2 by reflexivity. reflexivity.
    - rewrite bool_decide_eq_false_2 by exact Hne. reflexivity. }
  split.
  - intros Hin runtime_kwargs. rewrite get_runtime_kwargs_some. cbv zeta.
    rewrite decide_True by exact Hin. rewrite Hraw.
    assert ((kwargs_for self (with_runtime_configuration c runtime_configuration)
               (domain_keys (class_of self))
             ∪ kwargs_for self (with_runtime_configuration c runtime_configuration)
                 (success_keys (class_of self)))
            ∪ kwargs_for self (with_runtime_configuration c runtime_configuration)
                (runtime_keys (class_of self))
            = kwargs_for self (with_runtime_configuration c runtime_configuration)
                (get_allowed_config_keys (class_of self))) as ->.
    { apply map_eq. intros k. rewrite runtime_kwargs_lookup, kwargs_for_lookup.
      reflexivity. }
    destruct (parse_result_format _) as [e|parsed]; simpl.
    + split; [discriminate|]. intros (p & Hp & _). discriminate.
    + split.
      * intros H. inversion H. eauto.
      * intros (p & Hp & ->). inversion Hp. reflexivity.
  - intros Hout. rewrite get_runtime_kwargs_some. cbv zeta.
    rewrite decide_False by exact Hout. reflexivity.
Qed.

End RuntimeKwargsProperties.

Lemma get_runtime_kwargs_precedence_witness :
  let parse : pyval -> outcome pyval :=
    fun v => inr (PDict [("result_format", v); ("partial_unexpected_count", PInt 20)]) in
  let self :=
    {| class_of := ExpectColumnValuesToNotMatchLikePatternList; _configuration := None |} in
  let c :=
    {| expectation_type := "expect_column_values_to_not_match_like_pattern_list";
       configuration_kwargs :=
         <["column" := PStr "a"]> (<["mostly" := PFloat float_0_9]> ∅) |} in
  let runtime_configuration : option (gmap string pyval) :=
    Some (<["mostly" := PFloat float_0_8]> (<["unknown" := PInt 1]> ∅)) in
  exists runtime_kwargs,
    get_runtime_kwargs parse self (Some c) runtime_configuration = inr runtime_kwargs /\
    runtime_kwargs !! "mostly" = Some (PFloat float_0_8) /\
    runtime_kwargs !! "column" = Some (PStr "a") /\
    runtime_kwargs !! "catch_exceptions" = Some (PBool true) /\
    runtime_kwargs !! "table" = Some PNone /\
    runtime_kwargs !! "unknown" = None.
Proof.
  intros parse self c runtime_configuration.
  assert (exists rk, get_runtime_kwargs parse self (Some c) runtime_configuration = inr rk)
    as [rk E].
  { rewrite get_runtime_kwargs_some. cbv zeta.
    rewrite decide_True by (unfold get_allowed_config_keys; simpl; repeat constructor).
    eexists. reflexivity. }
  exists rk. split; [exact E|].
  pose proof (get_runtime_kwargs_precedence parse self c runtime_configuration rk E) as H.
  split; [rewrite H by discriminate; vm_compute; reflexivity|].
  split; [rewrite H by discriminate; vm_compute; reflexivity|].
  split; [rewrite H by discriminate; vm_compute; reflexivity|].
  split; [rewrite H by discriminate; vm_compute; reflexivity|].
  rewrite H by discriminate. vm_compute. reflexivity.
Defined.

(** ** Configurations that are accepted *)

Lemma assert_mostly_spec (kw : gmap string pyval) :
  (assert_mostly kw = inr tt <-> mostly_ok kw) /\
  (forall e, assert_mostly kw = inl e ->
     exists message, e = InvalidExpectationConfigurationError message).
Proof.
  unfold assert_mostly, mostly_ok.
  destruct (kw !! "mostly") as [v|]; [|split; [split; [discriminate|reflexivity]|discriminate]].
  destruct (number_of v) as [m|] eqn:En.
  - unfold assert_configuration. destruct (in_unit_interval m) eqn:E.
    + split; [|discriminate]. split; [|reflexivity].
      intros _ v' [= <-]. exists m. auto.
    + split.
      * split; [discriminate|]. intros H. destruct (H v eq_refl) as (m' & Hm' & Hm).
        congruence.
      * intros e [= <-]. eauto.
  - split.
    + split; [discriminate|]. intros H. destruct (H v eq_refl) as (m' & Hm & _).
      congruence.
    + intros e [= <-]. eauto.
Qed.

Lemma assert_configuration_spec (b : bool) (message : string) :
  (assert_configuration b message = inr tt <-> b = true) /\
  (forall e, assert_configuration b message = inl e ->
     e = InvalidExpectationConfigurationError message).
Proof.
  unfold assert_configuration. destruct b.
  - split; [tauto|discriminate].
  - split; [split; discriminate|]. intros e [= <-]. reflexivity.
Qed.

Lemma key_in_spec (kw : gmap string pyval) (k : string) :
  key_in kw k = true <-> is_Some (kw !! k).
Proof. unfold key_in. apply bool_decide_eq_true. Qed.

Lemma Expectation_validate_configuration_some (self : ExpectationObject)
  (c : ExpectationConfiguration) :
  Expectation_validate_configuration self (Some c)
  = if String.eqb (expectation_type c) (class_expectation_type (class_of self))
    then inr true
    else inl (InvalidExpectationConfigurationError
                "expectation configuration type does not match expectation type").
Proof.
  unfold Expectation_validate_configuration, assert_configuration. simpl.
  destruct (String.eqb _ _); reflexivity.
Qed.

Lemma Expectation_validate_configuration_true (self : ExpectationObject)
  (given : option ExpectationConfiguration) (b : bool) :
  Expectation_validate_configuration self given = inr b -> b = true.
Proof.
  unfold Expectation_validate_configuration.
  destruct (match given with None => _ | Some c => _ end) as [e|c]; simpl; [discriminate|].
  destruct (assert_configuration _ _); simpl; [discriminate|].
  intros [= <-]. reflexivity.
Qed.

(** X19: the configurations [ColumnMapExpectation.validate_configuration]
    accepts.  It returns [True] exactly for a configuration of the type
    of the class that has a ['column'] kwarg and whose ['mostly'], when
    given, is a number (an integer, a float or a boolean) between 0 and 1;
    it never returns [False]; and for every other configuration the
    exception is [InvalidExpectationConfigurationError]. *)
Theorem column_map_validate_configuration (self : ExpectationObject)
  (given : option ExpectationConfiguration) :
  ColumnMapExpectation_validate_configuration self given <> inr false /\
  (ColumnMapExpectation_validate_configuration self given = inr true <->
   exists c, given = Some c /\
             expectation_type c = class_expectation_type (class_of self) /\
             is_Some (configuration_kwargs c !! "column") /\
             mostly_ok (configuration_kwargs c)) /\
  (forall c e, given = Some c ->
     ColumnMapExpectation_validate_configuration self given = inl e ->
     exists message, e = InvalidExpectationConfigurationError message).
Proof.
  split; [|split].
  - unfold ColumnMapExpectation_validate_configuration.
    destruct (Expectation_validate_configuration self given) as [e|b] eqn:E; simpl;
      [discriminate|].
    rewrite (Expectation_validate_configuration_true _ _ _ E). simpl.
    destruct (kwargs_of given) as [e|kw]; simpl; [discriminate|].
    destruct (assert_configuration _ _); simpl; [discriminate|].
    destruct (assert_mostly kw); simpl; discriminate.
  - unfold ColumnMapExpectation_validate_configuration. destruct given as [c|].
    + rewrite Expectation_validate_configuration_some. simpl.
      destruct (String.eqb_spec (expectation_type c) (class_expectation_type (class_of self)))
        as [Ht|Ht]; simpl.
      * destruct (assert_configuration_spec (key_in (configuration_kwargs c) "column")
                    "'column' parameter is required for column map expectations")
          as [Hcol _].
        destruct (assert_mostly_spec (configuration_kwargs c)) as [Hm _].
        destruct (assert_configuration (key_in (configuration_kwargs c) "column") _)
          as [e|[]]; simpl.
        -- split; [discriminate|]. intros (c' & [= <-] & _ & Hc & _).
           apply key_in_spec in Hc. apply Hcol in Hc. discriminate.
        -- destruct (assert_mostly (configuration_kwargs c)) as [e|[]]; simpl.
           ++ split; [discriminate|]. intros (c' & [= <-] & _ & _ & Hok).
              apply Hm in Hok. discriminate.
           ++ split; [|reflexivity]. intros _. exists c. split; [reflexivity|].
              split; [exact Ht|]. split; [|apply Hm; reflexivity].
              apply key_in_spec, Hcol. reflexivity.
      * split; [discriminate|]. intros (c' & [= <-] & Ht' & _). contradiction.
    + split; [|intros (c & Hc & _); discriminate].
      destruct (Expectation_validate_configuration self None) as [e|b] eqn:E; simpl;
        [discriminate|].
      rewrite (Expectation_validate_configuration_true _ _ _ E). simpl. discriminate.
  - intros c e ->. unfold ColumnMapExpectation_validate_configuration.
    rewrite Expectation_validate_configuration_some. simpl.
    destruct (String.eqb _ _); simpl; [|intros [= <-]; eauto].
    destruct (assert_configuration (key_in (configuration_kwargs c) "column") _)
      as [x|[]] eqn:Ea; simpl.
    + intros [= <-]. apply assert_configuration_spec in Ea. eauto.
    + destruct (assert_mostly (configuration_kwargs c)) as [x|[]] eqn:Em; simpl;
        [|discriminate].
      intros [= <-]. apply assert_mostly_spec in Em. exact Em.
Qed.

(** X20: the configurations
    [ColumnPairMapExpectation.validate_configuration] accepts: those of
    the type of the class with a ['column_A'] and a ['column_B'] kwarg
    and a ['mostly'] that, when given, is a number between 0 and 1.  It
    never returns [False]. *)
Theorem column_pair_map_validate_configuration (self : ExpectationObject)
  (given : option ExpectationConfiguration) :
  ColumnPairMapExpectation_validate_configuration self given <> inr false /\
  (ColumnPairMapExpectation_validate_configuration self given = inr true <->
   exists c, given = Some c /\
             expectation_type c = class_expectation_type (class_of self) /\
             is_Some (configuration_kwargs c !! "column_A") /\
             is_Some (configuration_kwargs c !! "column_B") /\
             mostly_ok (configuration_kwargs c)).
Proof.
  split.
  - unfold ColumnPairMapExpectation_validate_configuration.
    destruct (Expectation_validate_configuration self given) as [e|b] eqn:E; simpl;
      [discriminate|].
    rewrite (Expectation_validate_configuration_true _ _ _ E). simpl.
    destruct (kwargs_of given) as [e|kw]; simpl; [discriminate|].
    destruct (assert_configuration _ _); simpl; [discriminate|].
    destruct (assert_configuration _ _); simpl; [discriminate|].
    destruct (assert_mostly kw); simpl; discriminate.
  - unfold ColumnPairMapExpectation_validate_configuration. destruct given as [c|].
    + rewrite Expectation_validate_configuration_some. simpl.
      destruct (String.eqb_spec (expectation_type c) (class_expectation_type (class_of self)))
        as [Ht|Ht]; simpl.
      * destruct (assert_configuration_spec (key_in (configuration_kwargs c) "column_A")
                    "'column_A' parameter is required for column pair map expectations")
          as [HA _].
        destruct (assert_configuration_spec (key_in (configuration_kwargs c) "column_B")
                    "'column_B' parameter is required for column pair map expectations")
          as [HB _].
        destruct (assert_mostly_spec (configuration_kwargs c)) as [Hm _].
        destruct (assert_configuration (key_in (configuration_kwargs c) "column_A") _)
          as [e|[]]; simpl.
        -- split; [discriminate|]. intros (c' & [= <-] & _ & Hc & _).
           apply key_in_spec in Hc. apply HA in Hc. discriminate.
        -- destruct (assert_configuration (key_in (configuration_kwargs c) "column_B") _)
             as [e|[]]; simpl.
           ++ split; [discriminate|]. intros (c' & [= <-] & _ & _ & Hc & _).
              apply key_in_spec in Hc. apply HB in Hc. discriminate.
           ++ destruct (assert_mostly (configuration_kwargs c)) as [e|[]]; simpl.
              ** split; [discriminate|]. intros (c' & [= <-] & _ & _ & _ & Hok).
                 apply Hm in Hok. discriminate.
              ** split; [|reflexivity]. intros _. exists c. split; [reflexivity|].
                 split; [exact Ht|].
                 split; [apply key_in_spec, HA; reflexivity|].
                 split; [apply key_in_spec, HB; reflexivity|apply Hm; reflexivity].
      * split; [discriminate|]. intros (c' & [= <-] & Ht' & _). contradiction.
    + split; [|intros (c & Hc & _); discriminate].
      destruct (Expectation_validate_configuration self None) as [e|b] eqn:E; simpl;
        [discriminate|].
      rewrite (Expectation_validate_configuration_true _ _ _ E). simpl. discriminate.
Qed.

Lemma like_pattern_list_validate_inv (self : ExpectationObject)
  (given : option ExpectationConfiguration) (b : bool) :
  ExpectColumnValuesToNotMatchLikePatternList_validate_configuration self given = inr b <->
  b = true /\
  ColumnMapExpectation_validate_configuration self given = inr true /\
  exists c l, given = Some c /\
              configuration_kwargs c !! "like_pattern_list" = Some (PList l) /\ l <> [].
Proof.
  unfold ExpectColumnValuesToNotMatchLikePatternList_validate_configuration.
  destruct (ColumnMapExpectation_validate_configuration self given) as [e|b0] eqn:E; simpl.
  - split; [discriminate|]. intros (_ & H & _). discriminate.
  - assert (b0 = true) as ->.
    { destruct b0; [reflexivity|]. exfalso. revert E.
      unfold ColumnMapExpectation_validate_configuration.
      destruct (Expectation_validate_configuration self given) as [e|b1] eqn:E1; simpl;
        [discriminate|].
      rewrite (Expectation_validate_configuration_true _ _ _ E1). simpl.
      destruct (kwargs_of given) as [e|kw]; simpl; [discriminate|].
      destruct (assert_configuration _ _); simpl; [discriminate|].
      destruct (assert_mostly kw); simpl; discriminate. }
    destruct given as [c|]; simpl.
    + unfold key_in, dict_get_none, dict_get_default, assert_configuration.
      destruct (configuration_kwargs c !! "like_pattern_list") as [v|] eqn:Ev; simpl.
      * destruct v as [| | | | |l|]; try (split; [discriminate|];
          intros (_ & _ & c' & l' & [= <-] & Hl & _); congruence).
        destruct l as [|x l]; simpl.
        -- split; [discriminate|].
           intros (_ & _ & c' & l' & [= <-] & Hl & Hne). rewrite Ev in Hl.
           inversion Hl; subst l'. contradiction.
        -- split.
           ++ intros [= <-]. split; [reflexivity|]. split; [reflexivity|].
              exists c, (x :: l). split; [reflexivity|]. split; [exact Ev|discriminate].
           ++ intros (-> & _). reflexivity.
      * split; [discriminate|].
        intros (_ & _ & c' & l' & [= <-] & Hl & _). congruence.
    + split; [discriminate|]. intros (_ & _ & c' & l' & Hc & _). discriminate.
Qed.

(** X21: [ExpectColumnValuesToNotMatchLikePatternList] accepts a
    configuration exactly when [ColumnMapExpectation] accepts it and its
    ['like_pattern_list'] kwarg is a list with at least one element; it
    never returns [False]. *)
Theorem like_pattern_list_validate_configuration (self : ExpectationObject)
  (given : option ExpectationConfiguration) :
  ExpectColumnValuesToNotMatchLikePatternList_validate_configuration self given
  <> inr false /\
  (ExpectColumnValuesToNotMatchLikePatternList_validate_configuration self given
   = inr true <->
   ColumnMapExpectation_validate_configuration self given = inr true /\
   exists c l, given = Some c /\
               configuration_kwargs c !! "like_pattern_list" = Some (PList l) /\
               l <> []).
Proof.
  split.
  - intros H. apply like_pattern_list_validate_inv in H as [H _]. discriminate.
  - rewrite like_pattern_list_validate_inv. tauto.
Qed.

Lemma column_map_validate_inv (self : ExpectationObject) (c : ExpectationConfiguration) :
  ColumnMapExpectation_validate_configuration self (Some c) = inr true ->
  expectation_type c = class_expectation_type (class_of self) /\
  is_Some (configuration_kwargs c !! "column") /\
  mostly_ok (configuration_kwargs c).
Proof.
  unfold ColumnMapExpectation_validate_configuration.
  rewrite Expectation_validate_configuration_some. simpl.
  destruct (String.eqb_spec (expectation_type c) (class_expectation_type (class_of self)))
    as [Ht|Ht]; simpl; [|discriminate].
  destruct (assert_configuration (key_in (configuration_kwargs c) "column") _)
    as [e|[]] eqn:Ea; simpl; [discriminate|].
  destruct (assert_mostly (configuration_kwargs c)) as [e|[]] eqn:Em; simpl;
    [discriminate|].
  intros _. split; [exact Ht|]. split.
  - apply key_in_spec. apply assert_configuration_spec in Ea. exact Ea.
  - apply assert_mostly_spec. exact Em.
Qed.

(** X22: what constructing an [ExpectColumnValuesToNotMatchLikePatternList]
    with a configuration guarantees to [_validate].  When [__init__]
    returns, the configuration is the expectation's own, it is of type
    [expect_column_values_to_not_match_like_pattern_list] and has a
    ['column']; the success kwargs hold its non-empty list of patterns;
    and the [mostly] that [_validate] resolves is a number between 0
    and 1: the one of the configuration, or the default 1. *)
Theorem like_pattern_list_init (c : ExpectationConfiguration) (self : ExpectationObject) :
  __init__ ExpectColumnValuesToNotMatchLikePatternList
    ExpectColumnValuesToNotMatchLikePatternList_validate_configuration (Some c)
  = inr self ->
  _configuration self = Some c /\
  expectation_type c = "expect_column_values_to_not_match_like_pattern_list" /\
  is_Some (configuration_kwargs c !! "column") /\
  (exists success_kwargs l,
     get_success_kwargs self None = inr success_kwargs /\
     success_kwargs !! "like_pattern_list" = Some (PList l) /\ l <> []) /\
  exists mostly m,
    _validate_mostly self = inr mostly /\
    mostly = dict_get_default (configuration_kwargs c) "mostly" (PInt 1) /\
    number_of mostly = Some m /\ in_unit_interval m = true.
Proof.
  unfold __init__.
  destruct (ExpectColumnValuesToNotMatchLikePatternList_validate_configuration _ (Some c))
    as [e|b] eqn:E; simpl; [discriminate|].
  intros [= <-]. simpl.
  apply like_pattern_list_validate_inv in E as (_ & Hcm & c' & l & [= <-] & Hl & Hne).
  apply column_map_validate_inv in Hcm as (Ht & Hcol & Hm). simpl in Ht.
  split; [reflexivity|]. split; [exact Ht|]. split; [exact Hcol|].
  set (self := {| class_of := ExpectColumnValuesToNotMatchLikePatternList;
                  _configuration := Some c |}).
  assert (get_success_kwargs self None
          = inr (kwargs_for self c (domain_keys (class_of self))
                 ∪ kwargs_for self c (success_keys (class_of self)))) as Hsk
    by apply (get_success_kwargs_some self c).
  split.
  - eexists. exists l. split; [exact Hsk|]. split; [|exact Hne].
    rewrite success_kwargs_lookup. rewrite decide_True.
    + unfold kwarg_or_default, dict_get_default. rewrite Hl. reflexivity.
    + simpl. rewrite !elem_of_cons. auto 10.
  - unfold _validate_mostly. rewrite Hsk. simpl.
    unfold dict_get_default at 1. rewrite success_kwargs_lookup. rewrite decide_True
      by (simpl; rewrite !elem_of_cons; auto 10).
    simpl. unfold kwarg_or_default, dict_get_default.
    destruct (configuration_kwargs c !! "mostly") as [v|] eqn:Ev; simpl.
    + destruct (Hm v Ev) as (m & Hnum & Hunit). exists v, m. auto.
    + exists (PInt 1), (NInt 1). split; [reflexivity|]. split; [reflexivity|].
      split; reflexivity.
Qed.

Lemma like_pattern_list_init_witness :
  let c :=
    {| expectation_type := "expect_column_values_to_not_match_like_pattern_list";
       configuration_kwargs :=
         <["column" := PStr "name"]>
           (<["like_pattern_list" := PList [PStr "%a%"]]>
              (<["mostly" := PFloat float_0_9]> ∅)) |} in
  exists self,
    __init__ ExpectColumnValuesToNotMatchLikePatternList
      ExpectColumnValuesToNotMatchLikePatternList_validate_configuration (Some c)
    = inr self /\
    exists mostly m,
      _validate_mostly self = inr mostly /\
      mostly = dict_get_default (configuration_kwargs c) "mostly" (PInt 1) /\
      number_of mostly = Some m /\ in_unit_interval m = true.
Proof.
  intros c.
  assert (__init__ ExpectColumnValuesToNotMatchLikePatternList
            ExpectColumnValuesToNotMatchLikePatternList_validate_configuration (Some c)
          = inr {| class_of := ExpectColumnValuesToNotMatchLikePatternList;
                   _configuration := Some c |}) as H
    by (vm_compute; reflexivity).
  eexists. split; [exact H|].
  apply (like_pattern_list_init c _ H).
Defined.

(** ** A metric value between two thresholds *)

Lemma threshold_inv (v : pyval) (message : string) (o : option pynum) :
  threshold v message = inr o -> none_or_number v.
Proof.
  unfold threshold, none_or_number. destruct v; simpl; intros H;
    first [left; reflexivity | discriminate | right; eauto].
Qed.

Lemma compare_with_number (op : pynum -> pynum -> bool) (x : pynum) (bound : pyval) :
  none_or_number bound -> is_none bound = false ->
  exists b, compare_with op x bound = inr b.
Proof.
  intros [-> | [n Hn]] Hnone; [discriminate|].
  unfold compare_with. rewrite Hn. eauto.
Qed.

(** X23: a configuration that
    [validate_metric_value_between_configuration] accepts does not make
    [_validate_metric_value_between] fail.  Provided the defaults of the
    class for ['min_value'] and ['max_value'], if any, are [None] or
    numbers, the call returns for every metric that is a number or is
    missing; the payload reports the metric as observed value, and a
    missing metric never succeeds. *)
Theorem metric_value_between_validated (self : ExpectationObject)
  (c : ExpectationConfiguration) (metric_name : string) (metrics : gmap string pynum) :
  validate_metric_value_between_configuration (Some c) = inr true ->
  (forall k v, k = "min_value" \/ k = "max_value" ->
     default_kwarg_values (class_of self) !! k = Some v -> none_or_number v) ->
  exists success,
    _validate_metric_value_between self metric_name (Some c) metrics
    = inr [("success", PBool success);
           ("result",
            PDict [("observed_value",
                    match metrics !! metric_name with
                    | Some v => pyval_of_num v
                    | None => PNone
                    end)])] /\
    (metrics !! metric_name = None -> success = false).
Proof.
  intros Hval Hdef.
  assert (forall k, k = "min_value" \/ k = "max_value" ->
                    none_or_number (dict_get_none (configuration_kwargs c) k)) as Hkw.
  { unfold validate_metric_value_between_configuration in Hval. simpl in Hval.
    destruct (threshold (dict_get_none (configuration_kwargs c) "min_value") _)
      as [e|lo] eqn:Elo; simpl in Hval; [discriminate|].
    destruct (threshold (dict_get_none (configuration_kwargs c) "max_value") _)
      as [e|hi] eqn:Ehi; simpl in Hval; [discriminate|].
    intros k [-> | ->]; eapply threshold_inv; eassumption. }
  assert (forall k, k = "min_value" \/ k = "max_value" ->
            none_or_number
              (dict_get_none
                 (kwargs_for self c (domain_keys (class_of self))
                  ∪ kwargs_for self c (success_keys (class_of self))) k)) as Hsk.
  { intros k Hk. unfold dict_get_none, dict_get_default.
    rewrite success_kwargs_lookup.
    destruct (decide (k ∈ _)); simpl; [|left; reflexivity].
    unfold kwarg_or_default, dict_get_default.
    specialize (Hkw k Hk). unfold dict_get_none, dict_get_default in Hkw.
    destruct (configuration_kwargs c !! k) as [v|]; simpl in *; [exact Hkw|].
    unfold dict_get_none, dict_get_default.
    destruct (default_kwarg_values (class_of self) !! k) as [v|] eqn:Ev; simpl;
      [exact (Hdef k v Hk Ev)|left; reflexivity]. }
  unfold _validate_metric_value_between. rewrite get_success_kwargs_some. simpl.
  destruct (metrics !! metric_name) as [v|]; [|exists false; auto].
  set (sk := kwargs_for self c (domain_keys (class_of self))
             ∪ kwargs_for self c (success_keys (class_of self))) in *.
  assert (exists b,
            (if negb (is_none (dict_get_none sk "min_value"))
             then
               if pyval_truthy (dict_get_none sk "strict_min")
               then compare_with num_gt v (dict_get_none sk "min_value")
               else compare_with num_ge v (dict_get_none sk "min_value")
             else inr true) = inr b) as [b1 ->].
  { destruct (is_none (dict_get_none sk "min_value")) eqn:En; simpl; [eauto|].
    destruct (pyval_truthy _); apply compare_with_number; auto. }
  assert (exists b,
            (if negb (is_none (dict_get_none sk "max_value"))
             then
               if pyval_truthy (dict_get_none sk "strict_max")
               then compare_with num_lt v (dict_get_none sk "max_value")
               else compare_with num_le v (dict_get_none sk "max_value")
             else inr true) = inr b) as [b2 ->].
  { destruct (is_none (dict_get_none sk "max_value")) eqn:En; simpl; [eauto|].
    destruct (pyval_truthy _); apply compare_with_number; auto. }
  simpl. exists (b1 && b2). split; [reflexivity|discriminate].
Qed.

Lemma metric_value_between_validated_witness :
  let cls :=
    {| class_expectation_type := "expect_table_row_count_to_be_between";
       domain_keys := ["batch_id"; "table"; "row_condition"; "condition_parser"];
       success_keys := ["min_value"; "max_value"];
       runtime_keys := ["include_config"; "catch_exceptions"; "result_format"];
       default_kwarg_values := <["min_value" := PNone]> (<["max_value" := PNone]> ∅) |} in
  let self := {| class_of := cls; _configuration := None |} in
  let c :=
    {| expectation_type := "expect_table_row_count_to_be_between";
       configuration_kwargs := <["min_value" := PInt 3]> (<["max_value" := PFloat float_0_9]> ∅) |} in
  validate_metric_value_between_configuration
    (Some {| expectation_type := "expect_table_row_count_to_be_between";
             configuration_kwargs := <["min_value" := PInt 0]> (<["max_value" := PInt 5]> ∅) |})
  = inr true /\
  validate_metric_value_between_configuration (Some c)
  = inl (InvalidExpectationConfigurationError
           "Minimum Threshold cannot be larger than Maximum Threshold") /\
  exists success,
    _validate_metric_value_between self "table.row_count"
      (Some {| expectation_type := "expect_table_row_count_to_be_between";
               configuration_kwargs :=
                 <["min_value" := PInt 0]> (<["max_value" := PInt 5]> ∅) |})
      (<["table.row_count" := NInt 3]> ∅)
    = inr [("success", PBool success);
           ("result", PDict [("observed_value", PInt 3)])].
Proof.
  intros cls self c. split; [vm_compute; reflexivity|]. split; [vm_compute; reflexivity|].
  destruct (metric_value_between_validated self
              {| expectation_type := "expect_table_row_count_to_be_between";
                 configuration_kwargs :=
                   <["min_value" := PInt 0]> (<["max_value" := PInt 5]> ∅) |}
              "table.row_count" (<["table.row_count" := NInt 3]> ∅))
    as (success & Hs & _).
  - vm_compute. reflexivity.
  - intros k v [-> | ->] Hv; vm_compute in Hv; inversion Hv; left; reflexivity.
  - exists success. exact Hs.
Defined.

(** X24: a table expectation asks for the metrics it declares and no
    other.  When [get_validation_dependencies] returns, its metrics are
    the declared [metric_dependencies], each under its own name with the
    kwargs of the registry; and it returns exactly when the registry has
    kwargs for every declared metric. *)
Theorem table_dependencies_declared (gmk : metric_kwargs_fn)
  (metric_dependencies : list string) (rf : ResultFormat) :
  (returns (TableExpectation.get_validation_dependencies gmk metric_dependencies rf) <->
   forall k, k ∈ metric_dependencies -> returns (gmk k)) /\
  forall d,
    TableExpectation.get_validation_dependencies gmk metric_dependencies rf = Ret d ->
    dep_result_format d = rf /\
    forall k,
      dep_metrics d !! k
      = if decide (k ∈ metric_dependencies) then
          match gmk k with
          | Ret kw => Some {| metric_name := k; metric_domain_kwargs := fst kw;
                              metric_value_kwargs := snd kw |}
          | Raise _ => None
          end
        else None.
Proof.
  unfold TableExpectation.get_validation_dependencies. simpl. split.
  - assert (forall names m,
              returns (TableExpectation.add_all gmk names m) <->
              forall k, k ∈ names -> returns (gmk k)) as Hret.
    { induction names as [|name names IH]; intros m; simpl.
      - split; [intros _ k Hk; inversion Hk|intros _; eexists; reflexivity].
      - unfold add_metric at 1. destruct (gmk name) as [kw|e] eqn:Ek; simpl.
        + rewrite IH. split.
          * intros H k Hk. apply elem_of_cons in Hk as [->|Hk]; [|auto].
            rewrite Ek. eexists; reflexivity.
          * intros H k Hk. apply H. right. exact Hk.
        + split; [intros [x Hx]; discriminate|].
          intros H. destruct (H name) as [x Hx]; [left|]. congruence. }
    rewrite <- (Hret metric_dependencies ∅).
    destruct (TableExpectation.add_all gmk metric_dependencies ∅) as [m|e]; simpl;
      split; intros [x Hx]; try discriminate; eexists; reflexivity.
  - intros d H.
    destruct (TableExpectation.add_all gmk metric_dependencies ∅) as [m|e] eqn:E;
      simpl in H; [|discriminate].
    inversion H; subst d; simpl. split; [reflexivity|].
    destruct (add_all_spec _ _ _ _ E) as [Hin Hout]. intros k.
    destruct (decide (k ∈ metric_dependencies)) as [Hk|Hk].
    + destruct (Hin k Hk) as (kw & -> & ->). reflexivity.
    + rewrite Hout by exact Hk. apply lookup_empty.
Qed.

Lemma resolve_metric_bundle_invalid_entry_witness :
  let collect : list Z -> list Z -> res (list (list Z)) :=
    fun df cols => Ret [(fun c => c + Z.of_nat (length df)) <$> cols] in
  let to_id : kwargs -> string :=
    fun dk => match dk !! "batch_id" with Some (UStr s) => s | _ => "" end in
  let resolve :=
    resolve_metric_bundle (fun d _ => Ret d) (fun d _ => Ret d) (fun _ => Ret 0)
      collect to_id in
  let self := Build_Engine (Some [3; 1; 4]) ∅ in
  let map_entry := Build_BundleEntry ("column_values.nonnull", "", "") "map_fn" (Ret (7, ∅)) in
  let bundle :=
    [Build_BundleEntry ("table.row_count", "", "") "aggregate_fn" (Ret (0, ∅)); map_entry] in
  map_entry ∈ bundle /\
  fst (resolve self bundle) = [] /\ raises (snd (resolve self bundle)).
Proof.
  intros collect to_id resolve self map_entry bundle.
  assert (map_entry ∈ bundle) as Hin by (right; left).
  split; [exact Hin|].
  apply (resolve_metric_bundle_invalid_entry (fun d _ => Ret d) (fun d _ => Ret d)
           (fun _ => Ret 0) collect to_id self bundle map_entry Hin).
  left. discriminate.
Defined.

Lemma resolve_metric_bundle_column_domain_witness :
  let collect : list Z -> list Z -> res (list (list Z)) :=
    fun df cols => Ret [(fun c => c + Z.of_nat (length df)) <$> cols] in
  let to_id : kwargs -> string :=
    fun dk => match dk !! "column" with Some (UStr s) => s | _ => "" end in
  let resolve :=
    resolve_metric_bundle (fun d _ => Ret d) (fun d _ => Ret d) (fun _ => Ret 0)
      collect to_id in
  let self := Build_Engine (Some [3; 1; 4]) ∅ in
  let dk : kwargs := {["column" := UStr "a"]} in
  let e := Build_BundleEntry ("column.max", "a", "") "aggregate_fn" (Ret (100, dk)) in
  entry_domain_kwargs e = Some dk /\
  head (entries_of to_id (to_id dk) [e]) = Some e /\
  is_Some (dk !! "column") /\
  raises (snd (resolve self [e])).
Proof.
  intros collect to_id resolve self dk e.
  assert (entry_domain_kwargs e = Some dk) as H1 by reflexivity.
  assert (head (entries_of to_id (to_id dk) [e]) = Some e) as H2 by reflexivity.
  assert (is_Some (dk !! "column")) as H3 by (eexists; reflexivity).
  split; [exact H1|]. split; [exact H2|]. split; [exact H3|].
  apply (resolve_metric_bundle_column_domain (fun d _ => Ret d) (fun d _ => Ret d)
           (fun _ => Ret 0) collect to_id self [e] e dk H1 H2 H3).
Defined.

Lemma resolve_metric_bundle_keys_witness :
  let collect : list Z -> list Z -> res (list (list Z)) :=
    fun df cols => Ret [(fun c => c + Z.of_nat (length df)) <$> cols] in
  let to_id : kwargs -> string :=
    fun dk => match dk !! "batch_id" with Some (UStr s) => s | _ => "" end in
  let resolve :=
    resolve_metric_bundle (fun d _ => Ret d) (fun d _ => Ret d) (fun _ => Ret 0)
      collect to_id in
  let self := Build_Engine (Some [3; 1; 4]) ∅ in
  let bundle :=
    [Build_BundleEntry ("table.row_count", "", "") "aggregate_fn" (Ret (0, ∅));
     Build_BundleEntry ("column.max", "", "") "aggregate_fn" (Ret (100, ∅))] in
  exists calls resolved,
    resolve self bundle = (calls, Ret resolved) /\
    forall i, is_Some (resolved !! i) <-> i ∈ entry_id <$> bundle.
Proof.
  intros collect to_id resolve self bundle.
  destruct (resolve self bundle) as [calls r] eqn:E.
  assert (is_ret r = true) as Hr.
  { change r with (snd (calls, r)). rewrite <- E. vm_compute. reflexivity. }
  destruct r as [resolved|e]; [|discriminate].
  exists calls, resolved. split; [reflexivity|].
  apply (resolve_metric_bundle_keys (fun d _ => Ret d) (fun d _ => Ret d)
           (fun _ => Ret 0) collect to_id self bundle calls resolved E).
Defined.

(** ** Splitting a batch on several columns *)

Lemma dict_get_elem (d : dict) (k : string) (v : pyval) :
  NoDup d.*1 -> (k, v) ∈ d -> dict_get k d = Some v.
Proof.
  induction d as [|[k0 v0] d IH]; simpl; intros Hnd Hin; [inversion Hin|].
  apply NoDup_cons in Hnd as [Hk0 Hnd].
  apply elem_of_cons in Hin as [[= -> ->]|Hin].
  - rewrite String.eqb_refl. reflexivity.
  - destruct (String.eqb_spec k k0) as [->|_]; [|apply IH; assumption].
    exfalso. apply Hk0. apply list_elem_of_fmap. exists (k0, v). auto.
Qed.

Section SplittersProperties.

Context {DataFrame : Type}.
Variable filter_equal : DataFrame -> string -> pyval -> outcome DataFrame.

Lemma split_on_multi_column_values_prefix (full : dict) :
  forall (rest : dict) (df : DataFrame),
    (forall k v, (k, v) ∈ rest -> dict_get k full = Some v) ->
    _split_on_multi_column_values filter_equal df rest
    = split_on_each filter_equal df rest.*1 full.
Proof.
  induction rest as [|[k v] rest IH]; intros df H; simpl; [reflexivity|].
  unfold _split_on_column_value. rewrite (H k v) by left.
  destruct (filter_equal df k v) as [e|df']; simpl; [reflexivity|].
  apply IH. intros k' v' Hin. apply H. right. exact Hin.
Qed.

(** X25: splitting on several columns is splitting on one column after
    the other.  For a partition definition (a dictionary: no key twice)
    [_split_on_multi_column_values] gives what [_split_on_column_value]
    gives when applied for each of its columns in turn, in the order of
    the dictionary, and the exception of the first split that fails; for
    the empty partition definition it is the data frame itself, as
    [_split_on_whole_table] gives. *)
Theorem split_on_multi_column_values_each (df : DataFrame) (partition_definition : dict) :
  NoDup partition_definition.*1 ->
  _split_on_multi_column_values filter_equal df partition_definition
  = split_on_each filter_equal df partition_definition.*1 partition_definition /\
  _split_on_multi_column_values filter_equal df [] = inr (_split_on_whole_table df).
Proof.
  intros Hnd. split; [|reflexivity].
  apply split_on_multi_column_values_prefix.
  intros k v Hin. apply dict_get_elem; assumption.
Qed.

End SplittersProperties.

(** A toy backend: a data frame is a list of rows, a row a dictionary;
    the filter keeps the rows that hold the value in the column. *)
Lemma split_on_multi_column_values_each_witness :
  let filter_equal : list dict -> string -> pyval -> outcome (list dict) :=
    fun df column_name value =>
      inr (List.filter
             (fun row => match dict_get column_name row, value with
                         | Some (PInt x), PInt y => x =? y
                         | _, _ => false
                         end) df) in
  let df : list dict :=
    [[("year", PInt 2020); ("month", PInt 1)];
     [("year", PInt 2020); ("month", PInt 2)];
     [("year", PInt 2021); ("month", PInt 1)]] in
  let partition_definition : dict := [("year", PInt 2020); ("month", PInt 2)] in
  NoDup partition_definition.*1 /\
  _split_on_multi_column_values filter_equal df partition_definition
  = inr [[("year", PInt 2020); ("month", PInt 2)]] /\
  _split_on_multi_column_values filter_equal df partition_definition
  = split_on_each filter_equal df partition_definition.*1 partition_definition.
Proof.
  intros filter_equal df partition_definition.
  assert (NoDup partition_definition.*1) as Hnd.
  { apply NoDup_cons. split; [|apply NoDup_singleton].
    intros H. apply list_elem_of_singleton in H. discriminate. }
  split; [exact Hnd|]. split; [reflexivity|].
  apply (proj1 (split_on_multi_column_values_each filter_equal df partition_definition Hnd)).
Defined.

(** ** Introspection of a database *)

Section IntrospectDbProperties.

Variable inspector : Inspector.
Variable selected_schema_name : option string.
Variable ignore : bool.
Variable information_schemas system_tables : list string.
Variable include_views : bool.

Local Abbreviation tables_of :=
  (table_loop ignore system_tables).
Local Abbreviation views_of :=
  (view_loop ignore system_tables).
Local Abbreviation schemas_of :=
  (schema_loop inspector selected_schema_name ignore information_schemas system_tables
     include_views).
Local Abbreviation is_admitted :=
  (schema_admitted selected_schema_name ignore information_schemas).

Lemma table_loop_spec (schema : string) (names : list string) :
  forall (st : introspect_state) (m : TableMetadata),
    m ∈ fst (tables_of schema names st) <->
    m ∈ fst st \/
    (type m = table /\ schema_name m = schema /\ table_name m ∈ names /\
     ~ (ignore = true /\ table_name m ∈ system_tables)).
Proof.
  induction names as [|name names IH]; intros st m; simpl.
  - split; [auto|]. intros [H|(_ & _ & H & _)]; [exact H|inversion H].
  - destruct (ignore && bool_decide (name ∈ system_tables)) eqn:E; rewrite IH; simpl.
    + apply andb_true_iff in E as [Ei Es]. apply bool_decide_eq_true in Es.
      rewrite elem_of_cons. split.
      * intros [H|(H1 & H2 & H3 & H4)]; [auto|]. right. auto.
      * intros [H|(H1 & H2 & [H3|H3] & H4)]; [auto| |right; auto].
        exfalso. apply H4. rewrite H3. auto.
    + rewrite elem_of_app, list_elem_of_singleton, elem_of_cons. split.
      * intros [[H| ->]|(H1 & H2 & H3 & H4)]; [auto| |right; auto].
        right. simpl. split; [reflexivity|]. split; [reflexivity|]. split; [auto|].
        intros [Hi Hs]. rewrite Hi in E. simpl in E.
        apply bool_decide_eq_false in E. contradiction.
      * intros [H|(H1 & H2 & [H3|H3] & H4)]; [auto| |right; auto].
        left. right. destruct m as [s t ty]; simpl in *. subst. reflexivity.
Qed.

Lemma view_loop_tables (schema : string) (view_names : list string) :
  forall (st st' : introspect_state) (m : TableMetadata),
    views_of schema view_names st = inr st' -> type m = table ->
    (m ∈ fst st' <-> m ∈ fst st).
Proof.
  induction view_names as [|v view_names IH]; intros st st' m H Hm; simpl in H.
  - inversion H. reflexivity.
  - destruct (if ignore then _ else _) as [e|skip]; simpl in H; [discriminate|].
    destruct skip; [apply (IH _ _ _ H Hm)|].
    rewrite (IH _ _ _ H Hm). simpl.
    rewrite elem_of_app, list_elem_of_singleton. split; [|auto].
    intros [Hin| ->]; [exact Hin|discriminate].
Qed.

Lemma schema_loop_tables (schemas : list string) :
  forall (st st' : introspect_state) (m : TableMetadata),
    schemas_of schemas st = inr st' -> type m = table ->
    (m ∈ fst st' <->
     m ∈ fst st \/
     (schema_name m ∈ schemas /\ is_admitted (schema_name m) /\
      table_name m ∈ get_table_names inspector (schema_name m) /\
      ~ (ignore = true /\ table_name m ∈ system_tables))).
Proof.
  induction schemas as [|schema schemas IH]; intros st st' m H Hm; simpl in H.
  - inversion H. split; [auto|]. intros [Hin|(Hin & _)]; [exact Hin|inversion Hin].
  - assert (forall P : Prop,
              ~ is_admitted schema ->
              (m ∈ fst st \/ (schema_name m ∈ schemas /\ is_admitted (schema_name m) /\ P)
               <-> m ∈ fst st \/
                   (schema_name m ∈ schema :: schemas /\ is_admitted (schema_name m) /\ P)))
      as Hskip.
    { intros P Hna. rewrite elem_of_cons. split.
      - intros [Hin|(H1 & H2 & H3)]; [auto|]. right. auto.
      - intros [Hin|([H1|H1] & H2 & H3)]; [auto| |right; auto].
        exfalso. apply Hna. rewrite <- H1. exact H2. }
    destruct (ignore && bool_decide (schema ∈ information_schemas)) eqn:E1.
    { rewrite (IH _ _ _ H Hm). apply Hskip.
      apply andb_true_iff in E1 as [Ei Es]. apply bool_decide_eq_true in Es.
      intros [Hna _]. apply Hna. auto. }
    destruct (match selected_schema_name with Some s => _ | None => false end) eqn:E2.
    { rewrite (IH _ _ _ H Hm). apply Hskip.
      destruct selected_schema_name as [s|]; [|discriminate].
      apply negb_true_iff, String.eqb_neq in E2.
      intros [_ Hsel]. apply E2, Hsel. reflexivity. }
    assert (is_admitted schema) as Hadm.
    { split.
      - intros [Hi Hs]. rewrite Hi in E1. simpl in E1.
        apply bool_decide_eq_false in E1. contradiction.
      - intros s Hs. rewrite Hs in E2. apply negb_false_iff, String.eqb_eq in E2.
        exact E2. }
    destruct (if include_views then _ else _) as [e|st1] eqn:Ev; simpl in H; [discriminate|].
    rewrite (IH _ _ _ H Hm).
    assert (m ∈ fst st1 <->
            m ∈ fst (tables_of schema (get_table_names inspector schema) st)) as ->.
    { destruct include_views; [|inversion Ev; reflexivity].
      apply (view_loop_tables _ _ _ _ _ Ev Hm). }
    rewrite table_loop_spec, elem_of_cons. split.
    + intros [[Hin|(_ & H2 & H3 & H4)]|(H1 & H2 & H3)]; [auto| |right; auto].
      right. rewrite H2. auto.
    + intros [Hin|([H1|H1] & H2 & H3 & H4)]; [auto| |right; auto].
      left. right. rewrite <- H1. auto.
Qed.

(** X26: the tables [_introspect_db] lists.  When it returns, an entry of
    type table is in the list exactly when its schema is one of the
    inspector's, is not passed over (it is no information schema while
    those are ignored, and it is the selected schema if one is selected)
    and has the table, and the table is no system table while those are
    ignored. *)
Theorem introspect_db_tables (tables : list TableMetadata) :
  _introspect_db inspector selected_schema_name ignore information_schemas system_tables
    include_views = inr tables ->
  forall schema name,
    {| schema_name := schema; table_name := name; type := table |} ∈ tables <->
    schema ∈ get_schema_names inspector /\ is_admitted schema /\
    name ∈ get_table_names inspector schema /\
    ~ (ignore = true /\ name ∈ system_tables).
Proof.
  unfold _introspect_db. intros H schema name.
  destruct (schemas_of (get_schema_names inspector) ([], None)) as [e|st] eqn:E;
    simpl in H; [discriminate|].
  inversion H; subst tables.
  rewrite (schema_loop_tables _ _ _
             {| schema_name := schema; table_name := name; type := table |} E eq_refl).
  simpl. split.
  - intros [Hin|Hin]; [inversion Hin|exact Hin].
  - auto.
Qed.

End IntrospectDbProperties.

Section IntrospectDbViews.

Variable inspector : Inspector.
Variable selected_schema_name : option string.
Variable information_schemas system_tables : list string.

Local Abbreviation is_admitted ignore :=
  (schema_admitted selected_schema_name ignore information_schemas).

Lemma table_loop_closed (ignore : bool) (schema : string) (names : list string) :
  forall st : introspect_state,
    table_loop ignore system_tables schema names st
    = ((fst st ++
        ((fun name => {| schema_name := schema; table_name := name; type := table |})
           <$> filter (fun name => ~ (ignore = true /\ name ∈ system_tables)) names))%list,
       match last names with
       | Some name => Some name
       | None => snd st
       end).
Proof.
  induction names as [|name names IH]; intros [ts tn]; simpl.
  - rewrite app_nil_r. reflexivity.
  - rewrite filter_cons.
    destruct (ignore && bool_decide (name ∈ system_tables)) eqn:E; rewrite IH; simpl.
    + apply andb_true_iff in E as [Ei Es]. apply bool_decide_eq_true in Es.
      rewrite decide_False by tauto. f_equal.
      destruct names as [|n names]; [reflexivity|].
      change (last (name :: n :: names)) with (last (n :: names)).
      destruct (last (n :: names)) eqn:El; [reflexivity|].
      apply last_None in El. discriminate.
    + rewrite decide_True.
      * rewrite fmap_cons, <- app_assoc. simpl. f_equal.
        destruct names as [|n names]; [reflexivity|].
        change (last (name :: n :: names)) with (last (n :: names)).
        destruct (last (n :: names)) eqn:El; [reflexivity|].
        apply last_None in El. discriminate.
      * intros [Hi Hs]. rewrite Hi in E. simpl in E.
        apply bool_decide_eq_false in E. contradiction.
Qed.

Lemma view_loop_all (schema : string) (view_names : list string) :
  forall st : introspect_state,
    view_loop false system_tables schema view_names st
    = inr ((fst st ++
            ((fun name => {| schema_name := schema; table_name := name; type := view |})
               <$> view_names))%list,
           snd st).
Proof.
  induction view_names as [|v view_names IH]; intros [ts tn]; simpl.
  - rewrite app_nil_r. reflexivity.
  - rewrite IH. simpl. rewrite <- app_assoc. reflexivity.
Qed.

Lemma view_loop_ignoring (schema : string) (view_names : list string) :
  forall (ts : list TableMetadata) (name : string),
    view_loop true system_tables schema view_names (ts, Some name)
    = inr ((ts ++
            if bool_decide (name ∈ system_tables) then []
            else (fun v => {| schema_name := schema; table_name := v; type := view |})
                   <$> view_names)%list,
           Some name).
Proof.
  induction view_names as [|v view_names IH]; intros ts name; simpl.
  - destruct (bool_decide _); rewrite app_nil_r; reflexivity.
  - destruct (bool_decide (name ∈ system_tables)) eqn:E; rewrite IH, E; simpl.
    + reflexivity.
    + rewrite <- app_assoc. reflexivity.
Qed.

Lemma schema_loop_views (include_views : bool) (schemas : list string) :
  forall (st : introspect_state),
    exists st',
      schema_loop inspector selected_schema_name false information_schemas system_tables
        include_views schemas st = inr st' /\
      forall m, type m = view ->
        (m ∈ fst st' <->
         m ∈ fst st \/
         (include_views = true /\ schema_name m ∈ schemas /\ is_admitted false (schema_name m) /\
          table_name m ∈ get_view_names inspector (schema_name m))).
Proof.
  induction schemas as [|schema schemas IH]; intros st; simpl.
  - exists st. split; [reflexivity|]. intros m _. split; [auto|].
    intros [H|(_ & H & _)]; [exact H|inversion H].
  - assert (forall (m : TableMetadata) (P : Prop),
              ~ is_admitted false schema ->
              (m ∈ fst st \/
               (include_views = true /\ schema_name m ∈ schemas /\
                is_admitted false (schema_name m) /\ P)
               <-> m ∈ fst st \/
                   (include_views = true /\ schema_name m ∈ schema :: schemas /\
                    is_admitted false (schema_name m) /\ P))) as Hskip.
    { intros m P Hna. rewrite elem_of_cons. split.
      - intros [Hin|(H0 & H1 & H2 & H3)]; [auto|]. right. auto.
      - intros [Hin|(H0 & [H1|H1] & H2 & H3)]; [auto| |right; auto].
        exfalso. apply Hna. rewrite <- H1. exact H2. }
    destruct (match selected_schema_name with Some s => _ | None => false end) eqn:E2.
    { destruct (IH st) as (st' & Hst' & Hv). exists st'. split; [exact Hst'|].
      intros m Hm. rewrite (Hv m Hm). apply Hskip.
      destruct selected_schema_name as [s|]; [|discriminate].
      apply negb_true_iff, String.eqb_neq in E2.
      intros [_ Hsel]. apply E2, Hsel. reflexivity. }
    assert (is_admitted false schema) as Hadm.
    { split; [intros [Hi _]; discriminate|].
      intros s Hs. rewrite Hs in E2. apply negb_false_iff, String.eqb_eq in E2.
      exact E2. }
    rewrite table_loop_closed.
    destruct include_views; simpl.
    + rewrite view_loop_all. simpl.
      match goal with |- context [schema_loop _ _ _ _ _ _ schemas ?s] =>
        destruct (IH s) as (st' & Hst' & Hv) end.
      exists st'. split; [exact Hst'|].
      intros m Hm. rewrite (Hv m Hm). simpl.
      rewrite !elem_of_app, !list_elem_of_fmap, elem_of_cons. split.
      * intros [[[Hin|(n & -> & _)]|(v & -> & Hv')]|(H0 & H1 & H2 & H3)];
          [auto|discriminate| |right; auto].
        right. simpl. auto.
      * intros [Hin|(H0 & [H1|H1] & H2 & H3)]; [auto| |right; auto].
        left. right. exists (table_name m). split; [|rewrite H1 in H3; exact H3].
        destruct m as [s t ty]; simpl in *. subst. reflexivity.
    + match goal with |- context [schema_loop _ _ _ _ _ _ schemas ?s] =>
        destruct (IH s) as (st' & Hst' & Hv) end.
      exists st'. split; [exact Hst'|].
      intros m Hm. rewrite (Hv m Hm). simpl.
      rewrite !elem_of_app, !list_elem_of_fmap. split.
      * intros [[Hin|(n & -> & _)]|(H0 & _)]; [auto|discriminate|discriminate].
      * intros [Hin|(H0 & _)]; [auto|discriminate].
Qed.

(** X27: with nothing ignored, [_introspect_db] never fails, and it lists
    the views of the schemas it does not pass over exactly when views are
    included. *)
Theorem introspect_db_views (include_views : bool) :
  exists tables,
    _introspect_db inspector selected_schema_name false information_schemas system_tables
      include_views = inr tables /\
    forall schema name,
      {| schema_name := schema; table_name := name; type := view |} ∈ tables <->
      include_views = true /\ schema ∈ get_schema_names inspector /\
      (forall selected, selected_schema_name = Some selected -> schema = selected) /\
      name ∈ get_view_names inspector schema.
Proof.
  unfold _introspect_db.
  destruct (schema_loop_views include_views (get_schema_names inspector) ([], None))
    as (st & -> & Hv).
  exists (fst st). split; [reflexivity|]. intros schema name.
  rewrite (Hv {| schema_name := schema; table_name := name; type := view |} eq_refl).
  simpl. unfold schema_admitted. split.
  - intros [H|(H0 & H1 & [_ H2] & H3)]; [inversion H|auto].
  - intros (H0 & H1 & H2 & H3). right. split; [exact H0|]. split; [exact H1|].
    split; [|exact H3]. split; [intros [Hi _]; discriminate|exact H2].
Qed.

(** X28: while system tables are ignored, the views of a schema are kept
    or dropped as a whole, by the name of the table listed last and not
    by their own names.  For a database of one schema that is not passed
    over: the views are all listed when the last table of the schema is
    no system table (a view named as a system table too), none is listed
    when it is one, and without any table the first view raises
    [UnboundLocalError]. *)
Theorem introspect_db_views_ignoring (schema : string) :
  get_schema_names inspector = [schema] ->
  schema_admitted selected_schema_name true information_schemas schema ->
  _introspect_db inspector selected_schema_name true information_schemas system_tables true
  = let tables :=
      (fun name => {| schema_name := schema; table_name := name; type := table |})
        <$> filter (fun name => name ∉ system_tables) (get_table_names inspector schema) in
    let views :=
      (fun name => {| schema_name := schema; table_name := name; type := view |})
        <$> get_view_names inspector schema in
    match last (get_table_names inspector schema) with
    | Some name =>
        inr (tables ++ if bool_decide (name ∈ system_tables) then [] else views)%list
    | None =>
        match get_view_names inspector schema with
        | [] => inr []
        | _ :: _ => inl (UnboundLocalError "table_name")
        end
    end.
Proof.
  intros Hs [Hinfo Hsel]. unfold _introspect_db. rewrite Hs. simpl.
  rewrite bool_decide_eq_false_2 by (intros H; apply Hinfo; auto).
  assert (match selected_schema_name with
          | Some selected => negb (String.eqb schema selected)
          | None => false
          end = false) as ->.
  { destruct selected_schema_name as [s|]; [|reflexivity].
    rewrite (Hsel s eq_refl), String.eqb_refl. reflexivity. }
  rewrite table_loop_closed. simpl.
  rewrite (list_filter_iff (fun name => ~ (true = true /\ name ∈ system_tables))
             (fun name => name ∉ system_tables)) by (intros x; tauto).
  destruct (last (get_table_names inspector schema)) as [name|] eqn:El.
  - rewrite view_loop_ignoring. reflexivity.
  - apply last_None in El. rewrite El.
    destruct (get_view_names inspector schema) as [|v vs]; reflexivity.
Qed.

End IntrospectDbViews.

(** A database of one schema with a system table listed last. *)
Lemma introspect_db_tables_witness :
  let inspector :=
    {| get_schema_names := ["main"; "information_schema"];
       get_table_names := fun schema =>
         if String.eqb schema "main" then ["users"; "sqlite_master"] else ["tables"];
       get_view_names := fun _ => [] |} in
  _introspect_db inspector None true ["information_schema"] ["sqlite_master"] true
  = inr [{| schema_name := "main"; table_name := "users"; type := table |}] /\
  ({| schema_name := "main"; table_name := "users"; type := table |}
   ∈ [{| schema_name := "main"; table_name := "users"; type := table |}] <->
   "main" ∈ get_schema_names inspector /\
   schema_admitted None true ["information_schema"] "main" /\
   "users" ∈ get_table_names inspector "main" /\
   ~ (true = true /\ "users" ∈ ["sqlite_master"])).
Proof.
  intros inspector. split; [reflexivity|].
  apply (introspect_db_tables inspector None true ["information_schema"] ["sqlite_master"]
           true _ eq_refl "main" "users").
Defined.

Lemma introspect_db_views_ignoring_witness :
  let inspector :=
    {| get_schema_names := ["main"];
       get_table_names := fun _ => ["users"; "sqlite_master"];
       get_view_names := fun _ => ["active_users"] |} in
  get_schema_names inspector = ["main"] /\
  schema_admitted None true ["information_schema"] "main" /\
  _introspect_db inspector None true ["information_schema"] ["sqlite_master"] true
  = inr [{| schema_name := "main"; table_name := "users"; type := table |}].
Proof.
  intros inspector.
  assert (schema_admitted None true ["information_schema"] "main") as Hadm.
  { split; [|discriminate]. intros [_ H]. apply list_elem_of_singleton in H. discriminate. }
  split; [reflexivity|]. split; [exact Hadm|].
  rewrite (introspect_db_views_ignoring inspector None ["information_schema"]
             ["sqlite_master"] "main" eq_refl Hadm).
  reflexivity.
Defined.

(** ** The cache of introspected data assets *)

Section RefreshProperties.

Variable data_asset_name_prefix data_asset_name_suffix : string.
Variable include_schema_name : bool.
Variable splitter_method splitter_kwargs sampling_method sampling_kwargs : option pyval.
Variable excluded_tables included_tables : option (list string).
Variable skip_inapplicable_tables : bool.
Variable probe : string -> dict -> outcome unit.

Local Abbreviation name_of :=
  (data_asset_name_of data_asset_name_prefix data_asset_name_suffix include_schema_name).
Local Abbreviation config_of :=
  (data_asset_config_of splitter_method splitter_kwargs sampling_method sampling_kwargs).
Local Abbreviation over := (passed_over excluded_tables included_tables).
Local Abbreviation is_stored :=
  (stored data_asset_name_prefix data_asset_name_suffix include_schema_name
     splitter_method splitter_kwargs sampling_method sampling_kwargs
     excluded_tables included_tables probe).
Local Abbreviation refresh :=
  (refresh_loop data_asset_name_prefix data_asset_name_suffix include_schema_name
     splitter_method splitter_kwargs sampling_method sampling_kwargs
     excluded_tables included_tables skip_inapplicable_tables probe).

Local Abbreviation refresh_cache :=
  (_refresh_introspected_data_assets_cache data_asset_name_prefix data_asset_name_suffix
     include_schema_name splitter_method splitter_kwargs sampling_method sampling_kwargs
     excluded_tables included_tables skip_inapplicable_tables probe).

(** The cache with the stored tables of [l] written to it, in order. *)
Local Abbreviation written cache l :=
  (foldl (fun (acc : gmap string dict) m => <[name_of m := config_of m]> acc) cache
     (List.filter is_stored l)).

Lemma refresh_loop_returns (l : list TableMetadata) :
  forall cache cache',
    refresh l cache = (cache', None) -> cache' = written cache l.
Proof.
  induction l as [|m l IH]; intros cache cache' H; simpl in H.
  - inversion H. reflexivity.
  - simpl. unfold stored at 1. destruct (over m); simpl; [apply IH, H|].
    destruct (probe (name_of m) (config_of m)) as [e|u]; simpl.
    + destruct e; try discriminate.
      destruct skip_inapplicable_tables; [apply IH, H|discriminate].
    + apply IH, H.
Qed.

Lemma refresh_loop_prefix (l1 : list TableMetadata) :
  forall (l2 : list TableMetadata) cache,
    (forall x, x ∈ l1 ->
       over x = true \/ exists u, probe (name_of x) (config_of x) = inr u) ->
    refresh (l1 ++ l2) cache = refresh l2 (written cache l1).
Proof.
  induction l1 as [|m l1 IH]; intros l2 cache H; simpl; [reflexivity|].
  unfold stored at 1.
  destruct (H m) as [Ho|[u Hu]]; [left| |].
  - rewrite Ho. simpl. apply IH. intros x Hx. apply H. right. exact Hx.
  - destruct (over m); simpl.
    + apply IH. intros x Hx. apply H. right. exact Hx.
    + rewrite Hu. simpl. apply IH. intros x Hx. apply H. right. exact Hx.
Qed.

Lemma written_lookup (l : list TableMetadata) :
  forall cache (name : string) (cfg : dict),
    written cache l !! name = Some cfg ->
    cache !! name = Some cfg \/
    exists m, m ∈ l /\ is_stored m = true /\ name = name_of m /\ cfg = config_of m.
Proof.
  induction l as [|m l IH]; intros cache name cfg H; simpl in H; [auto|].
  destruct (is_stored m) eqn:Es; simpl in H.
  - destruct (IH _ _ _ H) as [Hc|(x & Hx & Hs & Hn & Hcfg)].
    + destruct (decide (name = name_of m)) as [->|Hne].
      * rewrite lookup_insert_eq in Hc. inversion Hc. right. exists m.
        split; [left|]. auto.
      * rewrite lookup_insert_ne in Hc by congruence. auto.
    + right. exists x. split; [right; exact Hx|]. auto.
  - destruct (IH _ _ _ H) as [Hc|(x & Hx & Hs & Hn & Hcfg)]; [auto|].
    right. exists x. split; [right; exact Hx|]. auto.
Qed.

Lemma config_table_name (m : TableMetadata) :
  dict_get "table_name" (config_of m)
  = Some (PStr (qualified_name m)).
Proof.
  unfold data_asset_config_of, dict_set_unless_none.
  destruct sampling_kwargs, sampling_method, splitter_kwargs, splitter_method;
    rewrite ?dict_get_set; reflexivity.
Qed.

(** X29: what a refresh that returns has written to the cache of data
    assets.  The cache is the one before with, in the order of the
    introspected list, the configuration of every table that is not
    passed over and whose partition definitions can be listed, under its
    data asset name (a later table of the same name replaces an earlier
    one).  So every entry is one the cache had already, or is that of a
    table of the list that is not excluded and is included, and its
    ['table_name'] is the table's qualified name, with or without
    [include_schema_name]. *)
Theorem refresh_cache_written (l : list TableMetadata) (cache cache' : gmap string dict) :
  refresh_cache (inr l) cache = (cache', None) ->
  cache' = foldl (fun (acc : gmap string dict) m => <[name_of m := config_of m]> acc)
             cache (List.filter is_stored l) /\
  forall name cfg, cache' !! name = Some cfg ->
    cache !! name = Some cfg \/
    exists m, m ∈ l /\ name = name_of m /\ cfg = config_of m /\
              (forall excluded, excluded_tables = Some excluded ->
                 qualified_name m ∉ excluded) /\
              (forall included, included_tables = Some included ->
                 qualified_name m ∈ included) /\
              dict_get "table_name" cfg = Some (PStr (qualified_name m)).
Proof.
  intros H. simpl in H. pose proof (refresh_loop_returns _ _ _ H) as ->.
  split; [reflexivity|]. intros name cfg Hl.
  destruct (written_lookup _ _ _ _ Hl) as [Hc|(m & Hm & Hs & -> & ->)]; [auto|].
  right. exists m. split; [exact Hm|]. split; [reflexivity|]. split; [reflexivity|].
  unfold stored in Hs. apply andb_true_iff in Hs as [Ho _].
  apply negb_true_iff in Ho. unfold passed_over in Ho.
  apply orb_false_iff in Ho as [Hex Hin].
  split; [|split; [|apply config_table_name]].
  - intros ex Hex'. rewrite Hex' in Hex. apply bool_decide_eq_false in Hex. exact Hex.
  - intros inc Hin'. rewrite Hin' in Hin. apply negb_false_iff in Hin.
    apply bool_decide_eq_true in Hin. exact Hin.
Qed.

Lemma written_dom (l : list TableMetadata) :
  forall (cache : gmap string dict) (name : string),
    is_Some (cache !! name) -> is_Some (written cache l !! name).
Proof.
  induction l as [|m l IH]; intros cache name H; simpl; [exact H|].
  destruct (is_stored m); simpl; [|apply IH, H].
  apply IH. destruct (decide (name = name_of m)) as [->|Hne].
  - rewrite lookup_insert_eq. eauto.
  - rewrite lookup_insert_ne by congruence. exact H.
Qed.

(** X30: a table whose partition definitions cannot be listed
    ([OperationalError]).  With [skip_inapplicable_tables] the table is
    left out and the refresh goes on; without it the refresh raises
    [ValueError] at the first such table, the tables before it having
    been written to the cache already.  Either way no entry the cache
    had is removed. *)
Theorem refresh_inapplicable_table (l1 l2 : list TableMetadata) (m : TableMetadata)
  (cache : gmap string dict) :
  (forall x, x ∈ l1 ->
     over x = true \/ exists u, probe (name_of x) (config_of x) = inr u) ->
  over m = false ->
  probe (name_of m) (config_of m) = inl OperationalError ->
  refresh_cache (inr (l1 ++ m :: l2)%list) cache
  = (if skip_inapplicable_tables
     then refresh_cache (inr l2)
            (foldl (fun (acc : gmap string dict) x => <[name_of x := config_of x]> acc)
               cache (List.filter is_stored l1))
     else (foldl (fun (acc : gmap string dict) x => <[name_of x := config_of x]> acc)
             cache (List.filter is_stored l1),
           Some (Builtin ValueError))) /\
  forall name, is_Some (cache !! name) ->
    is_Some (fst (refresh_cache (inr (l1 ++ m :: l2)%list) cache) !! name).
Proof.
  intros Hl1 Ho Hp. simpl.
  assert (refresh (l1 ++ m :: l2) cache
          = if skip_inapplicable_tables then refresh l2 (written cache l1)
            else (written cache l1, Some (Builtin ValueError))) as Heq.
  { rewrite (refresh_loop_prefix l1 (m :: l2) cache Hl1). simpl.
    rewrite Ho, Hp. reflexivity. }
  split; [exact Heq|].
  assert (forall l c name, is_Some (c !! name) -> is_Some (fst (refresh l c) !! name))
    as Hkeep.
  { clear. induction l as [|x l IH]; intros c name H; simpl; [exact H|].
    destruct (over x); [apply IH, H|].
    destruct (probe (name_of x) (config_of x)) as [e|u].
    - destruct e; try exact H.
      destruct skip_inapplicable_tables; [apply IH, H|exact H].
    - apply IH. destruct (decide (name = name_of x)) as [->|Hne].
      + rewrite lookup_insert_eq. eauto.
      + rewrite lookup_insert_ne by congruence. exact H. }
  intros name H. apply Hkeep, H.
Qed.

End RefreshProperties.

Lemma refresh_cache_written_witness :
  let probe : string -> dict -> outcome unit :=
    fun name _ => if String.eqb name "broken" then inl OperationalError else inr tt in
  let refresh :=
    _refresh_introspected_data_assets_cache "" "" false None None None None
      (Some ["main.secret"]) None true probe in
  let l :=
    [{| schema_name := "main"; table_name := "users"; type := table |};
     {| schema_name := "main"; table_name := "secret"; type := table |};
     {| schema_name := "main"; table_name := "broken"; type := table |}] in
  exists cache',
    refresh (inr l) ∅ = (cache', None) /\
    cache' = <["users" := [("table_name", PStr "main.users")]]> ∅ /\
    forall name cfg, cache' !! name = Some cfg ->
      exists m, m ∈ l /\ dict_get "table_name" cfg = Some (PStr (qualified_name m)).
Proof.
  intros probe refresh l.
  assert (refresh (inr l) ∅ = (<["users" := [("table_name", PStr "main.users")]]> ∅, None)) as E
    by reflexivity.
  eexists. split; [exact E|]. split; [reflexivity|].
  intros name cfg H.
  destruct (proj2 (refresh_cache_written "" "" false None None None None
                     (Some ["main.secret"]) None true probe l ∅ _ E) name cfg H)
    as [Hc|(m & Hm & _ & _ & _ & _ & Ht)].
  - rewrite lookup_empty in Hc. discriminate.
  - exists m. auto.
Defined.

Lemma refresh_inapplicable_table_witness :
  let probe : string -> dict -> outcome unit :=
    fun name _ => if String.eqb name "broken" then inl OperationalError else inr tt in
  let refresh :=
    _refresh_introspected_data_assets_cache "" "" false None None None None None None
      false probe in
  let users := {| schema_name := "main"; table_name := "users"; type := table |} in
  let broken := {| schema_name := "main"; table_name := "broken"; type := table |} in
  let orders := {| schema_name := "main"; table_name := "orders"; type := table |} in
  (forall x, x ∈ [users] ->
     passed_over None None x = true \/
     exists u, probe (data_asset_name_of "" "" false x)
                 (data_asset_config_of None None None None x) = inr u) /\
  passed_over None None broken = false /\
  probe (data_asset_name_of "" "" false broken)
    (data_asset_config_of None None None None broken) = inl OperationalError /\
  refresh (inr [users; broken; orders]) ∅
  = (<["users" := [("table_name", PStr "main.users")]]> ∅, Some (Builtin ValueError)).
Proof.
  intros probe refresh users broken orders.
  assert (forall x, x ∈ [users] ->
            passed_over None None x = true \/
            exists u, probe (data_asset_name_of "" "" false x)
                        (data_asset_config_of None None None None x) = inr u) as H1.
  { intros x Hx. apply list_elem_of_singleton in Hx. subst x. right. exists tt. reflexivity. }
  split; [exact H1|]. split; [reflexivity|]. split; [reflexivity|].
  apply (proj1 (refresh_inapplicable_table "" "" false None None None None None None
                  false probe [users] [orders] broken ∅ H1 eq_refl eq_refl)).
Defined.

